(** * PhiFlow: extrapolations, embedded geometries and meshes

    A shallow embedding of the parts of
    [phi/math/_extrapolation.py], [phi/geom/_transform.py] and
    [phi/geom/_mesh.py] that the specification's properties talk about,
    followed by the properties themselves.

    Python exceptions are values of [PyError]; a call that may raise
    returns a [result].  Dictionaries whose iteration order is observable
    are association lists in insertion order. *)

From Stdlib Require Import ZArith QArith Lia List Bool Ascii String.
From Stdlib Require Import Permutation Sorted.
From stdpp Require Import base option list strings gmap.
Import ListNotations.

Local Open Scope string_scope.
Local Open Scope Z_scope.
Set Warnings "-register-all".

(** ** Exceptions and the result monad *)

Inductive PyError :=
| ValueError
| TypeError
| KeyError
| AttributeError
| AssertionError
| NotImplementedError
| FileNotFoundError
| IncompatibleExtrapolations.

Inductive result (A : Type) :=
| Ok (a : A)
| Err (e : PyError).
Arguments Ok {A} a.
Arguments Err {A} e.

#[global] Instance result_ret : MRet result := fun A a => Ok a.
#[global] Instance result_bind : MBind result := fun A B f r =>
  match r with Ok a => f a | Err e => Err e end.
#[global] Instance result_fmap : FMap result := fun A B f r =>
  match r with Ok a => Ok (f a) | Err e => Err e end.

(** [d[k]] on a dictionary kept as an association list. *)
Fixpoint assoc {A} (k : string) (d : list (string * A)) : option A :=
  match d with
  | [] => None
  | (k', a) :: d' => if String.eqb k k' then Some a else assoc k d'
  end.

Definition getitem {A} (d : list (string * A)) (k : string) : result A :=
  match assoc k d with Some a => Ok a | None => Err KeyError end.

(** [mapM] over a list, stopping at the first exception. *)
Fixpoint traverse {A B} (f : A -> result B) (l : list A) : result (list B) :=
  match l with
  | [] => Ok []
  | a :: l' => b ← f a; bs ← traverse f l'; Ok (b :: bs)
  end.

(** ** Values carried by constant extrapolations

    [ConstantExtrapolation.value] is a tensor.  The operations the
    extrapolation algebra applies to it form this interface; [close] is
    [math.close]. *)

Class TensorValue (V : Type) := {
  tensor : Z -> V;
  tadd : V -> V -> V;
  tsub : V -> V -> V;
  tmul : V -> V -> V;
  tdiv : V -> V -> V;
  close : V -> V -> bool
}.

#[global] Instance Q_TensorValue : TensorValue Q := {|
  tensor := inject_Z;
  tadd := Qplus;
  tsub := Qminus;
  tmul := Qmult;
  tdiv := Qdiv;
  close := Qeq_bool
|}.

(** ** The class hierarchy of [_extrapolation.py]

    Only what method lookup needs: the classes, their linearisation and
    the operator methods each class body defines. *)

Inductive PyClass :=
| cExtrapolation
| cConstantExtrapolation
| cCopyExtrapolation
| cBoundaryExtrapolation
| cPeriodicExtrapolation
| cSymmetricExtrapolation
| cReflectExtrapolation
| cMixedExtrapolation.

Inductive Dunder :=
| d_add | d_sub | d_rsub | d_mul | d_truediv | d_rtruediv | d_lt | d_gt
| d_neg | d_eq | d_hash.

Definition class_body (c : PyClass) (m : Dunder) : bool :=
  match c, m with
  | cConstantExtrapolation,
    (d_add | d_sub | d_rsub | d_mul | d_truediv | d_rtruediv
     | d_lt | d_gt | d_eq | d_hash) => true
  | cCopyExtrapolation,
    (d_add | d_mul | d_sub | d_truediv | d_lt | d_gt | d_eq | d_hash) => true
  | cMixedExtrapolation, (d_add | d_sub | d_mul) => true
  | _, _ => false
  end.

Definition mro (c : PyClass) : list PyClass :=
  match c with
  | cExtrapolation => [cExtrapolation]
  | cConstantExtrapolation => [cConstantExtrapolation; cExtrapolation]
  | cCopyExtrapolation => [cCopyExtrapolation; cExtrapolation]
  | cBoundaryExtrapolation =>
      [cBoundaryExtrapolation; cCopyExtrapolation; cExtrapolation]
  | cPeriodicExtrapolation =>
      [cPeriodicExtrapolation; cCopyExtrapolation; cExtrapolation]
  | cSymmetricExtrapolation =>
      [cSymmetricExtrapolation; cCopyExtrapolation; cExtrapolation]
  | cReflectExtrapolation =>
      [cReflectExtrapolation; cCopyExtrapolation; cExtrapolation]
  | cMixedExtrapolation => [cMixedExtrapolation; cExtrapolation]
  end.

(** The class whose body provides [m] for an instance of [c], if any.
    ([object] itself provides [__eq__] and [__hash__] but none of the
    arithmetic methods; only the latter are looked up through here.) *)
Definition resolve (c : PyClass) (m : Dunder) : option PyClass :=
  List.find (fun c' => class_body c' m) (mro c).

Inductive CopyKind := Boundary | Periodic | Symmetric | Reflect.

Definition CopyKind_eqb (a b : CopyKind) : bool :=
  match a, b with
  | Boundary, Boundary | Periodic, Periodic
  | Symmetric, Symmetric | Reflect, Reflect => true
  | _, _ => false
  end.

Definition copy_class (k : CopyKind) : PyClass :=
  match k with
  | Boundary => cBoundaryExtrapolation
  | Periodic => cPeriodicExtrapolation
  | Symmetric => cSymmetricExtrapolation
  | Reflect => cReflectExtrapolation
  end.

(** [repr(self)] of the four copy extrapolations. *)
Definition copy_repr (k : CopyKind) : string :=
  match k with
  | Boundary => "boundary"
  | Periodic => "periodic"
  | Symmetric => "symmetric"
  | Reflect => "reflect"
  end.

(** JSON-writable records, the codomain of [to_dict]. *)
Inductive Json (V : Type) :=
| JStr (s : string)
| JVal (v : V)
| JTuple (l : list (Json V))
| JDict (d : list (string * Json V)).
Arguments JStr {V} s.
Arguments JVal {V} v.
Arguments JTuple {V} l.
Arguments JDict {V} d.

(** Binary operators of the extrapolation algebra. *)
Inductive BinOp := Add | Sub | Mul | Div.

Definition forward (op : BinOp) : Dunder :=
  match op with
  | Add => d_add | Sub => d_sub | Mul => d_mul | Div => d_truediv
  end.

Definition reflected (op : BinOp) : option Dunder :=
  match op with
  | Sub => Some d_rsub
  | Div => Some d_rtruediv
  | Add | Mul => None
  end.

(** ** Shapes: named, typed dimensions *)

Inductive DimType := batch | spatial | channel | instance | dual.

Definition DimType_eqb (a b : DimType) : bool :=
  match a, b with
  | batch, batch | spatial, spatial | channel, channel
  | instance, instance | dual, dual => true
  | _, _ => false
  end.

Record Dim := { dim_name : string; dim_size : Z; dim_type : DimType }.

Definition Shape := list Dim.

Definition only_type (t : DimType) (shape : Shape) : Shape :=
  List.filter (fun d => DimType_eqb (dim_type d) t) shape.

Definition shape_spatial : Shape -> Shape := only_type spatial.

Definition names (shape : Shape) : list string := map dim_name shape.

Definition mem (x : string) (l : list string) : bool :=
  existsb (String.eqb x) l.

(** [zip]: stops at the end of the shorter list. *)
Fixpoint zip {A B} (l1 : list A) (l2 : list B) : list (A * B) :=
  match l1, l2 with
  | a :: l1', b :: l2' => (a, b) :: zip l1' l2'
  | _, _ => []
  end.

Section Extrapolation.
Context {V : Type} `{TensorValue V}.

(** An extrapolation that is the same on every axis and side. *)
Inductive Simple :=
| ConstantExtrapolation (value : V)
| CopyExtrapolation (k : CopyKind).

(** [MixedExtrapolation.ext]: axis name to (lower, upper), in insertion
    order. *)
Definition ExtDict := list (string * (Simple * Simple)).

Inductive Extrapolation :=
| Single (s : Simple)
| MixedExtrapolation (ext : ExtDict).

Definition ZERO : Simple := ConstantExtrapolation (tensor 0).
Definition ONE : Simple := ConstantExtrapolation (tensor 1).
Definition PERIODIC : Simple := CopyExtrapolation Periodic.
Definition BOUNDARY : Simple := CopyExtrapolation Boundary.
Definition SYMMETRIC : Simple := CopyExtrapolation Symmetric.
Definition REFLECT : Simple := CopyExtrapolation Reflect.

Definition class_of (s : Simple) : PyClass :=
  match s with
  | ConstantExtrapolation _ => cConstantExtrapolation
  | CopyExtrapolation k => copy_class k
  end.

(** [Extrapolation.pad_rank], set by the constructors: 5 for constants and
    the number each copy singleton is created with. *)
Definition pad_rank (s : Simple) : Z :=
  match s with
  | ConstantExtrapolation _ => 5
  | CopyExtrapolation Periodic => 1
  | CopyExtrapolation Boundary => 2
  | CopyExtrapolation Symmetric => 3
  | CopyExtrapolation Reflect => 4
  end.

(** [__eq__]: constants compare their values with [math.close], copy
    extrapolations compare their types. *)
Definition simple_eq (a b : Simple) : bool :=
  match a, b with
  | ConstantExtrapolation v, ConstantExtrapolation w => close v w
  | CopyExtrapolation k, CopyExtrapolation k' => CopyKind_eqb k k'
  | _, _ => false
  end.

(** *** Serialisation *)

Definition simple_to_dict (s : Simple) : Json V :=
  match s with
  | ConstantExtrapolation v =>
      JDict [("type", JStr "constant"); ("value", JVal v)]
  | CopyExtrapolation k => JDict [("type", JStr (copy_repr k))]
  end.

Definition to_dict (e : Extrapolation) : Json V :=
  match e with
  | Single s => simple_to_dict s
  | MixedExtrapolation ext =>
      JDict [("type", JStr "mixed");
             ("axes", JDict (map (fun '(ax, (lo, up)) =>
                (ax, JTuple [simple_to_dict lo; simple_to_dict up])) ext))]
  end.

Definition is_type (j : Json V) (name : string) : bool :=
  match j with JStr s => String.eqb s name | _ => false end.

Definition from_dict (dictionary : Json V) : result Extrapolation :=
  match dictionary with
  | JDict d =>
      etype ← getitem d "type";
      if is_type etype "constant" then
        value ← getitem d "value";
        match value with
        | JVal v => Ok (Single (ConstantExtrapolation v))
        | _ => Err TypeError
        end
      else if is_type etype "periodic" then Ok (Single PERIODIC)
      else if is_type etype "boundary" then Ok (Single BOUNDARY)
      else if is_type etype "symmetric" then Ok (Single SYMMETRIC)
      else if is_type etype "reflect" then Ok (Single REFLECT)
      else Err ValueError
  | _ => Err TypeError
  end.

(** *** Gradient *)

(** [-self]: Python looks [__neg__] up on the operand's class and raises
    [TypeError] when no class of the linearisation defines it. *)
Definition unary_minus (s : Simple) : result Simple :=
  match resolve (class_of s) d_neg with
  | None => Err TypeError
  | Some _ => Err NotImplementedError
  end.

Definition simple_gradient (s : Simple) : result Simple :=
  match s with
  | ConstantExtrapolation _ => Ok ZERO
  | CopyExtrapolation Boundary => Ok ZERO
  | CopyExtrapolation Periodic => Ok s
  | CopyExtrapolation Symmetric => unary_minus s
  | CopyExtrapolation Reflect => unary_minus s
  end.

Definition gradient (e : Extrapolation) : result Extrapolation :=
  match e with
  | Single s => Single <$> simple_gradient s
  | MixedExtrapolation ext =>
      MixedExtrapolation <$>
        traverse (fun '(ax, (lo, up)) =>
                    glo ← simple_gradient lo;
                    gup ← simple_gradient up;
                    Ok (ax, (glo, gup))) ext
  end.

(** *** Algebra *)

(** The right operand of a [ConstantExtrapolation] method is either a
    member of a mixed extrapolation or any extrapolation; the method bodies
    only ask whether it is a constant, and return it or [self]. *)
Class Operand (T : Type) := {
  as_constant : T -> option V;
  of_simple : Simple -> T
}.

#[local] Instance Simple_Operand : Operand Simple := {|
  as_constant s :=
    match s with ConstantExtrapolation v => Some v | _ => None end;
  of_simple s := s
|}.

#[local] Instance Extrapolation_Operand : Operand Extrapolation := {|
  as_constant e :=
    match e with Single (ConstantExtrapolation v) => Some v | _ => None end;
  of_simple := Single
|}.

Definition is_zero (v : V) : bool := close v (tensor 0).
Definition is_one (v : V) : bool := close v (tensor 1).

Definition Constant__add__ {T} `{Operand T} (v : V) (other : T) : result T :=
  match as_constant other with
  | Some w => Ok (of_simple (ConstantExtrapolation (tadd v w)))
  | None => if is_zero v then Ok other else Err IncompatibleExtrapolations
  end.

Definition Constant__sub__ {T} `{Operand T} (v : V) (other : T) : result T :=
  match as_constant other with
  | Some w => Ok (of_simple (ConstantExtrapolation (tsub v w)))
  | None => Err IncompatibleExtrapolations
  end.

Definition Constant__rsub__ {T} `{Operand T} (v : V) (other : T) : result T :=
  match as_constant other with
  | Some w => Ok (of_simple (ConstantExtrapolation (tsub w v)))
  | None => if is_zero v then Ok other else Err IncompatibleExtrapolations
  end.

Definition Constant__mul__ {T} `{Operand T} (v : V) (other : T) : result T :=
  match as_constant other with
  | Some w => Ok (of_simple (ConstantExtrapolation (tmul v w)))
  | None =>
      if is_one v then Ok other
      else if is_zero v then Ok (of_simple (ConstantExtrapolation v))
      else Err IncompatibleExtrapolations
  end.

Definition Constant__truediv__ {T} `{Operand T} (v : V) (other : T)
  : result T :=
  match as_constant other with
  | Some w => Ok (of_simple (ConstantExtrapolation (tdiv v w)))
  | None =>
      if is_zero v then Ok (of_simple (ConstantExtrapolation v))
      else Err IncompatibleExtrapolations
  end.

Definition Constant__rtruediv__ {T} `{Operand T} (v : V) (other : T)
  : result T :=
  match as_constant other with
  | Some w => Ok (of_simple (ConstantExtrapolation (tdiv w v)))
  | None => if is_one v then Ok other else Err IncompatibleExtrapolations
  end.

(** [getattr(c, name)(other)] for a constant [c] and one of the arithmetic
    method names. *)
Definition constant_call {T} `{Operand T} (name : Dunder) (v : V) (other : T)
  : result T :=
  match name with
  | d_add => Constant__add__ v other
  | d_sub => Constant__sub__ v other
  | d_rsub => Constant__rsub__ v other
  | d_mul => Constant__mul__ v other
  | d_truediv => Constant__truediv__ v other
  | d_rtruediv => Constant__rtruediv__ v other
  | _ => Err AttributeError
  end.

(** The [ConstantExtrapolation] method that each operator of
    [_CopyExtrapolation] hands to [_op]. *)
Definition copy_delegate (op : BinOp) : Dunder :=
  match op with
  | Add => d_add
  | Mul => d_mul
  | Sub => d_rsub
  | Div => d_rtruediv
  end.

(** [_CopyExtrapolation._op] when [other] is a simple extrapolation. *)
Definition copy_op_simple (k : CopyKind) (other : Simple) (op : Dunder)
  : result Simple :=
  match other with
  | CopyExtrapolation k' =>
      if CopyKind_eqb k' k then Ok (CopyExtrapolation k)
      else Err IncompatibleExtrapolations
  | ConstantExtrapolation w => constant_call op w (CopyExtrapolation k)
  end.

(** [a op b] for two simple extrapolations. *)
Definition simple_binop (op : BinOp) (a b : Simple) : result Simple :=
  match a with
  | ConstantExtrapolation v => constant_call (forward op) v b
  | CopyExtrapolation k => copy_op_simple k b (copy_delegate op)
  end.

Definition keys {A} (d : list (string * A)) : list string := map fst d.

(** [d1.keys() == d2.keys()]: comparison as sets. *)
Definition keys_eq {A B} (d1 : list (string * A)) (d2 : list (string * B))
  : bool :=
  forallb (fun k => existsb (String.eqb k) (keys d2)) (keys d1)
  && forallb (fun k => existsb (String.eqb k) (keys d1)) (keys d2).

Definition op2 (ext : ExtDict) (other : Extrapolation) (op : BinOp)
  : result Extrapolation :=
  match other with
  | MixedExtrapolation ext' =>
      if keys_eq ext ext' then
        MixedExtrapolation <$>
          traverse (fun '(ax, (lo, hi)) =>
                      o ← getitem ext' ax;
                      l ← simple_binop op lo (fst o);
                      h ← simple_binop op hi (snd o);
                      Ok (ax, (l, h))) ext
      else Err AssertionError
  | Single s =>
      MixedExtrapolation <$>
        traverse (fun '(ax, (lo, hi)) =>
                    l ← simple_binop op lo s;
                    h ← simple_binop op hi s;
                    Ok (ax, (l, h))) ext
  end.

(** [getattr(m, name)(other)] for a mixed extrapolation [m]. *)
Definition mixed_call (name : Dunder) (ext : ExtDict) (other : Extrapolation)
  : result Extrapolation :=
  match resolve cMixedExtrapolation name with
  | None => Err AttributeError
  | Some _ =>
      match name with
      | d_add => op2 ext other Add
      | d_sub => op2 ext other Sub
      | d_mul => op2 ext other Mul
      | _ => Err AttributeError
      end
  end.

(** [_CopyExtrapolation._op(self, other, op)]. *)
Definition copy_op (k : CopyKind) (other : Extrapolation) (op : Dunder)
  : result Extrapolation :=
  match other with
  | Single (CopyExtrapolation k') =>
      if CopyKind_eqb k' k then Ok (Single (CopyExtrapolation k))
      else Err IncompatibleExtrapolations
  | Single (ConstantExtrapolation w) =>
      constant_call op w (Single (CopyExtrapolation k))
  | MixedExtrapolation ext =>
      mixed_call op ext (Single (CopyExtrapolation k))
  end.

(** [a op b] for arbitrary extrapolations.  A mixed left operand without
    the forward method falls back on the reflected method of a right
    operand of another class. *)
Definition binop (op : BinOp) (a b : Extrapolation) : result Extrapolation :=
  match a with
  | Single (ConstantExtrapolation v) => constant_call (forward op) v b
  | Single (CopyExtrapolation k) => copy_op k b (copy_delegate op)
  | MixedExtrapolation ext =>
      match resolve cMixedExtrapolation (forward op) with
      | Some _ => mixed_call (forward op) ext b
      | None =>
          match b, reflected op with
          | Single s, Some r =>
              match resolve (class_of s) r, s with
              | Some _, ConstantExtrapolation w => constant_call r w a
              | _, _ => Err TypeError
              end
          | _, _ => Err TypeError
          end
      end
  end.

(** *** Coordinate transforms *)

(** Integer remainder of the array backend: floor-mod, and 0 for a zero
    divisor. *)
Definition py_mod (a b : Z) : Z := if b =? 0 then 0 else a mod b.

(** One coordinate along an axis of the given size. *)
Definition simple_transform_coordinates (s : Simple) (c size : Z) : Z :=
  match s with
  | CopyExtrapolation Periodic => py_mod c size
  | CopyExtrapolation Symmetric =>
      let c' := py_mod c (2 * size) in
      ((2 * size - 1) - Z.abs ((2 * size - 1) - 2 * c')) / 2
  | CopyExtrapolation Reflect =>
      let c' := py_mod c (2 * size - 2) in
      (size - 1) - Z.abs ((size - 1) - c')
  | _ => Z.min (Z.max c 0) (size - 1)
  end.

(** [MixedExtrapolation.transform_coordinates] on the components of one
    coordinate vector. *)
Definition transform_coordinates (ext : ExtDict) (coordinates : list Z)
    (shape : Shape) : result (list Z) :=
  if (Z.of_nat (length ext) =? Z.of_nat (length shape))
     && (Z.of_nat (length shape) =? Z.of_nat (length coordinates))
  then
    traverse (fun '(dim, dim_coords) =>
                dim_extrapolations ← getitem ext (dim_name dim);
                let '(lo, up) := dim_extrapolations in
                if simple_eq lo up then
                  Ok (simple_transform_coordinates lo dim_coords (dim_size dim))
                else
                  let lower :=
                    simple_transform_coordinates lo dim_coords (dim_size dim) in
                  let upper :=
                    simple_transform_coordinates up dim_coords (dim_size dim) in
                  Ok (if dim_coords <=? 0 then lower else upper))
             (zip (shape_spatial shape) coordinates)
  else Err AssertionError.

(** The specification's reading of one axis: "if lower and upper policies
    match, delegate directly; otherwise compute both and select", the lower
    policy's transform for a coordinate that is not positive. *)
Definition axis_transform (lo up : Simple) (c size : Z) : Z :=
  if simple_eq lo up then simple_transform_coordinates lo c size
  else if c <=? 0 then simple_transform_coordinates lo c size
       else simple_transform_coordinates up c size.

(** *** Mixed padding *)

(** [widths]: axis name to (lower, upper). *)
Definition Widths := list (string * (Z * Z)).

(** [sum(self.ext.values(), ())]. *)
Definition members (ext : ExtDict) : list Simple :=
  flat_map (fun '(_, (lo, up)) => [lo; up]) ext.

(** Adding to a set keeps the element already present. *)
Definition set_add (e : Simple) (s : list Simple) : list Simple :=
  if existsb (fun x => simple_eq x e) s then s else (s ++ [e])%list.

Definition set_of (l : list Simple) : list Simple :=
  fold_left (fun s e => set_add e s) l [].

(** [sorted(_, key=lambda e: e.pad_rank)]: stable. *)
Fixpoint insert_by_rank (e : Simple) (l : list Simple) : list Simple :=
  match l with
  | [] => [e]
  | x :: l' =>
      if pad_rank e <=? pad_rank x then e :: l else x :: insert_by_rank e l'
  end.

Definition sorted_by_rank (l : list Simple) : list Simple :=
  fold_right insert_by_rank [] l.

Definition rank_le (a b : Simple) : Prop := pad_rank a <= pad_rank b.

(** The widths handed to [ext]: those of the slots [ext] occupies. *)
Definition ext_widths (self_ext : ExtDict) (ext : Simple) (widths : Widths)
  : result Widths :=
  traverse (fun '(ax, (l, u)) =>
              es ← getitem self_ext ax;
              Ok (ax, (if simple_eq (fst es) ext then l else 0,
                       if simple_eq (snd es) ext then u else 0)))
           widths.

(** Whether [ext] is the policy of the lower (upper) side of [ax]. *)
Definition owns_lower (self_ext : ExtDict) (ax : string) (ext : Simple) : bool :=
  match assoc ax self_ext with
  | Some es => simple_eq (fst es) ext
  | None => false
  end.

Definition owns_upper (self_ext : ExtDict) (ax : string) (ext : Simple) : bool :=
  match assoc ax self_ext with
  | Some es => simple_eq (snd es) ext
  | None => false
  end.

(** The specification's reading of [ext_widths]: the given widths, "zeroed
    out except where that exact policy occupies that axis/side". *)
Definition owned_widths (self_ext : ExtDict) (ext : Simple) (widths : Widths)
  : Widths :=
  map (fun '(ax, (l, u)) =>
         (ax, (if owns_lower self_ext ax ext then l else 0,
               if owns_upper self_ext ax ext then u else 0)))
      widths.

(** Two policies that the set kept apart. *)
Definition kept_apart (a b : Simple) : Prop :=
  simple_eq a b = false \/ simple_eq b a = false.

Section MixedPad.
(** The tensor representations and the [pad] of the simple extrapolations
    bottom out in the array backend; so does the iteration order of a
    [set]. *)
Variable Tensor : Type.
Variable simple_pad : Simple -> Tensor -> Widths -> result Tensor.
Variable set_iter : list Simple -> list Simple.

Definition extrapolations (ext : ExtDict) : list Simple :=
  sorted_by_rank (set_iter (set_of (members ext))).

Definition pad_step (self_ext : ExtDict) (widths : Widths)
    (value : result Tensor) (ext : Simple) : result Tensor :=
  v ← value;
  w ← ext_widths self_ext ext widths;
  simple_pad ext v w.

Definition mixed_pad (ext : ExtDict) (value : Tensor) (widths : Widths)
  : result Tensor :=
  fold_left (pad_step ext widths) (extrapolations ext) (Ok value).

(** The specification's reading of [pad]: every policy of the schedule
    pads with the widths of the slots it occupies. *)
Definition spec_pad (self_ext : ExtDict) (widths : Widths)
    (schedule : list Simple) (value : Tensor) : result Tensor :=
  fold_left (fun acc ext =>
               v ← acc; simple_pad ext v (owned_widths self_ext ext widths))
            schedule (Ok value).

End MixedPad.

End Extrapolation.

(** ** Embedded geometries ([phi/geom/_transform.py]) *)

(** A location: the components of a vector tensor under their item
    names. *)
Definition Location := list (string * Q).

(** What [_transform.py] asks of a geometry it wraps. *)
Record GeometryImpl := {
  g_item_names : list string;
  g_lies_inside : Location -> result bool;
  g_approximate_signed_distance : Location -> result Q
}.

(** Per axis the lower and upper corner; [None] is unbounded. *)
Definition Bounds := list (string * (option Q * option Q)).

Inductive Geometry :=
| BaseBox (bounds : Bounds)
| Other (impl : GeometryImpl)
| EmbeddedGeometry (geometry : Geometry) (axes : list string).

(** [geometry.shape.get_item_names('vector')]. *)
Definition item_names (g : Geometry) : list string :=
  match g with
  | BaseBox bounds => keys bounds
  | Other impl => g_item_names impl
  | EmbeddedGeometry _ axes => axes
  end.

(** The [projected_dims] argument of [embed]. *)
Inductive ProjectedDims :=
| DimsNone
| DimsStr (s : string)
| DimsTuple (l : list string).

Fixpoint split_on (c : Ascii.ascii) (s : string) : list string :=
  match s with
  | EmptyString => [EmptyString]
  | String a s' =>
      if Ascii.eqb a c then EmptyString :: split_on c s'
      else match split_on c s' with
           | [] => [String a EmptyString]
           | w :: ws => String a w :: ws
           end
  end.

Fixpoint lstrip (s : string) : string :=
  match s with
  | String a s' => if Ascii.eqb a " "%char then lstrip s' else s
  | EmptyString => s
  end.

Fixpoint rstrip (s : string) : string :=
  match s with
  | String a s' =>
      match rstrip s' with
      | EmptyString => if Ascii.eqb a " "%char then EmptyString
                       else String a EmptyString
      | r => String a r
      end
  | EmptyString => s
  end.

Definition strip (s : string) : string := rstrip (lstrip s).

(** Modelled from the spec: [parse_dim_order] of the tensor library, which
    "parses the axis-name order": a tuple or list as it is, a string as
    its comma-separated names. *)
Definition parse_dim_order (p : ProjectedDims) : list string :=
  match p with
  | DimsNone => []
  | DimsStr s => map strip (split_on ","%char s)
  | DimsTuple l => l
  end.

(** [name in projected_dims]: substring test on a string, membership on a
    tuple. *)
Definition dims_contain (p : ProjectedDims) (name : string) : bool :=
  match p with
  | DimsNone => false
  | DimsStr s => match String.index 0 name s with Some _ => true | None => false end
  | DimsTuple l => mem name l
  end.

(** Modelled from the spec: the product of a box with "an unbounded box
    spanning the new axes only (each new axis given bounds None meaning
    unbounded)"; [Box.__mul__] is not part of these sources. *)
Definition box_product (box : Bounds) (new_axes : list string) : Bounds :=
  (box ++ map (fun dim => (dim, (None, None))) new_axes)%list.

Definition embed (geometry : Geometry) (projected_dims : ProjectedDims)
  : Geometry :=
  match projected_dims with
  | DimsNone => geometry
  | _ =>
      let axes := parse_dim_order projected_dims in
      let embedded_axes :=
        List.filter (fun a => negb (mem a (item_names geometry))) axes in
      match embedded_axes with
      | [] => geometry
      | _ =>
          let axes :=
            fold_left (fun axes name =>
                         if negb (dims_contain projected_dims name)
                         then name :: axes else axes)
                      (rev (item_names geometry)) axes in
          match geometry with
          | BaseBox box => BaseBox (box_product box embedded_axes)
          | _ => EmbeddedGeometry geometry axes
          end
      end
  end.

Definition infinite_cylinder (sphere : GeometryImpl) (inf_dim : ProjectedDims)
  : Geometry :=
  embed (Other sphere) inf_dim.

(** [list.remove(x)]: drops the first occurrence, [ValueError] if there is
    none. *)
Fixpoint list_remove (x : string) (l : list string) : result (list string) :=
  match l with
  | [] => Err ValueError
  | y :: l' =>
      if String.eqb y x then Ok l'
      else l'' ← list_remove x l'; Ok (y :: l'')
  end.

(** [location.vector[item_names]]. *)
Definition select (location : Location) (item_names : list string)
  : result Location :=
  traverse (fun n => v ← getitem location n; Ok (n, v)) item_names.

(** [_EmbeddedGeometry._down_project]. *)
Definition down_project (geometry : Geometry) (axes : list string)
    (location : Location) : result Location :=
  item_names' ←
    fold_left (fun acc dim =>
                 l ← acc;
                 if negb (mem dim (item_names geometry))
                 then list_remove dim l else Ok l)
              axes (Ok (keys location));
  select location item_names'.

Definition Qle_opt_lower (lo : option Q) (x : Q) : bool :=
  match lo with Some l => Qle_bool l x | None => true end.

Definition Qle_opt_upper (x : Q) (up : option Q) : bool :=
  match up with Some u => Qle_bool x u | None => true end.

(** Modelled from the spec: containment in a box, axis by axis between the
    lower and upper corner, an unbounded side imposing nothing;
    [BaseBox.lies_inside] is not part of these sources. The location is a
    point of the space of the box: a vector with a component along an axis
    that the box does not have cannot be compared with its corners, and the
    tensor library raises ([ValueError] stands for its error here). *)
Definition box_lies_inside (box : Bounds) (location : Location) : result bool :=
  _ ← (if forallb (fun n => mem n (keys box)) (keys location)
       then Ok tt else Err ValueError);
  inside ← traverse (fun '(ax, (lo, up)) =>
                       x ← getitem location ax;
                       Ok (Qle_opt_lower lo x && Qle_opt_upper x up)) box;
  Ok (forallb id inside).

Section Transform.
(** The signed distance of a box is the box's own business. *)
Variable box_approximate_signed_distance : Bounds -> Location -> result Q.

Fixpoint lies_inside (g : Geometry) (location : Location) : result bool :=
  match g with
  | BaseBox box => box_lies_inside box location
  | Other impl => g_lies_inside impl location
  | EmbeddedGeometry geometry axes =>
      p ← down_project geometry axes location;
      lies_inside geometry p
  end.

Fixpoint approximate_signed_distance (g : Geometry) (location : Location)
  : result Q :=
  match g with
  | BaseBox box => box_approximate_signed_distance box location
  | Other impl => g_approximate_signed_distance impl location
  | EmbeddedGeometry geometry axes =>
      p ← down_project geometry axes location;
      approximate_signed_distance geometry p
  end.

End Transform.

(** The axes that an embedding adds to its base geometry. *)
Definition new_axes (g : Geometry) (axes : list string) : list string :=
  List.filter (fun a => negb (mem a (item_names g))) axes.

(** A location without the components along [dims]. *)
Definition drop_axes (dims : list string) (location : Location) : Location :=
  List.filter (fun '(n, _) => negb (mem n dims)) location.

(** A location projected onto [dims]. *)
Definition project (dims : list string) (location : Location) : Location :=
  List.filter (fun '(n, _) => mem n dims) location.

(** ** Meshes ([phi/geom/_mesh.py]) *)

(** The vertex coordinates: a tensor with its shape, the item names of
    its [vector] dimension, and one row of components per vertex. *)
Record VertexTensor := {
  vt_shape : Shape;
  vt_item_names : list string;
  vt_data : list (list Q)
}.

(** The three representations [elements] comes in: a dense integer tensor
    listing vertex indices along a spatial dimension, a
    [CompactSparseTensor] with its [_indices], and a general sparse
    boolean matrix given by the column indices of each row. *)
Inductive Elements :=
| IndexTensor (shape : Shape) (indices : list (list Z))
| CompactSparseTensor (shape : Shape) (indices : list (list Z))
| SparseMatrix (shape : Shape) (rows : list (list Z)).

Definition el_shape (e : Elements) : Shape :=
  match e with
  | IndexTensor s _ | CompactSparseTensor s _ | SparseMatrix s _ => s
  end.

Definition el_rows (e : Elements) : list (list Z) :=
  match e with
  | IndexTensor _ r | CompactSparseTensor _ r | SparseMatrix _ r => r
  end.

(** Python values that travel through the constructors unchecked. *)
Inductive PyVal :=
| PNone
| PInt (n : Z)
| PStr (s : string)
| PStrs (l : list string)
| PEdges (d : list (string * list (list Z)))
| PScalars (l : list Q)
| PVectors (l : list (list Q))
| PGeometry (v : VertexTensor)
| PTensor (v : VertexTensor)
| PElements (e : Elements)
| POpaque (tag : string).

(** The fields of the frozen dataclass [Mesh], in declaration order. *)
Record Mesh := {
  vertices : VertexTensor;
  elements : Elements;
  element_rank : PyVal;
  boundaries : PyVal;
  periodic : PyVal;
  face_format : PyVal;
  max_cell_walk : PyVal;
  variable_attrs : list string;
  value_attrs : list string
}.

Definition volume_of (shape : Shape) : Z :=
  fold_right Z.mul 1 (map dim_size shape).

Definition nonempty {A} (l : list A) : bool :=
  match l with [] => false | _ => true end.

Definition assert (b : bool) : result unit :=
  if b then Ok tt else Err AssertionError.

(** [_MeshType.__call__(cls, vertices, elements, element_rank, boundaries,
    max_cell_walk=None, variables=('vertices',), values=())] applied to
    positional arguments. The seven bound values are handed on, in this
    order, to the dataclass initialiser, whose fifth to seventh fields are
    [periodic], [face_format] and [max_cell_walk]. *)
Definition MeshType_call (args : list PyVal) : result Mesh :=
  match args with
  | vertices :: elements :: element_rank :: boundaries :: rest =>
      optional ←
        match rest with
        | [] => Ok (PNone, PStrs ["vertices"], PStrs [])
        | [m] => Ok (m, PStrs ["vertices"], PStrs [])
        | [m; vars] => Ok (m, vars, PStrs [])
        | [m; vars; vals] => Ok (m, vars, vals)
        | _ => Err TypeError
        end;
      let '(max_cell_walk, variables, values) := optional in
      el ← match elements with PElements e => Ok e | _ => Err TypeError end;
      _ ← (if nonempty (only_type spatial (el_shape el))
           then assert (match el with IndexTensor _ _ => true | _ => false end)
           else assert (match el with IndexTensor _ _ => false | _ => true end));
      v ← match vertices with
          | PGeometry v => Ok v
          | PTensor v => Ok v
          | _ => Err TypeError
          end;
      let max_cell_walk :=
        match max_cell_walk with
        | PNone =>
            PInt (if 1 <? volume_of (only_type instance (el_shape el))
                  then 2 else 1)
        | w => w
        end in
      Ok {| vertices := v; elements := el; element_rank := element_rank;
            boundaries := boundaries; periodic := max_cell_walk;
            face_format := variables; max_cell_walk := values;
            variable_attrs := ["vertices"]; value_attrs := [] |}
  | _ => Err TypeError
  end.

(** [shape.as_dual()]: the dual counterparts are named with a tilde. *)
Definition as_dual (shape : Shape) : Shape :=
  map (fun d => {| dim_name := "~" ++ dim_name d; dim_size := dim_size d;
                   dim_type := dual |}) shape.

(** The shape of [CompactSparseTensor(indices, values, dims, True)] with
    [indices = rename_dims(elements, spatial, dims)]: the spatial
    dimensions, which list the indices, become the compressed dimensions
    [dims], and the tensor has these in their full size. *)
Fixpoint compact_shape (shape : Shape) (dims : Shape) : Shape :=
  match shape with
  | [] => []
  | d :: shape' =>
      match dim_type d, dims with
      | spatial, d' :: dims' => d' :: compact_shape shape' dims'
      | _, _ => d :: compact_shape shape' dims
      end
  end.

Definition get_size (shape : Shape) (name : string) : result Z :=
  match List.find (fun d => String.eqb (dim_name d) name) shape with
  | Some d => Ok (dim_size d)
  | None => Err KeyError
  end.

(** [min] of a tensor; there is none for an empty one. *)
Definition min_of (l : list Z) : result Z :=
  match l with
  | [] => Err ValueError
  | x :: l' => Ok (fold_left Z.min l' x)
  end.

(** [key in boundaries]: a key of the dictionary, a substring of a string;
    [None] is not a container. *)
Definition in_boundaries (boundaries : PyVal) (key : string) : result bool :=
  match boundaries with
  | PEdges d => Ok (mem key (keys d))
  | PStr s =>
      Ok match String.index 0 key s with Some _ => true | None => false end
  | _ => Err TypeError
  end.

(** [mesh(vertices, elements, boundaries, element_rank, periodic,
    face_format, max_cell_walk)]; [periodic] is given as the names its
    comma-separated string lists. *)
Definition mesh (vertices : VertexTensor) (elements : Elements)
    (boundaries : PyVal) (element_rank : option Z)
    (periodic : option (list string)) (face_format : string)
    (max_cell_walk : PyVal) : result Mesh :=
  _ ← assert (mem "vector" (names (only_type channel (vt_shape vertices))));
  _ ← assert (nonempty (only_type instance (vt_shape vertices)));
  let vdual := as_dual (only_type instance (vt_shape vertices)) in
  let elements :=
    if nonempty (only_type spatial (el_shape elements))
    then CompactSparseTensor (compact_shape (el_shape elements) vdual)
                             (el_rows elements)
    else elements in
  _ ← assert (forallb (fun d => mem (dim_name d) (names (el_shape elements)))
                      vdual);
  element_rank ←
    match element_rank with
    | Some r => Ok r
    | None =>
        size ← get_size (vt_shape vertices) "vector";
        if size =? 2 then Ok 2
        else if size =? 3 then
          min_vertices ←
            min_of (map (fun row => Z.of_nat (length row)) (el_rows elements));
          Ok (if min_vertices <=? 4 then 2 else 3)
        else Err ValueError
    end;
  periodic_dims ←
    match periodic with
    | None => Ok []
    | Some dims =>
        _ ← assert (forallb (fun p => mem p (vt_item_names vertices)) dims);
        _ ← traverse (fun base =>
                        hi ← in_boundaries boundaries (base ++ "+");
                        lo ← (if hi then in_boundaries boundaries (base ++ "-")
                              else Ok false);
                        assert (hi && lo)) dims;
        Ok dims
    end;
  MeshType_call [PGeometry vertices; PElements elements; PInt element_rank;
                 boundaries; PStrs periodic_dims; PStr face_format;
                 max_cell_walk].

(** [s1 & s2]: the dimensions of both, each name once. *)
Definition merge_shapes (s1 s2 : Shape) : Shape :=
  (s1 ++ List.filter (fun d => negb (mem (dim_name d) (names s1))) s2)%list.

Definition non_dual (shape : Shape) : Shape :=
  List.filter (fun d => negb (DimType_eqb (dim_type d) dual)) shape.

(** [Mesh.shape]. *)
Definition mesh_shape (m : Mesh) : Shape :=
  merge_shapes
    (merge_shapes (non_dual (el_shape (elements m)))
                  (only_type channel (vt_shape (vertices m))))
    (only_type batch (vt_shape (vertices m))).

(** [shape.name]: only a shape of one dimension has one. *)
Definition shape_name (shape : Shape) : result string :=
  match shape with
  | [d] => Ok (dim_name d)
  | _ => Err AssertionError
  end.

(** *** Scaling *)

(** [a < b] as the builtin [min] and [max] evaluate it. Between a tensor
    and a function object neither operand defines the comparison, which
    raises [TypeError]. *)
Definition py_less (a b : PyVal) : result bool :=
  match a, b with
  | PInt x, PInt y => Ok (x <? y)
  | _, _ => Err TypeError
  end.

(** The builtin [min(a, b)]: [b] if [b < a], else [a]. *)
Definition builtin_min (a b : PyVal) : result PyVal :=
  smaller ← py_less b a; Ok (if (smaller : bool) then b else a).

(** The builtin [max(a, b)]: [b] if [b > a], else [a]. *)
Definition builtin_max (a b : PyVal) : result PyVal :=
  larger ← py_less a b; Ok (if (larger : bool) then b else a).

(** [Mesh.bounds]: [Box(min(self.vertices.center, instance),
    max(self.vertices.center, instance))]. The module imports neither [min]
    nor [max] from the tensor library, so these are the builtins, called on
    the tensor of vertex positions and the function [instance]. *)
Definition bounds (m : Mesh) : result (PyVal * PyVal) :=
  lower ← builtin_min (PTensor (vertices m)) (POpaque "instance");
  upper ← builtin_max (PTensor (vertices m)) (POpaque "instance");
  Ok (lower, upper).

(** [box.center] of a box given by its two corners. *)
Definition box_center (box : PyVal * PyVal) : result (list Q) :=
  match box with
  | (PVectors [lower], PVectors [upper]) =>
      Ok (zip_with (fun l u => ((l + u) / 2)%Q) lower upper)
  | _ => Err TypeError
  end.

(** [self.bounds.center]. *)
Definition bounds_center (m : Mesh) : result (list Q) :=
  box ← bounds m; box_center box.

(** Modelled from the spec: [scale] of [phi/geom/_geom.py], a "uniform
    scale about the bounding-box center", here on one position. *)
Definition scale_position (factor : Q) (pivot : list Q) (x : list Q) : list Q :=
  zip_with (fun p c => (p + factor * (c - p))%Q) pivot x.

Definition scale (v : VertexTensor) (factor : Q) (pivot : list Q)
  : VertexTensor :=
  {| vt_shape := vt_shape v; vt_item_names := vt_item_names v;
     vt_data := map (scale_position factor pivot) (vt_data v) |}.

Section Scaled.
(** Attributes of a mesh that are read but not computed here: the private
    caches ([_center], [_volume], ...), which the dataclass does not
    declare, and the face quantities. *)
Variable attr : Mesh -> string -> result PyVal.

(** [Mesh.scaled]. *)
Definition scaled (m : Mesh) (factor : Q) : result Mesh :=
  pivot ← bounds_center m;
  let vertices' := scale (vertices m) factor pivot in
  c ← attr m "_center";
  center ← match c with
           | PVectors l => Ok (PVectors (map (scale_position factor pivot) l))
           | _ => Err TypeError
           end;
  vol ← attr m "_volume";
  volume ← match vol with
           | PNone => Ok PNone
           | PScalars l =>
               match element_rank m with
               | PInt r => Ok (PScalars (map (fun x => (x * factor ^ r)%Q) l))
               | _ => Err TypeError
               end
           | _ => Err TypeError
           end;
  let face_areas := PNone in
  normals ← attr m "_normals";
  face_centers ← attr m "face_centers";
  face_normals ← attr m "face_normals";
  face_vertices ← attr m "face_vertices";
  vertex_normals ← attr m "_vertex_normals";
  vertex_connectivity ← attr m "_vertex_connectivity";
  element_connectivity ← attr m "_element_connectivity";
  max_cell_walk' ← attr m "_max_cell_walk";
  MeshType_call [PGeometry vertices'; PElements (elements m); element_rank m;
                 boundaries m; center; volume; normals; face_centers;
                 face_normals; face_areas; face_vertices; vertex_normals;
                 vertex_connectivity; element_connectivity; max_cell_walk'].

End Scaled.

(** *** Slicing *)

Inductive Selection :=
| SelIndex (i : Z)
| SelSlice (start stop : option Z).

Definition SlicingDict := list (string * Selection).

(** [shape.only(names)]. *)
Definition only (shape : Shape) (dims : list string) : Shape :=
  List.filter (fun d => mem (dim_name d) dims) shape.

(** [slicing_dict(self, item)] of the tensor library on a dict: the
    entries whose key is a dimension of the object's shape are kept, the
    others dropped. *)
Definition slicing_dict (m : Mesh) (item : SlicingDict) : SlicingDict :=
  List.filter (fun '(k, _) => mem k (names (mesh_shape m))) item.

Section Slicing.
(** [getitem_dataclass(self, item, keepdims)] of the tensor library, and
    what it returns. *)
Variable Sliced : Type.
Variable getitem_dataclass : Mesh -> SlicingDict -> list string -> result Sliced.

(** [Mesh.__getitem__] for a slicing dict. *)
Definition Mesh__getitem__ (m : Mesh) (item : SlicingDict) : result Sliced :=
  let item := slicing_dict m item in
  _ ← assert (negb (nonempty
         (only (only_type spatial (el_shape (elements m))) (keys item))));
  _ ← assert (negb (nonempty
         (only (only_type instance (vt_shape (vertices m))) (keys item))));
  name ← shape_name (only_type instance (mesh_shape m));
  getitem_dataclass m item [name; "vector"].

End Slicing.
Arguments Mesh__getitem__ {Sliced} getitem_dataclass m item.

(** A stand-in for [getitem_dataclass] that returns the arguments of the
    call. *)
Definition recorded_call (m : Mesh) (item : SlicingDict)
    (keepdims : list string) : result (SlicingDict * list string) :=
  Ok (item, keepdims).

(** *** Triangle-mesh archives *)

Record Archive := {
  npz_vertices : list (list Q);
  npz_faces : list (list Z);
  npz_f_dim : string;
  npz_vertex_dim : string;
  npz_vector : list string;
  npz_has_extra_data : bool;
  npz_extra : list (string * PyVal)
}.

(** The files of the file system that hold archives. *)
Abbreviation FileSystem := (gmap string Archive).

Fixpoint ends_with_slash_only (s : string) : bool :=
  match s with
  | EmptyString => true
  | String a s' => Ascii.eqb a "/"%char && ends_with_slash_only s'
  end.

(** Everything up to and including the last slash. *)
Fixpoint head_of (s : string) : string :=
  match s with
  | EmptyString => EmptyString
  | String a s' =>
      match head_of s' with
      | EmptyString => if Ascii.eqb a "/"%char then String a EmptyString
                       else EmptyString
      | h => String a h
      end
  end.

Fixpoint rstrip_slash (s : string) : string :=
  match s with
  | String a s' =>
      match rstrip_slash s' with
      | EmptyString => if Ascii.eqb a "/"%char then EmptyString
                       else String a EmptyString
      | r => String a r
      end
  | EmptyString => s
  end.

(** [os.path.dirname]. *)
Definition dirname (p : string) : string :=
  let head := head_of p in
  if ends_with_slash_only head then head else rstrip_slash head.

(** [os.makedirs(name, exist_ok=True)]: there is no directory of the empty
    name to make. *)
Definition makedirs (name : string) : result unit :=
  if String.eqb name "" then Err FileNotFoundError else Ok tt.

Fixpoint ends_with (suffix s : string) : bool :=
  String.eqb suffix s ||
  match s with
  | EmptyString => false
  | String _ s' => ends_with suffix s'
  end.

(** [np.savez] writes to the name it is given, with [.npz] appended unless
    it is there already. *)
Definition npz_path (file : string) : string :=
  if ends_with ".npz" file then file else file ++ ".npz".

(** [reshaped_numpy(t, [instance, 'vector'])]: every dimension of [t] has
    to be in one of the groups. *)
Definition reshaped_vertices (v : VertexTensor) : result (list (list Q)) :=
  _ ← assert (forallb (fun d => DimType_eqb (dim_type d) instance
                                || String.eqb (dim_name d) "vector")
                      (vt_shape v));
  Ok (vt_data v).

Definition save_tri_mesh (fs : FileSystem) (file : string) (m : Mesh)
    (extra_data : list (string * PyVal)) : result FileSystem :=
  v ← reshaped_vertices (vertices m);
  f ← match elements m with
      | CompactSparseTensor _ indices => Ok indices
      | _ => Err NotImplementedError
      end;
  _ ← makedirs (dirname file);
  f_dim ← shape_name (only_type instance (mesh_shape m));
  vertex_dim ← shape_name (only_type instance (vt_shape (vertices m)));
  _ ← (if existsb (fun k => mem k ["vertices"; "faces"; "f_dim"; "vertex_dim";
                                   "vector"; "has_extra_data"])
                  (keys extra_data)
       then Err TypeError else Ok tt);
  Ok (<[npz_path file :=
         {| npz_vertices := v; npz_faces := f; npz_f_dim := f_dim;
            npz_vertex_dim := vertex_dim;
            npz_vector := vt_item_names (vertices m);
            npz_has_extra_data := nonempty extra_data;
            npz_extra := extra_data |}]> fs).

(** The length of the rows of an array; 0 for one without rows. *)
Definition row_length {A} (rows : list (list A)) : Z :=
  match rows with
  | [] => 0
  | r :: _ => Z.of_nat (length r)
  end.

(** An entry of an archive as [data[name]] returns it. *)
Inductive NpzEntry :=
| NpzFloats (a : list (list Q))
| NpzInts (a : list (list Z))
| NpzStr (s : string)
| NpzStrs (l : list string)
| NpzBool (b : bool)
| NpzObject (v : PyVal).

(** [data[name]]: the arrays that [save_tri_mesh] writes under its own
    keys, and the extra data under theirs. *)
Definition npz_getitem (data : Archive) (name : string) : result NpzEntry :=
  if String.eqb name "vertices" then Ok (NpzFloats (npz_vertices data))
  else if String.eqb name "faces" then Ok (NpzInts (npz_faces data))
  else if String.eqb name "f_dim" then Ok (NpzStr (npz_f_dim data))
  else if String.eqb name "vertex_dim" then Ok (NpzStr (npz_vertex_dim data))
  else if String.eqb name "vector" then Ok (NpzStrs (npz_vector data))
  else if String.eqb name "has_extra_data"
       then Ok (NpzBool (npz_has_extra_data data))
  else v ← getitem (npz_extra data) name; Ok (NpzObject v).

Definition load_tri_mesh (fs : FileSystem) (file : string)
    (load_extra : list string) : result (Mesh * list NpzEntry) :=
  data ← match fs !! file with
         | Some a => Ok a
         | None => Err FileNotFoundError
         end;
  let f_dim := npz_f_dim data in
  let vertex_dim := npz_vertex_dim data in
  let vector := npz_vector data in
  let faces :=
    IndexTensor
      [ {| dim_name := f_dim; dim_size := Z.of_nat (length (npz_faces data));
           dim_type := instance |};
        {| dim_name := "vertex_list"; dim_size := row_length (npz_faces data);
           dim_type := spatial |} ]
      (npz_faces data) in
  _ ← (if forallb (fun row => length row =? length vector)%nat
                  (npz_vertices data)
       then Ok tt else Err ValueError);
  let vertices :=
    {| vt_shape :=
         [ {| dim_name := vertex_dim;
              dim_size := Z.of_nat (length (npz_vertices data));
              dim_type := instance |};
           {| dim_name := "vector"; dim_size := Z.of_nat (length vector);
              dim_type := channel |} ];
       vt_item_names := vector;
       vt_data := npz_vertices data |} in
  m ← mesh vertices faces PNone None None "csc" PNone;
  extra ← traverse (npz_getitem data) load_extra;
  Ok (m, extra).

(** *** Obstacle masks of [build_quadrilaterals] (two axes) *)

Abbreviation Grid A := (list (list A)).

(** [x > min_size]. *)
Definition Qgt_bool (x y : Q) : bool := negb (Qle_bool x y).

(** [obstacle.approximate_signed_distance(vert_pos) > min_size]; the
    obstacle is given by its signed distance at a vertex position. *)
Definition active_mask_vert {P} (signed_distance : P -> Q) (vert_pos : Grid P)
    (min_size : Q) : Grid bool :=
  map (map (fun p => Qgt_bool (signed_distance p) min_size)) vert_pos.

Definition pair_sums (l : list Z) : list Z := zip_with Z.add l (tail l).

(** [convolve(mask, ones(2, 2))]: for every cell the number of its corner
    vertices that are set. *)
Definition convolve (mask : Grid bool) : Grid Z :=
  let m := map (map Z.b2z) mask in
  map pair_sums (zip_with (zip_with Z.add) m (tail m)).

Definition obs_mask_cell (active : Grid bool) : Grid bool :=
  map (map (fun n => n =? 0)) (convolve active).

Definition grid_and (a b : Grid bool) : Grid bool :=
  zip_with (zip_with andb) a b.

Definition grid_or (a b : Grid bool) : Grid bool :=
  zip_with (zip_with orb) a b.

Definition grid_any (a : Grid bool) : bool := existsb (existsb id) a.

(** The loop over the obstacles: each one's occupied cells must not
    overlap those of the obstacles before it. *)
Definition full_mask {P} (vert_pos : Grid P) (min_size : Q)
    (obstacles : list (string * (P -> Q))) (empty : Grid bool)
  : result (Grid bool) :=
  fold_left (fun acc '(_, obstacle) =>
               full ← acc;
               let cells :=
                 obs_mask_cell (active_mask_vert obstacle vert_pos min_size) in
               _ ← assert (negb (grid_any (grid_and cells full)));
               Ok (grid_or full cells))
            obstacles (Ok empty).

(** ** A native tensor with two axes, for padding examples *)

Record NativeTensor := {
  axis0 : string;
  axis1 : string;
  values : Grid Q
}.

(** The indices [-lower .. n + upper - 1] of a padded axis of size [n]. *)
Definition padded_indices (lower upper : Z) (n : nat) : list Z :=
  map (fun i => Z.of_nat i - lower)
      (seq 0 (Z.to_nat lower + n + Z.to_nat upper)).

(** Modelled from the spec: the padding primitive of the array backend
    along one axis. A constant extrapolation fills the border with its
    value; a copy extrapolation takes the entry that the border index is
    transformed to ("boundary copies the nearest edge row, periodic copies
    from the opposite edge, wrapping, symmetric mirrors including the edge
    row itself, reflect mirrors excluding the edge row"). *)
Definition pad_axis {A} (s : @Simple Q) (fill : Q -> A) (default : A)
    (lower upper : Z) (l : list A) : list A :=
  let n := length l in
  map (fun i =>
         match s with
         | ConstantExtrapolation c =>
             if (0 <=? i) && (i <? Z.of_nat n)
             then nth (Z.to_nat i) l default else fill c
         | _ =>
             nth (Z.to_nat (simple_transform_coordinates s i (Z.of_nat n)))
                 l default
         end)
      (padded_indices lower upper n).

Definition widths_of (widths : Widths) (ax : string) : Z * Z :=
  match assoc ax widths with Some w => w | None => (0, 0) end.

(** [pad] of a simple extrapolation on a native tensor: the widths are
    ordered by the axes of the tensor, (0, 0) for an axis that is not
    listed. *)
Definition native_pad (s : @Simple Q) (t : NativeTensor) (widths : Widths)
  : result NativeTensor :=
  let '(l0, u0) := widths_of widths (axis0 t) in
  let '(l1, u1) := widths_of widths (axis1 t) in
  let rows := map (pad_axis s (fun c => c) 0%Q l1 u1) (values t) in
  let width := Z.to_nat (row_length rows) in
  Ok {| axis0 := axis0 t; axis1 := axis1 t;
        values := pad_axis s (fun c => repeat c width) [] l0 u0 rows |}.

(** ** Concrete inputs used in the examples *)

Definition dim (name : string) (size : Z) (type : DimType) : Dim :=
  {| dim_name := name; dim_size := size; dim_type := type |}.

(** Periodic along [x], the constant 5 along [y]. *)
Definition example_mixed : @ExtDict Q :=
  [("x", (PERIODIC, PERIODIC));
   ("y", (ConstantExtrapolation 5%Q, ConstantExtrapolation 5%Q))].

Definition example_tensor : NativeTensor :=
  {| axis0 := "x"; axis1 := "y"; values := [[1; 2]; [3; 4]]%Q |}.

Definition example_widths : Widths := [("x", (1, 1)); ("y", (1, 1))].

(** One triangle in the plane. *)
Definition example_vertices : VertexTensor :=
  {| vt_shape := [dim "vertices" 3 instance; dim "vector" 2 channel];
     vt_item_names := ["x"; "y"];
     vt_data := [[0; 0]; [1; 0]; [0; 1]]%Q |}.

Definition example_mesh : Mesh :=
  {| vertices := example_vertices;
     elements :=
       CompactSparseTensor [dim "cells" 1 instance; dim "~vertices" 3 dual]
                           [[0; 1; 2]];
     element_rank := PInt 2;
     boundaries := PNone;
     periodic := PStrs [];
     face_format := PStr "csc";
     max_cell_walk := PNone;
     variable_attrs := ["vertices"];
     value_attrs := [] |}.

(** The same triangle as the legacy constructor takes it, the corners of
    each element listed along a spatial dimension. *)
Definition example_listed_mesh : Mesh :=
  {| vertices := example_vertices;
     elements :=
       IndexTensor [dim "cells" 1 instance; dim "vertex_list" 3 spatial]
                   [[0; 1; 2]];
     element_rank := PInt 2;
     boundaries := PNone;
     periodic := PInt 1;
     face_format := PStrs ["vertices"];
     max_cell_walk := PStrs [];
     variable_attrs := ["vertices"];
     value_attrs := [] |}.

(** The triangle with vertices of four components, as
    [mesh(vertices, elements, element_rank=2)] builds it. *)
Definition example_vertices_4 : VertexTensor :=
  {| vt_shape := [dim "vertices" 3 instance; dim "vector" 4 channel];
     vt_item_names := ["x"; "y"; "z"; "w"];
     vt_data := [[0; 0; 0; 0]; [1; 0; 0; 0]; [0; 1; 0; 0]]%Q |}.

Definition example_mesh_4 : Mesh :=
  {| vertices := example_vertices_4;
     elements :=
       CompactSparseTensor [dim "cells" 1 instance; dim "~vertices" 3 dual]
                           [[0; 1; 2]];
     element_rank := PInt 2;
     boundaries := PNone;
     periodic := PStrs [];
     face_format := PStr "csc";
     max_cell_walk := PNone;
     variable_attrs := ["vertices"];
     value_attrs := [] |}.

(** Cached attributes as the scaling code expects to find them. *)
Definition example_attr (m : Mesh) (name : string) : result PyVal :=
  if String.eqb name "_center" then Ok (PVectors [[1 # 3; 1 # 3]]%Q)
  else if String.eqb name "_volume" then Ok (PScalars [1 # 2]%Q)
  else if String.eqb name "_max_cell_walk" then Ok (PInt 1)
  else Ok (POpaque name).

Definition unit_box : Bounds :=
  [("x", (Some 0%Q, Some 1%Q)); ("y", (Some 0%Q, Some 1%Q))].

(** A disc of radius 1 about the origin of the plane, with
    [x^2 + y^2 - 1] for its approximate signed distance. *)
Definition unit_disc : GeometryImpl :=
  {| g_item_names := ["x"; "y"];
     g_lies_inside := fun loc =>
       x ← getitem loc "x"; y ← getitem loc "y";
       Ok (Qle_bool (x * x + y * y) 1)%Q;
     g_approximate_signed_distance := fun loc =>
       x ← getitem loc "x"; y ← getitem loc "y";
       Ok (x * x + y * y - 1)%Q |}.

(** ** Further parts of [_extrapolation.py] *)

(** The branch of [ConstantExtrapolation.pad] for a sparse linear operation
    over a shape of two dimensions: the row coordinates of the dependency
    matrix are moved to their place in the padded shape. *)
Definition constant_pad_sparse (shape : Shape) (widths : Widths)
    (rows : list Z) : result (list Z * Shape) :=
  match shape with
  | [d0; d1] =>
      wy ← getitem widths (dim_name d0);
      wx ← getitem widths (dim_name d1);
      let '(dy0, dy1) := wy in
      let '(dx0, dx1) := wx in
      let padded_row row :=
        let y := row / dim_size d1 in
        row + dy0 * (dim_size d1 + dx0 + dx1) + dx0 * (y + 1) + dx1 * y in
      Ok (map padded_row rows,
          [ {| dim_name := dim_name d0; dim_size := dim_size d0 + (dy0 + dy1);
               dim_type := dim_type d0 |};
            {| dim_name := dim_name d1; dim_size := dim_size d1 + (dx0 + dx1);
               dim_type := dim_type d1 |} ])
  | _ => Err AssertionError
  end.


(** ** Further parts of [_mesh.py] *)

(** [tuple('xyz'[:n])]. *)
Definition xyz (n : nat) : list string := take n ["x"; "y"; "z"].

Definition all_same_length {A} (rows : list (list A)) : bool :=
  match rows with
  | [] => false
  | r :: rest => forallb (fun r' => (length r' =? length r)%nat) rest
  end.

(** [mesh_from_numpy]: [points] is an array of one row per vertex,
    [polygons] a sequence of vertex index sequences. Stacking the polygons
    needs at least one of them and the same length for all; otherwise a
    sparse matrix is built from the concatenated indices, which also needs
    at least one polygon. *)
Definition mesh_from_numpy (points : list (list Q)) (polygons : list (list Z))
    (boundaries : PyVal) (element_rank : option Z)
    (periodic : option (list string)) (cell_dim : string)
    (face_format : string) : result Mesh :=
  let names_xyz := xyz (Z.to_nat (row_length points)) in
  _ ← (if forallb (fun row => length row =? length names_xyz)%nat points
       then Ok tt else Err ValueError);
  let vertices :=
    {| vt_shape :=
         [ {| dim_name := "vertices";
              dim_size := Z.of_nat (length points); dim_type := instance |};
           {| dim_name := "vector"; dim_size := Z.of_nat (length names_xyz);
              dim_type := channel |} ];
       vt_item_names := names_xyz;
       vt_data := points |} in
  elements ←
    (if all_same_length polygons then
       Ok (IndexTensor
             [ {| dim_name := cell_dim;
                  dim_size := Z.of_nat (length polygons);
                  dim_type := instance |};
               {| dim_name := "vertex_index";
                  dim_size := row_length polygons; dim_type := spatial |} ]
             polygons)
     else
       match polygons with
       | [] => Err ValueError
       | _ =>
           Ok (SparseMatrix
                 [ {| dim_name := cell_dim;
                      dim_size := Z.of_nat (length polygons);
                      dim_type := instance |};
                   {| dim_name := "~vertices";
                      dim_size := Z.of_nat (length points);
                      dim_type := dual |} ]
                 polygons)
       end);
  mesh vertices elements boundaries element_rank periodic face_format PNone.

(** *** Cells and outer boundaries of [build_quadrilaterals]

    For a resolution of [rx] by [ry] cells; [full_mask] marks the cells
    that obstacles occupy. *)

(** [vert_id = range_tensor(resolution + 1)]: the vertices of the grid are
    numbered row by row. *)
Definition vert_id (ry : nat) (i j : nat) : Z := Z.of_nat (i * (ry + 1) + j).

Definition masked (full_mask : Grid bool) (i j : nat) : bool :=
  nth j (nth i full_mask []) false.

(** [nonzero(~full_mask)]: the indices of the free cells, row by row. *)
Definition cell_indices (rx ry : nat) (full_mask : Grid bool)
  : list (nat * nat) :=
  List.filter (fun '(i, j) => negb (masked full_mask i j))
              (list_prod (seq 0 rx) (seq 0 ry)).

(** [stack([c1, c2, c3, c4], dual('polygon'))[cell_indices]]. *)
Definition polygons (rx ry : nat) (full_mask : Grid bool) : list (list Z) :=
  map (fun '(i, j) =>
         [vert_id ry i j; vert_id ry i (j + 1);
          vert_id ry (i + 1) (j + 1); vert_id ry (i + 1) j])
      (cell_indices rx ry full_mask).

(** [all_faces(ids, edge_mask, dim)]: the edges between consecutive vertices
    along a side of the domain whose cell is free. *)
Definition all_faces (ids : list Z) (edge_mask : list bool) : list (Z * Z) :=
  map fst
      (List.filter (fun '(_, m) => negb m)
                   (zip (zip (removelast ids) (tail ids)) edge_mask)).

(** The four outer boundaries, in the order the loop over the dimensions
    adds them. *)
Definition outer_boundaries (d1 d2 : string) (rx ry : nat)
    (full_mask : Grid bool) : list (string * list (Z * Z)) :=
  [ (d1 ++ "-", all_faces (map (vert_id ry 0) (seq 0 (ry + 1)))
                          (map (masked full_mask 0) (seq 0 ry)));
    (d1 ++ "+", all_faces (map (vert_id ry rx) (seq 0 (ry + 1)))
                          (map (masked full_mask (rx - 1)) (seq 0 ry)));
    (d2 ++ "-", all_faces (map (fun i => vert_id ry i 0) (seq 0 (rx + 1)))
                          (map (fun i => masked full_mask i 0) (seq 0 rx)));
    (d2 ++ "+", all_faces (map (fun i => vert_id ry i ry) (seq 0 (rx + 1)))
                          (map (fun i => masked full_mask i (ry - 1))
                               (seq 0 rx))) ].


(** [elements.dtype.kind == int]: a tensor listing vertex indices. *)
Definition is_index_tensor (el : Elements) : bool :=
  match el with IndexTensor _ _ => true | _ => false end.

(** [periodic_dims] of [mesh] when nothing fails. *)
Definition periodic_dims (periodic : option (list string)) : list string :=
  match periodic with Some dims => dims | None => [] end.


(** ** Concrete inputs used in the further examples *)

(** The corners of a tetrahedron. *)
Definition example_tetra_vertices : VertexTensor :=
  {| vt_shape := [dim "vertices" 4 instance; dim "vector" 3 channel];
     vt_item_names := ["x"; "y"; "z"];
     vt_data := [[0; 0; 0]; [1; 0; 0]; [0; 1; 0]; [0; 0; 1]]%Q |}.

Definition example_tetra : Elements :=
  IndexTensor [dim "cells" 1 instance; dim "vertex_list" 4 spatial]
              [[0; 1; 2; 3]].

Definition example_triangle : Elements :=
  IndexTensor [dim "cells" 1 instance; dim "vertex_list" 3 spatial]
              [[0; 1; 2]].

Definition example_extra : list (string * PyVal) :=
  [("step", PInt 7); ("tag", PStr "run")].

(** What saving [example_mesh] with [example_extra] writes. *)
Definition example_archive : Archive :=
  {| npz_vertices := [[0; 0]; [1; 0]; [0; 1]]%Q;
     npz_faces := [[0; 1; 2]];
     npz_f_dim := "cells";
     npz_vertex_dim := "vertices";
     npz_vector := ["x"; "y"];
     npz_has_extra_data := true;
     npz_extra := example_extra |}.

(** Two cells in a row, the second occupied by an obstacle. *)
Definition example_mask : Grid bool := [[false]; [true]].

(** * Properties *)

(** ** Extrapolations *)

Section ExtrapolationFacts.
Context {V : Type} `{TensorValue V}.

Lemma from_dict_to_dict_simple (s : @Simple V) :
  from_dict (to_dict (Single s)) = Ok (Single s).
Proof.
  destruct s as [v | k]; [reflexivity |].
  destruct k; reflexivity.
Qed.

(** C1. Serialising and restoring gives back each of the simple
    extrapolations (constants, periodic, boundary, symmetric, reflect), but
    the record of a mixed extrapolation carries the type tag "mixed", for
    which [from_dict] has no case: restoring it raises [ValueError]. *)
Theorem C1_from_dict_to_dict :
  (forall s : @Simple V, from_dict (to_dict (Single s)) = Ok (Single s))
  /\ (forall ext : @ExtDict V,
        from_dict (to_dict (MixedExtrapolation ext)) = Err ValueError).
Proof.
  split; [apply from_dict_to_dict_simple |].
  intros ext. reflexivity.
Qed.

Lemma no_neg (s : @Simple V) : resolve (class_of s) d_neg = None.
Proof. destruct s as [v | k]; [reflexivity | destruct k; reflexivity]. Qed.

(** C2. The gradient table as the code evaluates it: constants and
    BOUNDARY give ZERO, PERIODIC gives itself, while for SYMMETRIC and
    REFLECT the negation [-self] finds no [__neg__] on any class of the
    hierarchy and raises [TypeError]. *)
Theorem C2_gradient_table :
  (forall v : V, gradient (Single (ConstantExtrapolation v)) = Ok (Single ZERO))
  /\ gradient (Single PERIODIC) = Ok (Single (@PERIODIC V))
  /\ gradient (Single BOUNDARY) = Ok (Single (@ZERO V _))
  /\ gradient (Single SYMMETRIC) = @Err (@Extrapolation V) TypeError
  /\ gradient (Single REFLECT) = @Err (@Extrapolation V) TypeError.
Proof. repeat split. Qed.

Lemma CopyKind_eqb_refl (k : CopyKind) : CopyKind_eqb k k = true.
Proof. destruct k; reflexivity. Qed.

Lemma CopyKind_eqb_eq (k k' : CopyKind) : CopyKind_eqb k k' = true <-> k = k'.
Proof. destruct k, k'; simpl; split; congruence. Qed.

(** C8. A copy extrapolation combined with one of its own type is that
    extrapolation, for each of the four operators. *)
Theorem C8_copy_idempotent (k : CopyKind) (op : BinOp) :
  binop op (Single (@CopyExtrapolation V k)) (Single (CopyExtrapolation k))
  = Ok (Single (CopyExtrapolation k)).
Proof.
  unfold binop, copy_op. now rewrite CopyKind_eqb_refl.
Qed.

(** *** Coordinate transforms of a mixed extrapolation *)

Lemma traverse_ok_lookup {A B} (f : A -> result B) (l : list A) :
  (forall a, In a l -> exists b, f a = Ok b) ->
  exists r, traverse f l = Ok r /\ length r = length l
            /\ forall i a, l !! i = Some a ->
                           exists b, f a = Ok b /\ r !! i = Some b.
Proof.
  induction l as [| x l IH]; intros Hf.
  - exists []. repeat split. intros i a Hi. destruct i; discriminate.
  - destruct (Hf x (or_introl eq_refl)) as [b Hb].
    destruct IH as (r & Hr & Hlen & Hlook).
    { intros a Ha. apply Hf. now right. }
    exists (b :: r). simpl. rewrite Hb. simpl. rewrite Hr. simpl.
    repeat split; [now rewrite Hlen |].
    intros [| i] a Hi; simpl in *.
    + inversion Hi; subst. eauto.
    + now apply Hlook.
Qed.

Lemma zip_lookup {A B} (l1 : list A) (l2 : list B) i a b :
  zip l1 l2 !! i = Some (a, b) <-> l1 !! i = Some a /\ l2 !! i = Some b.
Proof.
  revert l2 i. induction l1 as [| x l1 IH]; intros [| y l2] i; simpl.
  - split; [discriminate | intros [? _]; destruct i; discriminate].
  - split; [discriminate | intros [? _]; destruct i; discriminate].
  - split; [discriminate | intros [_ ?]; destruct i; discriminate].
  - destruct i as [| i]; simpl.
    + split; [intros [= -> ->]; auto | intros [[= ->] [= ->]]; auto].
    + apply IH.
Qed.

Lemma zip_length {A B} (l1 : list A) (l2 : list B) :
  length l1 = length l2 -> length (zip l1 l2) = length l1.
Proof.
  revert l2. induction l1 as [| x l1 IH]; intros [| y l2] E; simpl in *;
    try lia.
  rewrite IH; lia.
Qed.

Lemma In_zip_l {A B} (l1 : list A) (l2 : list B) a b :
  In (a, b) (zip l1 l2) -> In a l1.
Proof.
  revert l2. induction l1 as [| x l1 IH]; intros [| y l2]; simpl;
    try tauto.
  intros [[= -> ->] | Hin]; [now left | right; eauto].
Qed.

Lemma only_type_all (t : DimType) (shape : Shape) :
  Forall (fun d => dim_type d = t) shape -> only_type t shape = shape.
Proof.
  unfold only_type. induction 1 as [| d shape Hd _ IH]; simpl; auto.
  rewrite Hd. destruct t; simpl; now rewrite IH.
Qed.

Lemma assoc_In_keys {A} (k : string) (d : list (string * A)) :
  In k (keys d) -> exists a, assoc k d = Some a.
Proof.
  induction d as [| [k' a] d IH]; simpl; [tauto |].
  intros Hin. destruct (String.eqb k k') eqn:E; [eauto |].
  destruct Hin as [-> | Hin]; [| auto].
  now rewrite String.eqb_refl in E.
Qed.

Lemma transform_coordinates_assert (ext : @ExtDict V) coordinates shape :
  length ext <> length shape \/ length shape <> length coordinates ->
  transform_coordinates ext coordinates shape = Err AssertionError.
Proof.
  intros Hne. unfold transform_coordinates.
  destruct (Z.eqb_spec (Z.of_nat (length ext)) (Z.of_nat (length shape)));
    [| reflexivity].
  destruct (Z.eqb_spec (Z.of_nat (length shape))
                       (Z.of_nat (length coordinates))); [| reflexivity].
  lia.
Qed.

Lemma transform_coordinates_ok (ext : @ExtDict V) coordinates shape :
  length ext = length shape ->
  length shape = length coordinates ->
  Forall (fun d => dim_type d = spatial) shape ->
  Forall (fun d => In (dim_name d) (keys ext)) shape ->
  exists r,
    transform_coordinates ext coordinates shape = Ok r
    /\ length r = length shape
    /\ forall i d c,
         shape !! i = Some d -> coordinates !! i = Some c ->
         exists lo up,
           assoc (dim_name d) ext = Some (lo, up)
           /\ r !! i = Some (axis_transform lo up c (dim_size d)).
Proof.
  intros Hext Hcoords Hspatial Hkeys. unfold transform_coordinates.
  destruct (Z.eqb_spec (Z.of_nat (length ext)) (Z.of_nat (length shape)));
    [| lia].
  destruct (Z.eqb_spec (Z.of_nat (length shape))
                       (Z.of_nat (length coordinates))); [| lia].
  simpl.
  unfold shape_spatial. rewrite (only_type_all _ _ Hspatial).
  match goal with |- context [traverse ?f ?l] =>
    destruct (traverse_ok_lookup f l) as (r & Hr & Hlen & Hlook) end.
  - intros [d c] Hin. apply In_zip_l in Hin.
    rewrite List.Forall_forall in Hkeys.
    destruct (assoc_In_keys _ _ (Hkeys d Hin)) as [[lo up] Ha].
    unfold getitem. rewrite Ha. simpl.
    destruct (simple_eq lo up); eauto.
  - exists r. split; [exact Hr |]. split.
    { rewrite Hlen. now apply zip_length. }
    intros i d c Hd Hc.
    destruct (Hlook i (d, c)) as (b & Hb & Hri).
    { apply zip_lookup. auto. }
    unfold getitem in Hb.
    destruct (assoc (dim_name d) ext) as [[lo up] |] eqn:Ha; [| discriminate].
    exists lo, up. split; [reflexivity |].
    rewrite Hri. f_equal. simpl in Hb. unfold axis_transform.
    destruct (simple_eq lo up); congruence.
Qed.

(** C10 (as amended). [MixedExtrapolation.transform_coordinates] asserts
    that three counts agree: the axes of its policy map, the dimensions of
    the shape and the coordinate components. When they agree, the shape
    has only spatial dimensions and each of them is an axis of the map,
    every axis is transformed by its own lower/upper policy and no error
    is raised. *)
Theorem C10_transform_coordinates
    (ext : @ExtDict V) (coordinates : list Z) (shape : Shape) :
  (length ext <> length shape \/ length shape <> length coordinates ->
   transform_coordinates ext coordinates shape = Err AssertionError)
  /\ (length ext = length shape ->
      length shape = length coordinates ->
      Forall (fun d => dim_type d = spatial) shape ->
      Forall (fun d => In (dim_name d) (keys ext)) shape ->
      exists r,
        transform_coordinates ext coordinates shape = Ok r
        /\ length r = length shape
        /\ forall i d c,
             shape !! i = Some d -> coordinates !! i = Some c ->
             exists lo up,
               assoc (dim_name d) ext = Some (lo, up)
               /\ r !! i = Some (axis_transform lo up c (dim_size d))).
Proof.
  split.
  - apply transform_coordinates_assert.
  - apply transform_coordinates_ok.
Qed.

(** *** The schedule of a mixed pad *)

Lemma insert_by_rank_perm (e : @Simple V) l :
  Permutation (insert_by_rank e l) (e :: l).
Proof.
  induction l as [| x l IH]; simpl; [reflexivity |].
  destruct (pad_rank e <=? pad_rank x); [reflexivity |].
  rewrite IH. apply perm_swap.
Qed.

Lemma sorted_by_rank_perm (l : list (@Simple V)) :
  Permutation (sorted_by_rank l) l.
Proof.
  induction l as [| x l IH]; simpl; [reflexivity |].
  rewrite insert_by_rank_perm. now constructor.
Qed.

Lemma insert_by_rank_sorted (e : @Simple V) l :
  StronglySorted rank_le l -> StronglySorted rank_le (insert_by_rank e l).
Proof.
  induction 1 as [| x l Hs IH Hx]; simpl.
  - repeat constructor.
  - destruct (Z.leb_spec (pad_rank e) (pad_rank x)) as [Hle | Hlt].
    + constructor; [now constructor |].
      constructor; [exact Hle |].
      eapply List.Forall_impl; [| exact Hx].
      unfold rank_le. intros; lia.
    + constructor; [exact IH |].
      rewrite List.Forall_forall in *. intros y Hy.
      apply (Permutation_in _ (insert_by_rank_perm e l)) in Hy.
      destruct Hy as [<- | Hy]; [unfold rank_le; lia | auto].
Qed.

Lemma sorted_by_rank_sorted (l : list (@Simple V)) :
  StronglySorted rank_le (sorted_by_rank l).
Proof.
  induction l as [| x l IH]; simpl; [constructor |].
  now apply insert_by_rank_sorted.
Qed.

(** What the set built from a list holds, for any set to start from. *)
Lemma set_fold_sound (l s : list (@Simple V)) e :
  In e (fold_left (fun s e => set_add e s) l s) -> In e s \/ In e l.
Proof.
  revert s. induction l as [| x l IH]; intros s; simpl; [auto |].
  intros Hin. apply IH in Hin. destruct Hin as [Hin | Hin]; [| auto].
  unfold set_add in Hin. destruct (existsb _ s); [auto |].
  apply in_app_or in Hin. simpl in Hin. tauto.
Qed.

Lemma set_fold_keeps (l s : list (@Simple V)) e :
  In e s -> In e (fold_left (fun s e => set_add e s) l s).
Proof.
  revert s. induction l as [| x l IH]; intros s Hin; simpl; [exact Hin |].
  apply IH. unfold set_add. destruct (existsb _ s); [exact Hin |].
  apply in_or_app. now left.
Qed.

Lemma set_fold_complete (l s : list (@Simple V)) e :
  In e l ->
  exists e', In e' (fold_left (fun s e => set_add e s) l s)
             /\ (e' = e \/ simple_eq e' e = true).
Proof.
  revert s. induction l as [| x l IH]; intros s; simpl; [tauto |].
  intros [-> | Hin]; [| now apply IH].
  unfold set_add. destruct (existsb _ s) eqn:E.
  - apply existsb_exists in E. destruct E as (e' & He' & Heq).
    exists e'. split; [now apply set_fold_keeps | now right].
  - exists e. split; [| now left].
    apply set_fold_keeps, in_or_app. right. now left.
Qed.

Lemma ForallOrdPairs_snoc {A} (R : A -> A -> Prop) (s : list A) (e : A) :
  ForallOrdPairs R s -> Forall (fun x => R x e) s ->
  ForallOrdPairs R (s ++ [e]).
Proof.
  induction 1 as [| x s Hx Hs IH]; intros Hall; simpl.
  - repeat constructor.
  - apply List.Forall_cons_iff in Hall. destruct Hall as [Hxe Hall].
    constructor; [| auto].
    apply List.Forall_app. split; [exact Hx | now constructor].
Qed.

Lemma set_fold_apart (l s : list (@Simple V)) :
  ForallOrdPairs kept_apart s ->
  ForallOrdPairs kept_apart (fold_left (fun s e => set_add e s) l s).
Proof.
  revert s. induction l as [| x l IH]; intros s Hs; simpl; [exact Hs |].
  apply IH. unfold set_add. destruct (existsb _ s) eqn:E; [exact Hs |].
  apply ForallOrdPairs_snoc; [exact Hs |].
  apply List.Forall_forall. intros y Hy. left.
  destruct (simple_eq y x) eqn:Eyx; [| reflexivity].
  assert (existsb (fun x0 => simple_eq x0 x) s = true) as Habs.
  { apply existsb_exists. eauto. }
  congruence.
Qed.

Lemma kept_apart_perm (l l' : list (@Simple V)) :
  Permutation l l' ->
  ForallOrdPairs kept_apart l -> ForallOrdPairs kept_apart l'.
Proof.
  induction 1 as [| x l l' Hp IH | x y l | l l' l'' _ IH1 _ IH2];
    intros Hl; auto.
  - inversion Hl; subst. constructor; [| auto].
    eapply Permutation_Forall; eauto.
  - inversion Hl as [| ? ? Hy Hxl]; subst.
    inversion Hxl as [| ? ? Hx Hll]; subst.
    apply List.Forall_cons_iff in Hy. destruct Hy as [Hyx Hy].
    constructor; [| now constructor].
    constructor; [| exact Hx].
    unfold kept_apart in *. tauto.
Qed.

Lemma ext_widths_owned (ext : @ExtDict V) (e : Simple) (widths : Widths) :
  (forall ax, In ax (keys widths) -> In ax (keys ext)) ->
  ext_widths ext e widths = Ok (owned_widths ext e widths).
Proof.
  unfold ext_widths, owned_widths.
  induction widths as [| [ax [l u]] widths IH]; intros Hkeys; simpl;
    [reflexivity |].
  destruct (assoc_In_keys ax ext) as [es Hes].
  { apply Hkeys. now left. }
  rewrite IH by (intros ax' Hax'; apply Hkeys; now right).
  unfold getitem, owns_lower, owns_upper. rewrite Hes. reflexivity.
Qed.

Section MixedPadFacts.
Variable Tensor : Type.
Variable simple_pad : @Simple V -> Tensor -> Widths -> result Tensor.
Variable set_iter : list (@Simple V) -> list (@Simple V).
Hypothesis set_iter_perm : forall l, Permutation (set_iter l) l.

Lemma extrapolations_perm (ext : @ExtDict V) :
  Permutation (extrapolations set_iter ext) (set_of (members ext)).
Proof.
  unfold extrapolations. rewrite sorted_by_rank_perm. apply set_iter_perm.
Qed.

Lemma pad_schedule (ext : @ExtDict V) (widths : Widths) schedule acc :
  (forall ax, In ax (keys widths) -> In ax (keys ext)) ->
  fold_left (pad_step Tensor simple_pad ext widths) schedule acc
  = fold_left (fun acc e =>
                 v ← acc; simple_pad e v (owned_widths ext e widths))
              schedule acc.
Proof.
  intros Hkeys. revert acc.
  induction schedule as [| e schedule IH]; intros acc; simpl; [reflexivity |].
  rewrite IH. f_equal. unfold pad_step.
  rewrite (ext_widths_owned ext e widths Hkeys). reflexivity.
Qed.

(** The set of the policies of a periodic axis and a constant axis, in
    whatever order it is iterated, is scheduled periodic first. *)
Lemma extrapolations_periodic_constant (x y : string) (c : V) :
  close c c = true ->
  extrapolations set_iter
    [(x, (PERIODIC, PERIODIC));
     (y, (ConstantExtrapolation c, ConstantExtrapolation c))]
  = [PERIODIC; ConstantExtrapolation c].
Proof.
  intros Hc. unfold extrapolations, set_of, members, set_add. simpl.
  rewrite Hc. simpl.
  pose proof (set_iter_perm [PERIODIC; ConstantExtrapolation c]) as Hp.
  apply Permutation_sym, Permutation_length_2_inv in Hp.
  destruct Hp as [-> | ->]; reflexivity.
Qed.

(** C3. For widths over the axes of a mixed extrapolation, [pad] runs the
    policies of a schedule that is in ascending [pad_rank] order and
    consists of the distinct member policies, each policy padding with the
    widths of the slots it occupies and 0 elsewhere. For one axis with
    PERIODIC and one with a constant this is the periodic pad of the first
    axis alone followed by the constant pad of the second axis alone. *)
Theorem C3_mixed_pad_schedule
    (ext : @ExtDict V) (value : Tensor) (widths : Widths) :
  (forall ax, In ax (keys widths) -> In ax (keys ext)) ->
  let schedule := extrapolations set_iter ext in
  StronglySorted (fun a b => pad_rank a <= pad_rank b) schedule
  /\ (forall e, In e schedule -> In e (members ext))
  /\ (forall e, In e (members ext) ->
        exists e', In e' schedule /\ (e' = e \/ simple_eq e' e = true))
  /\ ForallOrdPairs kept_apart schedule
  /\ (forall e ax l u,
        In e schedule -> In (ax, (l, u)) widths ->
        exists w, ext_widths ext e widths = Ok w
          /\ In (ax, (if owns_lower ext ax e then l else 0,
                      if owns_upper ext ax e then u else 0)) w)
  /\ mixed_pad Tensor simple_pad set_iter ext value widths
     = spec_pad Tensor simple_pad ext widths schedule value
  /\ (forall x y c wx wy,
        x <> y -> close c c = true ->
        mixed_pad Tensor simple_pad set_iter
          [(x, (PERIODIC, PERIODIC));
           (y, (ConstantExtrapolation c, ConstantExtrapolation c))]
          value [(x, wx); (y, wy)]
        = v ← simple_pad PERIODIC value [(x, wx); (y, (0, 0))];
          simple_pad (ConstantExtrapolation c) v [(x, (0, 0)); (y, wy)]).
Proof.
  intros Hkeys schedule.
  pose proof (extrapolations_perm ext) as Hperm. fold schedule in Hperm.
  split; [apply sorted_by_rank_sorted |].
  split.
  { intros e He. apply (Permutation_in _ Hperm) in He.
    apply set_fold_sound in He. simpl in He. tauto. }
  split.
  { intros e He.
    destruct (set_fold_complete (members ext) [] e He) as (e' & He' & Heq).
    exists e'. split; [| exact Heq].
    apply (Permutation_in _ (Permutation_sym Hperm)). exact He'. }
  split.
  { apply (kept_apart_perm _ _ (Permutation_sym Hperm)).
    apply set_fold_apart. constructor. }
  split.
  { intros e ax l u _ Hin. exists (owned_widths ext e widths).
    split; [now apply ext_widths_owned |].
    unfold owned_widths. apply in_map_iff. exists (ax, (l, u)). now split. }
  split.
  { unfold mixed_pad, spec_pad. now apply pad_schedule. }
  intros x y c [lx ux] [ly uy] Hxy Hc.
  unfold mixed_pad. rewrite (extrapolations_periodic_constant x y c Hc).
  assert (String.eqb y x = false) as Eyx.
  { apply String.eqb_neq. congruence. }
  simpl. unfold pad_step, ext_widths, getitem. simpl.
  rewrite !String.eqb_refl, Eyx. simpl. rewrite Hc. simpl.
  reflexivity.
Qed.

End MixedPadFacts.

End ExtrapolationFacts.

(** ** Embedded geometries *)

Lemma mem_In (x : string) (l : list string) : mem x l = true <-> In x l.
Proof.
  unfold mem. rewrite existsb_exists. split.
  - intros (y & Hy & E). apply String.eqb_eq in E. now subst.
  - intros Hin. exists x. split; [exact Hin | apply String.eqb_refl].
Qed.

Lemma mem_not_In (x : string) (l : list string) : mem x l = false <-> ~ In x l.
Proof.
  rewrite <- mem_In. destruct (mem x l); split; congruence.
Qed.

Lemma assoc_filter {A} (P : string -> bool) (k : string)
    (d : list (string * A)) :
  P k = true ->
  assoc k (List.filter (fun '(n, _) => P n) d) = assoc k d.
Proof.
  intros HP. induction d as [| [k' a] d IH]; simpl; [reflexivity |].
  destruct (String.eqb_spec k k') as [<- | Hne].
  - rewrite HP. simpl. now rewrite String.eqb_refl.
  - destruct (P k'); simpl; [| exact IH].
    destruct (String.eqb_spec k k') as [E | _]; [now elim Hne | exact IH].
Qed.

Lemma traverse_ext {A B} (f g : A -> result B) (l : list A) :
  (forall a, In a l -> f a = g a) -> traverse f l = traverse g l.
Proof.
  induction l as [| x l IH]; intros Hfg; simpl; [reflexivity |].
  rewrite Hfg by now left. rewrite IH; [reflexivity |].
  intros a Ha. apply Hfg. now right.
Qed.

Lemma traverse_app {A B} (f : A -> result B) (l1 l2 : list A) :
  traverse f (l1 ++ l2)
  = r1 ← traverse f l1; r2 ← traverse f l2; Ok (r1 ++ r2)%list.
Proof.
  induction l1 as [| x l1 IH]; simpl.
  - destruct (traverse f l2); reflexivity.
  - destruct (f x); simpl; [| reflexivity].
    rewrite IH. destruct (traverse f l1); simpl; [| reflexivity].
    destruct (traverse f l2); reflexivity.
Qed.

(** Containment in a box once the location is known to be a point of its
    space. *)
Lemma box_lies_inside_axes (box : Bounds) (loc : Location) :
  (forall k, In k (keys loc) -> In k (keys box)) ->
  box_lies_inside box loc
  = inside ← traverse (fun '(ax, (lo, up)) =>
                         x ← getitem loc ax;
                         Ok (Qle_opt_lower lo x && Qle_opt_upper x up)) box;
    Ok (forallb id inside).
Proof.
  intros Hkeys. unfold box_lies_inside.
  assert (forallb (fun n => mem n (keys box)) (keys loc) = true) as ->;
    [| reflexivity].
  apply forallb_forall. intros k Hk. apply mem_In. auto.
Qed.

Lemma box_lies_inside_foreign (box : Bounds) (loc : Location) (k : string) :
  In k (keys loc) -> ~ In k (keys box) ->
  box_lies_inside box loc = Err ValueError.
Proof.
  intros Hk Hbox. unfold box_lies_inside.
  assert (forallb (fun n => mem n (keys box)) (keys loc) = false) as ->;
    [| reflexivity].
  apply not_true_is_false. intros Hall. rewrite forallb_forall in Hall.
  apply Hbox, mem_In. auto.
Qed.

Lemma keys_box_product_In (box : Bounds) (z k : string) :
  In k (keys (box_product box [z])) <-> In k (keys box) \/ k = z.
Proof.
  unfold box_product, keys. rewrite map_app, in_app_iff. simpl.
  intuition congruence.
Qed.

Lemma keys_project (dims : list string) (loc : Location) (k : string) :
  In k (keys (project dims loc)) <-> In k (keys loc) /\ In k dims.
Proof.
  unfold project, keys. rewrite !in_map_iff. split.
  - intros ([n x] & <- & Hin). apply filter_In in Hin.
    destruct Hin as [Hin Hmem]. apply mem_In in Hmem.
    split; [exists (n, x); auto | exact Hmem].
  - intros (([n x] & <- & Hin) & Hd). exists (n, x). split; [reflexivity |].
    apply filter_In. split; [exact Hin | now apply mem_In].
Qed.

Lemma box_lies_inside_unbounded (box : Bounds) (z : string) (loc : Location) :
  (forall k, In k (keys loc) <-> In k (keys box) \/ k = z) ->
  box_lies_inside (box_product box [z]) loc
  = box_lies_inside box (project (keys box) loc).
Proof.
  intros Hkeys.
  rewrite box_lies_inside_axes
    by (intros k Hk; apply keys_box_product_In, Hkeys, Hk).
  rewrite box_lies_inside_axes
    by (intros k Hk; now apply keys_project in Hk).
  unfold box_product. rewrite traverse_app.
  assert (traverse (fun '(ax, (lo, up)) =>
                      x ← getitem (project (keys box) loc) ax;
                      Ok (Qle_opt_lower lo x && Qle_opt_upper x up)) box
          = traverse (fun '(ax, (lo, up)) =>
                        x ← getitem loc ax;
                        Ok (Qle_opt_lower lo x && Qle_opt_upper x up)) box)
    as ->.
  { apply traverse_ext. intros [ax [lo up]] Hin.
    unfold getitem, project. rewrite assoc_filter; [reflexivity |].
    apply mem_In. unfold keys. apply in_map_iff. now exists (ax, (lo, up)). }
  destruct (traverse _ box) as [inside |]; simpl; [| reflexivity].
  assert (In z (keys loc)) as Hz by (apply Hkeys; now right).
  destruct (assoc_In_keys z loc Hz) as [zv Hzv].
  unfold getitem. rewrite Hzv. simpl.
  rewrite forallb_app. simpl. now rewrite !andb_true_r.
Qed.

Lemma traverse_Ok {A B} (f : A -> result B) (l : list A) :
  (forall a, In a l -> exists b, f a = Ok b) ->
  exists bs, traverse f l = Ok bs.
Proof.
  induction l as [| a l IH]; intros Hf; simpl; [eauto |].
  destruct (Hf a (or_introl eq_refl)) as (b & ->).
  destruct IH as (bs & ->); [intros x Hx; apply Hf; now right |].
  simpl. eauto.
Qed.

(** A box answers for every point of its space. *)
Lemma box_lies_inside_Ok (box : Bounds) (loc : Location) :
  (forall k, In k (keys loc) <-> In k (keys box)) ->
  exists b, box_lies_inside box loc = Ok b.
Proof.
  intros Hkeys. rewrite box_lies_inside_axes by (intros k; apply Hkeys).
  destruct (traverse_Ok
              (fun '(ax, (lo, up)) =>
                 x ← getitem loc ax;
                 Ok (Qle_opt_lower lo x && Qle_opt_upper x up)) box)
    as (inside & ->); [| simpl; eauto].
  intros [ax [lo up]] Hin.
  assert (In ax (keys loc)) as Hax.
  { apply Hkeys. unfold keys. apply in_map_iff. now exists (ax, (lo, up)). }
  destruct (assoc_In_keys ax loc Hax) as (x & Hx).
  unfold getitem. rewrite Hx. simpl. eauto.
Qed.

Lemma embed_box (box : Bounds) (p : ProjectedDims) (z : string) :
  parse_dim_order p = [z] -> ~ In z (keys box) ->
  embed (BaseBox box) p = BaseBox (box_product box [z]).
Proof.
  intros Hp Hz. unfold embed.
  destruct p; [discriminate | |]; rewrite Hp; simpl;
    apply mem_not_In in Hz; rewrite Hz; reflexivity.
Qed.

(** Removing one name from a list without repetitions. *)
Lemma list_remove_filter (x : string) (l : list string) :
  List.NoDup l -> In x l ->
  list_remove x l = Ok (List.filter (fun n => negb (String.eqb n x)) l).
Proof.
  induction 1 as [| y l Hy Hl IH]; simpl; [tauto |].
  destruct (String.eqb_spec y x) as [-> | Hne]; simpl.
  - intros _. f_equal. symmetry. apply forallb_filter_id.
    apply forallb_forall. intros n Hn.
    destruct (String.eqb_spec n x) as [E | _]; [| reflexivity].
    rewrite E in Hn. now elim Hy.
  - intros [E | Hin]; [now elim Hne |]. now rewrite IH.
Qed.

Lemma filter_twice {A} (P Q : A -> bool) (l : list A) :
  List.filter P (List.filter Q l) = List.filter (fun x => Q x && P x) l.
Proof.
  induction l as [| x l IH]; simpl; [reflexivity |].
  destruct (Q x); simpl; [| exact IH].
  destruct (P x); now rewrite IH.
Qed.

Lemma remove_all (dims l : list string) :
  List.NoDup l -> List.NoDup dims -> (forall a, In a dims -> In a l) ->
  fold_left (fun acc dim => l ← acc; list_remove dim l) dims (Ok l)
  = Ok (List.filter (fun n => negb (mem n dims)) l).
Proof.
  revert l. induction dims as [| a dims IH]; intros l Hl Hdims Hin; simpl.
  - f_equal. symmetry. apply forallb_filter_id. now apply forallb_forall.
  - inversion Hdims as [| ? ? Ha Hdims']; subst.
    rewrite list_remove_filter by auto using in_eq.
    rewrite IH.
    + f_equal. rewrite filter_twice. apply List.filter_ext. intros n.
      simpl. now destruct (String.eqb n a), (mem n dims).
    + now apply List.NoDup_filter.
    + exact Hdims'.
    + intros b Hb. apply filter_In. split; [apply Hin; now right |].
      destruct (String.eqb_spec b a) as [E | _]; [| reflexivity].
      rewrite E in Hb. now elim Ha.
Qed.

Lemma down_project_names (g : Geometry) (axes : list string) acc :
  fold_left (fun acc dim =>
               l ← acc;
               if negb (mem dim (item_names g)) then list_remove dim l
               else Ok l) axes acc
  = fold_left (fun acc dim => l ← acc; list_remove dim l)
              (new_axes g axes) acc.
Proof.
  revert acc. unfold new_axes.
  induction axes as [| a axes IH]; intros acc; simpl; [reflexivity |].
  rewrite IH. destruct (negb (mem a (item_names g))); simpl; [reflexivity |].
  destruct acc; reflexivity.
Qed.

Lemma select_filter (P : string -> bool) (loc : Location) :
  List.NoDup (keys loc) ->
  select loc (List.filter P (keys loc))
  = Ok (List.filter (fun '(n, _) => P n) loc).
Proof.
  unfold select.
  induction loc as [| [k v] loc IH]; simpl; intros Hnd; [reflexivity |].
  inversion Hnd as [| ? ? Hk Hnd']; subst.
  assert (traverse (fun n => v0 ← getitem ((k, v) :: loc) n; Ok (n, v0))
                   (List.filter P (keys loc))
          = traverse (fun n => v0 ← getitem loc n; Ok (n, v0))
                     (List.filter P (keys loc))) as Htail.
  { apply traverse_ext. intros n Hn. apply filter_In in Hn.
    unfold getitem. simpl.
    destruct (String.eqb_spec n k); [subst; tauto | reflexivity]. }
  destruct (P k); simpl.
  - assert (getitem ((k, v) :: loc) k = Ok v) as Hg.
    { unfold getitem. cbn [assoc]. now rewrite String.eqb_refl. }
    rewrite Hg, Htail, IH by assumption. reflexivity.
  - rewrite Htail. now apply IH.
Qed.

Lemma down_project_drop (g : Geometry) (axes : list string) (loc : Location) :
  List.NoDup (keys loc) ->
  List.NoDup (new_axes g axes) ->
  (forall a, In a (new_axes g axes) -> In a (keys loc)) ->
  down_project g axes loc = Ok (drop_axes (new_axes g axes) loc).
Proof.
  intros Hloc Hnew Hin. unfold down_project.
  rewrite down_project_names, remove_all by assumption. simpl.
  now apply select_filter.
Qed.

Section TransformFacts.
Variable box_approximate_signed_distance : Bounds -> Location -> result Q.


End TransformFacts.

(** ** Meshes *)

(** *** Obstacle masks *)

Lemma lookup_map {A B} (f : A -> B) (l : list A) (i : nat) :
  map f l !! i = f <$> l !! i.
Proof.
  revert i. induction l as [| x l IH]; intros [| i]; simpl; auto.
Qed.

Lemma lookup_pair_sums (l : list Z) (j : nat) (x y : Z) :
  l !! j = Some x -> l !! S j = Some y -> pair_sums l !! j = Some (x + y).
Proof.
  intros Hx Hy. unfold pair_sums.
  rewrite lookup_zip_with, Hx. simpl. rewrite lookup_tail, Hy. reflexivity.
Qed.

Lemma lookup_convolve (mask : Grid bool) (i j : nat) r0 r1 a b c d :
  mask !! i = Some r0 -> mask !! S i = Some r1 ->
  r0 !! j = Some a -> r0 !! S j = Some b ->
  r1 !! j = Some c -> r1 !! S j = Some d ->
  exists row,
    convolve mask !! i = Some row
    /\ row !! j = Some ((Z.b2z a + Z.b2z c) + (Z.b2z b + Z.b2z d)).
Proof.
  intros H0 H1 Ha Hb Hc Hd. unfold convolve. cbv zeta.
  rewrite lookup_map, lookup_zip_with, lookup_tail, !lookup_map, H0, H1.
  simpl. eexists. split; [reflexivity |].
  apply lookup_pair_sums; rewrite lookup_zip_with, !lookup_map.
  - now rewrite Ha, Hc.
  - now rewrite Hb, Hd.
Qed.

(** C4 (as amended). In [build_quadrilaterals], whose parameter
    [min_size] is, a grid vertex is active exactly when the obstacle's
    signed distance there exceeds [min_size]; a cell is marked
    obstacle-occupied exactly when none of its four corner vertices is
    active, that is, when the signed distance is at most [min_size] at all
    four. *)
Theorem C4_obstacle_mask {P} (signed_distance : P -> Q) (vert_pos : Grid P)
    (min_size : Q) (i j : nat) (r0 r1 : list P) (a b c d : P) :
  vert_pos !! i = Some r0 -> vert_pos !! S i = Some r1 ->
  r0 !! j = Some a -> r0 !! S j = Some b ->
  r1 !! j = Some c -> r1 !! S j = Some d ->
  let active p := Qgt_bool (signed_distance p) min_size in
  (exists row,
      active_mask_vert signed_distance vert_pos min_size !! i = Some row
      /\ row !! j = Some (active a))
  /\ (exists row,
        obs_mask_cell (active_mask_vert signed_distance vert_pos min_size) !! i
        = Some row
        /\ row !! j
           = Some (negb (active a) && negb (active b)
                   && negb (active c) && negb (active d))
        /\ (row !! j = Some true
            <-> (signed_distance a <= min_size /\ signed_distance b <= min_size
                 /\ signed_distance c <= min_size
                 /\ signed_distance d <= min_size)%Q)).
Proof.
  intros H0 H1 Ha Hb Hc Hd active.
  split.
  - unfold active_mask_vert. rewrite lookup_map, H0. simpl.
    eexists. split; [reflexivity |]. now rewrite lookup_map, Ha.
  - destruct (lookup_convolve
                (active_mask_vert signed_distance vert_pos min_size) i j
                (map active r0) (map active r1)
                (active a) (active b) (active c) (active d))
      as (row & Hrow & Hj).
    1-2: unfold active_mask_vert; rewrite lookup_map;
         first [rewrite H0 | rewrite H1]; reflexivity.
    1-4: rewrite lookup_map;
         first [rewrite Ha | rewrite Hb | rewrite Hc | rewrite Hd];
         reflexivity.
    unfold obs_mask_cell. rewrite lookup_map, Hrow. simpl.
    eexists. split; [reflexivity |].
    assert (forall p, negb (active p) = true
                      <-> (signed_distance p <= min_size)%Q) as Hact.
    { intros p. unfold active, Qgt_bool. rewrite negb_involutive.
      apply Qle_bool_iff. }
    assert ((fun n : Z => n =? 0) <$> row !! j
            = Some (negb (active a) && negb (active b)
                    && negb (active c) && negb (active d))) as Hcell.
    { rewrite Hj. simpl. f_equal.
      now destruct (active a), (active b), (active c), (active d). }
    rewrite lookup_map. split; [exact Hcell |].
    rewrite Hcell. rewrite <- !Hact. split.
    + intros [= E]. rewrite !andb_true_iff in E. tauto.
    + intros (Ea & Eb & Ec & Ed). now rewrite Ea, Eb, Ec, Ed.
Qed.

(** *** Scaling *)

Section ScaledFacts.
Variable attr : Mesh -> string -> result PyVal.

(** The constructor takes at most seven positional arguments. *)
Lemma MeshType_call_arity (a1 a2 a3 a4 a5 a6 a7 a8 : PyVal) (rest : list PyVal) :
  MeshType_call (a1 :: a2 :: a3 :: a4 :: a5 :: a6 :: a7 :: a8 :: rest)
  = Err TypeError.
Proof. reflexivity. Qed.

(** C6. [Mesh.scaled] returns no mesh, whatever the cached attributes
    hold. It starts from [self.bounds], where the builtin [min] compares a
    tensor with a function and raises; and it ends by handing fifteen
    positional arguments to the constructor of [Mesh], which takes at most
    seven. *)
Theorem C6_scaled_raises (m : Mesh) (factor : Q) :
  exists e, scaled attr m factor = Err e.
Proof.
  unfold scaled.
  repeat match goal with
         | |- context [MeshType_call _] => rewrite MeshType_call_arity
         | |- exists e, Err _ = Err e => eexists; reflexivity
         | |- exists e, (?x ≫= _) = Err e => destruct x; simpl
         | |- context [match ?x with _ => _ end] => destruct x; simpl
         end.
Qed.

End ScaledFacts.

(** *** Slicing *)

Lemma only_type_other (t t' : DimType) (shape : Shape) :
  DimType_eqb t' t = false ->
  Forall (fun d => dim_type d = t') shape -> only_type t shape = [].
Proof.
  intros Hne. unfold only_type.
  induction 1 as [| d shape Hd _ IH]; simpl; [reflexivity |].
  now rewrite Hd, Hne.
Qed.

Lemma only_type_Forall (t : DimType) (shape : Shape) :
  Forall (fun d => dim_type d = t) (only_type t shape).
Proof.
  apply List.Forall_forall. intros d Hd. apply filter_In in Hd.
  destruct Hd as [_ Hd]. now destruct (dim_type d), t.
Qed.

Lemma Forall_filter_keep {A} (P : A -> Prop) (f : A -> bool) (l : list A) :
  Forall P l -> Forall P (List.filter f l).
Proof.
  rewrite !List.Forall_forall. intros HP x Hx.
  apply filter_In in Hx. now apply HP.
Qed.

Lemma only_type_app (t : DimType) (s1 s2 : Shape) :
  only_type t (s1 ++ s2)%list = (only_type t s1 ++ only_type t s2)%list.
Proof. apply List.filter_app. Qed.

Lemma only_type_non_dual (shape : Shape) :
  only_type instance (non_dual shape) = only_type instance shape.
Proof.
  unfold only_type, non_dual. rewrite filter_twice.
  apply List.filter_ext. intros d. now destruct (dim_type d).
Qed.

(** The instance dimensions of a mesh are those of its elements. *)
Lemma mesh_shape_instance (m : Mesh) :
  only_type instance (mesh_shape m)
  = only_type instance (el_shape (elements m)).
Proof.
  unfold mesh_shape, merge_shapes. rewrite !only_type_app.
  rewrite only_type_non_dual.
  match goal with
  | |- context [only_type instance (List.filter ?f (only_type channel ?s))] =>
      rewrite (only_type_other instance channel
                 (List.filter f (only_type channel s)))
        by (try reflexivity; apply Forall_filter_keep, only_type_Forall)
  end.
  match goal with
  | |- context [only_type instance (List.filter ?f (only_type batch ?s))] =>
      rewrite (only_type_other instance batch
                 (List.filter f (only_type batch s)))
        by (try reflexivity; apply Forall_filter_keep, only_type_Forall)
  end.
  now rewrite !app_nil_r.
Qed.

Lemma only_nonempty (shape : Shape) (dims : list string) (d : Dim) :
  In d shape -> In (dim_name d) dims -> nonempty (only shape dims) = true.
Proof.
  intros Hd Hn.
  assert (In d (only shape dims)) as Hin.
  { apply filter_In. split; [exact Hd | now apply mem_In]. }
  now destruct (only shape dims).
Qed.

Lemma keys_slicing_dict (m : Mesh) (item : SlicingDict) (k : string) :
  In k (keys (slicing_dict m item))
  <-> In k (keys item) /\ In k (names (mesh_shape m)).
Proof.
  unfold slicing_dict, keys. rewrite !in_map_iff. split.
  - intros ([n x] & <- & Hin). apply filter_In in Hin.
    destruct Hin as [Hin Hmem]. apply mem_In in Hmem.
    split; [exists (n, x); auto | exact Hmem].
  - intros (([n x] & <- & Hin) & Hd). exists (n, x). split; [reflexivity |].
    apply filter_In. split; [exact Hin | now apply mem_In].
Qed.

Lemma only_empty (shape : Shape) (dims : list string) :
  (forall d, In d shape -> ~ In (dim_name d) dims) -> only shape dims = [].
Proof.
  intros Hno. unfold only. induction shape as [| d shape IH]; [reflexivity |].
  simpl. destruct (mem (dim_name d) dims) eqn:E.
  - apply mem_In in E. elim (Hno d (or_introl eq_refl) E).
  - apply IH. intros d' Hd'. apply Hno. now right.
Qed.

(** The spatial dimensions of the elements are dimensions of the mesh. *)
Lemma mesh_shape_spatial (m : Mesh) (d : Dim) :
  In d (only_type spatial (el_shape (elements m))) ->
  In (dim_name d) (names (mesh_shape m)).
Proof.
  intros Hd. apply filter_In in Hd. destruct Hd as [Hd Ht].
  unfold names. apply in_map. unfold mesh_shape, merge_shapes.
  apply in_or_app. left. apply in_or_app. left.
  apply filter_In. split; [exact Hd |]. now destruct (dim_type d).
Qed.

Section SlicingFacts.
Variable Sliced : Type.
Variable getitem_dataclass : Mesh -> SlicingDict -> list string -> result Sliced.


End SlicingFacts.

Lemma min_of_nonempty (l : list Z) : l <> [] -> exists n, min_of l = Ok n.
Proof. destruct l; [congruence | simpl; eauto]. Qed.

Lemma forallb_row_length (rows : list (list Q)) (n : nat) :
  Forall (fun row => length row = n) rows ->
  forallb (fun row => (length row =? n)%nat) rows = true.
Proof.
  intros Hrows. apply forallb_forall. intros row Hrow.
  rewrite List.Forall_forall in Hrows. apply Nat.eqb_eq. auto.
Qed.

(** The mesh that [mesh] builds from the arrays of an archive. *)
Lemma mesh_of_arrays (f_dim vertex_dim : string) (vector : list string)
    (coords : list (list Q)) (faces : list (list Z)) :
  vertex_dim <> "vector" ->
  length vector = 2%nat \/ (length vector = 3%nat /\ faces <> []) ->
  exists m shape,
    mesh {| vt_shape :=
              [ {| dim_name := vertex_dim;
                   dim_size := Z.of_nat (length coords);
                   dim_type := instance |};
                {| dim_name := "vector";
                   dim_size := Z.of_nat (length vector);
                   dim_type := channel |} ];
            vt_item_names := vector;
            vt_data := coords |}
         (IndexTensor
            [ {| dim_name := f_dim; dim_size := Z.of_nat (length faces);
                 dim_type := instance |};
              {| dim_name := "vertex_list"; dim_size := row_length faces;
                 dim_type := spatial |} ]
            faces)
         PNone None None "csc" PNone = Ok m
    /\ vt_data (vertices m) = coords
    /\ vt_item_names (vertices m) = vector
    /\ names (vt_shape (vertices m)) = [vertex_dim; "vector"]
    /\ elements m = CompactSparseTensor shape faces
    /\ names shape = [f_dim; "~" ++ vertex_dim]
    /\ map dim_type shape = [instance; dual].
Proof.
  intros Hv Hlen.
  apply String.eqb_neq in Hv.
  unfold mesh. cbn -[String.eqb min_of Z.of_nat].
  rewrite !String.eqb_refl, !orb_true_r.
  unfold get_size. cbn -[String.eqb min_of Z.of_nat].
  rewrite Hv, String.eqb_refl. cbn -[String.eqb min_of Z.of_nat].
  destruct Hlen as [-> | [-> Hfaces]]; cbn -[String.eqb min_of].
  - eexists; eexists; (split; [reflexivity |]); cbn; repeat split.
  - destruct (min_of_nonempty
                (map (fun row => Z.of_nat (length row)) faces)) as [n Hn].
    { destruct faces; [congruence | discriminate]. }
    rewrite Hn. cbn.
    eexists; eexists; (split; [reflexivity |]); cbn; repeat split.
Qed.

(** With another number of components than two or three, [mesh] cannot
    infer the rank of the elements of an archive. *)
Lemma mesh_of_arrays_rank (f_dim vertex_dim : string) (vector : list string)
    (coords : list (list Q)) (faces : list (list Z)) :
  vertex_dim <> "vector" ->
  length vector <> 2%nat -> length vector <> 3%nat ->
  mesh {| vt_shape :=
            [ {| dim_name := vertex_dim;
                 dim_size := Z.of_nat (length coords);
                 dim_type := instance |};
              {| dim_name := "vector";
                 dim_size := Z.of_nat (length vector);
                 dim_type := channel |} ];
          vt_item_names := vector;
          vt_data := coords |}
       (IndexTensor
          [ {| dim_name := f_dim; dim_size := Z.of_nat (length faces);
               dim_type := instance |};
            {| dim_name := "vertex_list"; dim_size := row_length faces;
               dim_type := spatial |} ]
          faces)
       PNone None None "csc" PNone = Err ValueError.
Proof.
  intros Hv H2 H3.
  apply String.eqb_neq in Hv.
  unfold mesh. cbn -[String.eqb min_of Z.of_nat].
  rewrite !String.eqb_refl, !orb_true_r.
  unfold get_size. cbn -[String.eqb min_of Z.of_nat].
  rewrite Hv, String.eqb_refl. cbn -[String.eqb min_of Z.of_nat].
  destruct (Z.eqb_spec (Z.of_nat (length vector)) 2); [lia |].
  destruct (Z.eqb_spec (Z.of_nat (length vector)) 3); [lia |].
  reflexivity.
Qed.


(** ** Examples *)

(** C1, at a mixed extrapolation: the record cannot be restored. *)
Example from_dict_mixed_example :
  from_dict (to_dict (MixedExtrapolation example_mixed)) = Err ValueError.
Proof. reflexivity. Qed.

(** C2, at SYMMETRIC over the rationals. *)
Example gradient_symmetric_example :
  gradient (Single (@SYMMETRIC Q)) = Err TypeError.
Proof. reflexivity. Qed.

(** The schedule theorem at the periodic/constant example, padded on a
    native tensor with the set iterated in insertion order. *)
Lemma C3_witness :
  (forall ax, In ax (keys example_widths) -> In ax (keys example_mixed))
  /\ mixed_pad NativeTensor native_pad (fun l => l)
       example_mixed example_tensor example_widths
     = spec_pad NativeTensor native_pad example_mixed example_widths
         (extrapolations (fun l => l) example_mixed) example_tensor.
Proof.
  assert (forall ax, In ax (keys example_widths) -> In ax (keys example_mixed))
    as Hkeys by (simpl; tauto).
  split; [exact Hkeys |].
  destruct (C3_mixed_pad_schedule NativeTensor native_pad (fun l => l)
              (fun l => Permutation_refl l)
              example_mixed example_tensor example_widths Hkeys)
    as (_ & _ & _ & _ & _ & Hpad & _).
  exact Hpad.
Defined.

(** The padded example: periodic copies along [x], the constant 5 along
    [y], the same as padding [x] periodically and then [y] with 5. *)
Example mixed_pad_example :
  mixed_pad NativeTensor native_pad (fun l => l)
    example_mixed example_tensor example_widths
  = Ok {| axis0 := "x"; axis1 := "y";
          values := [[5; 3; 4; 5]; [5; 1; 2; 5];
                     [5; 3; 4; 5]; [5; 1; 2; 5]]%Q |}
  /\ (v ← native_pad PERIODIC example_tensor [("x", (1, 1)); ("y", (0, 0))];
      native_pad (ConstantExtrapolation 5%Q) v [("x", (0, 0)); ("y", (1, 1))])
     = mixed_pad NativeTensor native_pad (fun l => l)
         example_mixed example_tensor example_widths.
Proof. split; reflexivity. Qed.

(** C10 as stated fails: a policy map over [x], [y], [z] does not match
    the spatial dimensions [x], [y] of a shape with a batch dimension, yet
    the three counts agree and the call returns; and with equal counts but
    a spatial dimension [z] that the map does not list, the lookup raises
    [KeyError] after the assertion has passed. *)
Lemma C10_counterexample :
  let ext : @ExtDict Q :=
    [("x", (PERIODIC, PERIODIC)); ("y", (BOUNDARY, BOUNDARY));
     ("z", (PERIODIC, PERIODIC))] in
  let shape := [dim "b" 1 batch; dim "x" 4 spatial; dim "y" 4 spatial] in
  keys ext <> names (shape_spatial shape)
  /\ transform_coordinates ext [5; 7; 0] shape = Ok [1; 3]
  /\ transform_coordinates (V := Q)
       [("x", (PERIODIC, PERIODIC)); ("y", (BOUNDARY, BOUNDARY))]
       [5; 7] [dim "x" 4 spatial; dim "z" 4 spatial]
     = Err KeyError.
Proof. repeat split. discriminate. Qed.

Lemma C10_witness :
  let ext : @ExtDict Q := [("x", (SYMMETRIC, REFLECT))] in
  let shape := [dim "x" 4 spatial] in
  transform_coordinates ext [5; 7] shape = Err AssertionError
  /\ exists r,
       transform_coordinates ext [-1] shape = Ok r
       /\ length r = length shape
       /\ forall i d c,
            shape !! i = Some d -> [-1] !! i = Some c ->
            exists lo up,
              assoc (dim_name d) ext = Some (lo, up)
              /\ r !! i = Some (axis_transform lo up c (dim_size d)).
Proof.
  intros ext shape. split.
  - apply (proj1 (C10_transform_coordinates ext [5; 7] shape)).
    right. discriminate.
  - apply (proj2 (C10_transform_coordinates ext [-1] shape));
      try reflexivity.
    + repeat constructor.
    + repeat constructor.
Defined.

(** C4 as stated fails: at every corner of the single cell the signed
    distance 1 exceeds [min_size] = 1/2, yet the cell is not marked
    occupied. *)
Lemma C4_counterexample :
  let signed_distance := fun p : Q => p in
  let vert_pos := [[1; 1]; [1; 1]]%Q in
  let min_size := (1 # 2)%Q in
  (forall row p, In row vert_pos -> In p row ->
     Qgt_bool (signed_distance p) min_size = true)
  /\ obs_mask_cell (active_mask_vert signed_distance vert_pos min_size)
     = [[false]].
Proof.
  repeat split.
  intros row p [<- | [<- | []]] [<- | [<- | []]]; reflexivity.
Qed.

Lemma C4_witness :
  let signed_distance := fun p : Q => p in
  let vert_pos := [[0; 0; 1]; [0; 0; 1]]%Q in
  let min_size := (1 # 2)%Q in
  let active p := Qgt_bool (signed_distance p) min_size in
  exists row,
    obs_mask_cell (active_mask_vert signed_distance vert_pos min_size) !! 0%nat
    = Some row
    /\ row !! 0%nat
       = Some (negb (active 0%Q) && negb (active 0%Q)
               && negb (active 0%Q) && negb (active 0%Q))
    /\ (row !! 0%nat = Some true
        <-> (signed_distance 0 <= min_size /\ signed_distance 0 <= min_size
             /\ signed_distance 0 <= min_size
             /\ signed_distance 0 <= min_size)%Q).
Proof.
  intros signed_distance vert_pos min_size active.
  apply (proj2
           (C4_obstacle_mask signed_distance vert_pos min_size 0 0
              [0; 0; 1]%Q [0; 0; 1]%Q 0%Q 0%Q 0%Q 0%Q
              eq_refl eq_refl eq_refl eq_refl eq_refl eq_refl)).
Defined.



Example embed_box_example (z : Q) :
  lies_inside (embed (BaseBox unit_box) (DimsStr "z"))
              [("x", 1 # 2); ("y", 3 # 2); ("z", z)]%Q = Ok false
  /\ lies_inside (embed (BaseBox unit_box) (DimsStr "z"))
                 [("x", 1 # 2); ("y", 1 # 2); ("z", z)]%Q = Ok true.
Proof. split; reflexivity. Qed.

(** C6, at the triangle scaled by 2 with all caches present. *)
Example scaled_example :
  scaled example_attr example_mesh 2 = Err TypeError.
Proof. reflexivity. Qed.





(** * Further properties *)

(** ** Coordinate transforms *)

Section TransformCoordinatesFacts.
Context {V : Type} `{TensorValue V}.

Lemma py_mod_bound (a b : Z) : 0 < b -> 0 <= py_mod a b < b.
Proof.
  intros Hb. unfold py_mod.
  destruct (Z.eqb_spec b 0); [lia | now apply Z.mod_pos_bound].
Qed.

Lemma py_mod_small (a b : Z) : 0 <= a < b -> py_mod a b = a.
Proof.
  intros Hab. unfold py_mod.
  destruct (Z.eqb_spec b 0); [lia | now apply Z.mod_small].
Qed.

Lemma py_mod_add (a k b : Z) : py_mod (a + k * b) b = py_mod a b.
Proof.
  unfold py_mod. destruct (Z.eqb_spec b 0); [reflexivity |].
  now apply Z.mod_add.
Qed.

Lemma simple_transform_in_range (s : @Simple V) (c size : Z) :
  0 < size ->
  0 <= simple_transform_coordinates s c size < size.
Proof.
  intros Hsize. destruct s as [v | []]; simpl; try lia.
  - now apply py_mod_bound.
  - pose proof (py_mod_bound c (2 * size)) as Hm.
    assert (0 <= 2 * size - 1 - Z.abs (2 * size - 1 - 2 * py_mod c (2 * size))
            < 2 * size) as Hn by lia.
    split.
    + apply Z.div_pos; lia.
    + apply Z.div_lt_upper_bound; lia.
  - destruct (Z.eq_dec size 1) as [-> | Hne]; [unfold py_mod; simpl; lia |].
    pose proof (py_mod_bound c (2 * size - 2)) as Hm. lia.
Qed.

(** X1. Along an axis with at least one entry, every simple extrapolation
    transforms any integer coordinate to a valid index of the axis. *)
Theorem transform_coordinates_in_range (s : @Simple V) (c size : Z) :
  0 < size ->
  0 <= simple_transform_coordinates s c size < size.
Proof. apply simple_transform_in_range. Qed.

(** X2. A coordinate that already is a valid index is left where it is, by
    every simple extrapolation; so transforming twice is transforming
    once. *)
Theorem transform_coordinates_fixes_indices (s : @Simple V) (c size : Z) :
  (0 <= c < size -> simple_transform_coordinates s c size = c)
  /\ (0 < size ->
      simple_transform_coordinates s
        (simple_transform_coordinates s c size) size
      = simple_transform_coordinates s c size).
Proof.
  assert (forall c, 0 <= c < size ->
                    simple_transform_coordinates s c size = c) as Hfix.
  { clear c. intros c Hc. destruct s as [v | []]; simpl; try lia.
    - apply py_mod_small. lia.
    - rewrite py_mod_small by lia.
      replace (2 * size - 1 - Z.abs (2 * size - 1 - 2 * c)) with (c * 2)
        by lia.
      apply Z.div_mul. lia.
    - destruct (Z.eq_dec size 1) as [-> | Hne].
      + assert (c = 0) as -> by lia. reflexivity.
      + rewrite py_mod_small by lia. lia. }
  split; [apply Hfix |].
  intros Hsize. apply Hfix. now apply simple_transform_in_range.
Qed.

(** X3. The periodic, symmetric and reflect transforms repeat: moving a
    coordinate by any multiple of the axis size, of twice the size, and of
    twice the size less two, respectively, does not change the index. *)
Theorem transform_coordinates_periodic (c n size : Z) :
  simple_transform_coordinates (@PERIODIC V) (c + n * size) size
  = simple_transform_coordinates (@PERIODIC V) c size
  /\ simple_transform_coordinates (@SYMMETRIC V)
       (c + n * (2 * size)) size
     = simple_transform_coordinates (@SYMMETRIC V) c size
  /\ simple_transform_coordinates (@REFLECT V)
       (c + n * (2 * size - 2)) size
     = simple_transform_coordinates (@REFLECT V) c size.
Proof.
  repeat split; simpl; now rewrite py_mod_add.
Qed.

Lemma py_mod_opp_pred (c b : Z) :
  0 < b -> py_mod (- 1 - c) b = b - 1 - py_mod c b.
Proof.
  intros Hb. unfold py_mod. destruct (Z.eqb_spec b 0); [lia |].
  pose proof (Z.mod_pos_bound c b Hb) as Hm.
  symmetry. apply (Z.mod_unique_pos _ _ (- (c / b) - 1)); [lia |].
  pose proof (Z.div_mod c b) as Hd. lia.
Qed.

Lemma py_mod_opp (c b : Z) :
  0 < b ->
  py_mod (- c) b = if py_mod c b =? 0 then 0 else b - py_mod c b.
Proof.
  intros Hb. unfold py_mod. destruct (Z.eqb_spec b 0); [lia |].
  pose proof (Z.mod_pos_bound c b Hb) as Hm.
  pose proof (Z.div_mod c b) as Hd.
  destruct (Z.eqb_spec (c mod b) 0) as [E | E]; symmetry.
  - apply (Z.mod_unique_pos _ _ (- (c / b))); lia.
  - apply (Z.mod_unique_pos _ _ (- (c / b) - 1)); lia.
Qed.

(** X4. The symmetric transform mirrors about the edge with the edge entry
    repeated, index [-1 - c] meeting index [c]; the reflect transform
    mirrors about the edge entry itself, index [- c] meeting index [c]. *)
Theorem transform_coordinates_mirror (c size : Z) :
  0 < size ->
  simple_transform_coordinates (@SYMMETRIC V) (- 1 - c) size
  = simple_transform_coordinates (@SYMMETRIC V) c size
  /\ simple_transform_coordinates (@REFLECT V) (- c) size
     = simple_transform_coordinates (@REFLECT V) c size.
Proof.
  intros Hsize. split; simpl.
  - rewrite py_mod_opp_pred by lia.
    pose proof (py_mod_bound c (2 * size)) as Hm. f_equal. lia.
  - destruct (Z.eq_dec size 1) as [-> | Hne]; [reflexivity |].
    rewrite py_mod_opp by lia.
    pose proof (py_mod_bound c (2 * size - 2)) as Hm.
    destruct (Z.eqb_spec (py_mod c (2 * size - 2)) 0) as [E | E]; lia.
Qed.

Lemma axis_transform_in_range (lo up : @Simple V) (c size : Z) :
  0 < size -> 0 <= axis_transform lo up c size < size.
Proof.
  intros Hsize. unfold axis_transform.
  destruct (simple_eq lo up); [| destruct (c <=? 0)];
    now apply simple_transform_in_range.
Qed.

(** X5. When a mixed extrapolation transforms the coordinates of a shape
    of non-empty spatial axes that it covers, it returns one valid index
    for every axis. *)
Theorem mixed_transform_coordinates_in_range
    (ext : @ExtDict V) (coordinates : list Z) (shape : Shape) :
  length ext = length shape ->
  length shape = length coordinates ->
  Forall (fun d => dim_type d = spatial /\ 0 < dim_size d) shape ->
  Forall (fun d => In (dim_name d) (keys ext)) shape ->
  exists r,
    transform_coordinates ext coordinates shape = Ok r
    /\ length r = length shape
    /\ forall i d x,
         shape !! i = Some d -> r !! i = Some x -> 0 <= x < dim_size d.
Proof.
  intros Hext Hcoords Hshape Hkeys.
  destruct (transform_coordinates_ok ext coordinates shape Hext Hcoords)
    as (r & Hr & Hlen & Hlook); [| exact Hkeys |].
  { eapply List.Forall_impl; [| exact Hshape]. simpl. tauto. }
  exists r. split; [exact Hr |]. split; [exact Hlen |].
  intros i d x Hd Hx.
  destruct (coordinates !! i) as [c |] eqn:Hc.
  - destruct (Hlook i d c Hd Hc) as (lo & up & _ & Hri).
    rewrite Hri in Hx. injection Hx as <-.
    apply axis_transform_in_range.
    rewrite List.Forall_forall in Hshape.
    apply (Hshape d). apply list_elem_of_In.
    eapply list_elem_of_lookup_2. exact Hd.
  - apply lookup_ge_None in Hc. apply lookup_lt_Some in Hd. lia.
Qed.

End TransformCoordinatesFacts.

(** ** Algebra, gradient and serialisation *)

Section AlgebraFacts.
Context {V : Type} `{TensorValue V}.

(** X6. Two copy extrapolations of different types do not combine: each
    of the four operators raises [IncompatibleExtrapolations]. *)
Theorem copy_mismatch_incompatible (k k' : CopyKind) (op : BinOp) :
  k <> k' ->
  binop op (Single (@CopyExtrapolation V k)) (Single (CopyExtrapolation k'))
  = Err IncompatibleExtrapolations.
Proof.
  intros Hk. unfold binop, copy_op.
  destruct (CopyKind_eqb k' k) eqn:E; [| reflexivity].
  apply CopyKind_eqb_eq in E. congruence.
Qed.

Lemma traverse_keys {A B} (f : string * A -> result (string * B))
    (d : list (string * A)) (r : list (string * B)) :
  (forall ax a y, f (ax, a) = Ok y -> fst y = ax) ->
  traverse f d = Ok r -> keys r = keys d.
Proof.
  intros Hf. revert r.
  induction d as [| [ax a] d IH]; intros r; simpl.
  - now intros [= <-].
  - destruct (f (ax, a)) as [y |] eqn:Hy; simpl; [| discriminate].
    destruct (traverse f d) as [ys |]; simpl; [| discriminate].
    intros [= <-]. simpl. rewrite (Hf _ _ _ Hy). f_equal. now apply IH.
Qed.

Lemma op2_keys (ext : @ExtDict V) (other : Extrapolation) (op : BinOp) r :
  op2 ext other op = Ok r ->
  exists ext', r = MixedExtrapolation ext' /\ keys ext' = keys ext.
Proof.
  unfold op2. destruct other as [s | ext2].
  - destruct (traverse _ ext) as [l |] eqn:Hl; simpl; [| discriminate].
    intros [= <-]. exists l. split; [reflexivity |].
    eapply traverse_keys; [| exact Hl].
    intros ax [lo hi] y. simpl.
    destruct (simple_binop op lo s); simpl; [| discriminate].
    destruct (simple_binop op hi s); simpl; [| discriminate].
    now intros [= <-].
  - destruct (keys_eq ext ext2); [| discriminate].
    destruct (traverse _ ext) as [l |] eqn:Hl; simpl; [| discriminate].
    intros [= <-]. exists l. split; [reflexivity |].
    eapply traverse_keys; [| exact Hl].
    intros ax [lo hi] y. simpl.
    destruct (getitem ext2 ax); simpl; [| discriminate].
    destruct (simple_binop op lo _); simpl; [| discriminate].
    destruct (simple_binop op hi _); simpl; [| discriminate].
    now intros [= <-].
Qed.

(** X7. Whatever a mixed extrapolation is combined with, a result is again
    a mixed extrapolation over the same axes in the same order. *)
Theorem mixed_binop_keeps_axes
    (ext : @ExtDict V) (other : Extrapolation) (op : BinOp) (r : Extrapolation) :
  binop op (MixedExtrapolation ext) other = Ok r ->
  exists ext', r = MixedExtrapolation ext' /\ keys ext' = keys ext.
Proof.
  destruct op; simpl; try apply op2_keys.
  destruct other as [[w | k] | ext2]; simpl; try discriminate.
  - unfold Constant__rtruediv__. simpl.
    destruct (is_one w); [| discriminate].
    intros [= <-]. eauto.
  - destruct k; discriminate.
Qed.

Lemma keys_eq_true {A B} (d1 : list (string * A)) (d2 : list (string * B)) :
  keys_eq d1 d2 = true ->
  forall k, In k (keys d1) <-> In k (keys d2).
Proof.
  unfold keys_eq. intros Hk k. apply andb_prop in Hk. destruct Hk as [H1 H2].
  rewrite forallb_forall in H1, H2. split; intros Hin.
  - apply (mem_In k (keys d2)). now apply H1.
  - apply (mem_In k (keys d1)). now apply H2.
Qed.

(** X8. Two mixed extrapolations are only added, subtracted or multiplied
    when they have the same axes: otherwise the assertion fails. And a
    mixed extrapolation cannot be divided by a mixed or a copy
    extrapolation at all: there is no division method to call. *)
Theorem mixed_binop_guards (ext ext' : @ExtDict V) (op : BinOp) :
  (op <> Div ->
   (exists k, ~ (In k (keys ext) <-> In k (keys ext'))) ->
   binop op (MixedExtrapolation ext) (MixedExtrapolation ext')
   = Err AssertionError)
  /\ binop Div (MixedExtrapolation ext) (MixedExtrapolation ext')
     = Err TypeError
  /\ (forall k, binop Div (MixedExtrapolation ext)
                  (Single (CopyExtrapolation k)) = Err TypeError).
Proof.
  split; [| split; [reflexivity | intros []; reflexivity]].
  intros Hop [k Hk].
  assert (keys_eq ext ext' = false) as Hne.
  { destruct (keys_eq ext ext') eqn:E; [| reflexivity].
    elim Hk. now apply keys_eq_true. }
  destruct op; try (now elim Hop);
    cbn -[keys_eq]; now rewrite Hne.
Qed.

(** X9. Zero and one are neutral for a copy extrapolation: adding the zero
    constant on either side, subtracting it, multiplying by the one
    constant on either side and dividing by it give the copy
    extrapolation back. *)
Theorem copy_neutral_constants (k : CopyKind) :
  close (tensor 0) (tensor 0) = true ->
  close (tensor 1) (tensor 1) = true ->
  let e := Single (@CopyExtrapolation V k) in
  binop Add (Single ZERO) e = Ok e
  /\ binop Add e (Single ZERO) = Ok e
  /\ binop Sub e (Single ZERO) = Ok e
  /\ binop Mul (Single ONE) e = Ok e
  /\ binop Mul e (Single ONE) = Ok e
  /\ binop Div e (Single ONE) = Ok e.
Proof.
  intros H0 H1 e. unfold e, binop, copy_op, constant_call. simpl.
  unfold Constant__add__, Constant__rsub__, Constant__mul__,
    Constant__rtruediv__, is_zero, is_one. simpl.
  rewrite H0, H1. repeat split.
Qed.

(** X10. A constant that is neither zero nor one does not combine with a
    copy extrapolation, in either order and under any operator. *)
Theorem constant_copy_incompatible (v : V) (k : CopyKind) (op : BinOp) :
  close v (tensor 0) = false ->
  close v (tensor 1) = false ->
  binop op (Single (ConstantExtrapolation v)) (Single (CopyExtrapolation k))
  = Err IncompatibleExtrapolations
  /\ binop op (Single (CopyExtrapolation k)) (Single (ConstantExtrapolation v))
     = Err IncompatibleExtrapolations.
Proof.
  intros H0 H1. unfold binop, copy_op, constant_call.
  destruct op; simpl;
    unfold Constant__add__, Constant__sub__, Constant__rsub__,
      Constant__mul__, Constant__truediv__, Constant__rtruediv__,
      is_zero, is_one; simpl; rewrite ?H0, ?H1; split; reflexivity.
Qed.

Lemma simple_gradient_fixed (s g : @Simple V) :
  simple_gradient s = Ok g -> simple_gradient g = Ok g.
Proof.
  destruct s as [v | []]; simpl; try discriminate; now intros [= <-].
Qed.

Lemma traverse_gradient_fixed (ext l : @ExtDict V) :
  traverse (fun '(ax, (lo, up)) =>
              glo ← simple_gradient lo;
              gup ← simple_gradient up;
              Ok (ax, (glo, gup))) ext = Ok l ->
  traverse (fun '(ax, (lo, up)) =>
              glo ← simple_gradient lo;
              gup ← simple_gradient up;
              Ok (ax, (glo, gup))) l = Ok l
  /\ keys l = keys ext.
Proof.
  revert l. induction ext as [| [ax [lo up]] ext IH]; intros l; simpl.
  - now intros [= <-].
  - destruct (simple_gradient lo) as [glo |] eqn:Hlo; simpl; [| discriminate].
    destruct (simple_gradient up) as [gup |] eqn:Hup; simpl; [| discriminate].
    destruct (traverse _ ext) as [l' |]; simpl; [| discriminate].
    intros [= <-]. destruct (IH l' eq_refl) as [IH1 IH2]. simpl.
    rewrite (simple_gradient_fixed _ _ Hlo), (simple_gradient_fixed _ _ Hup).
    simpl. rewrite IH1. simpl. split; [reflexivity | now rewrite IH2].
Qed.

(** X11. A gradient extrapolation is its own gradient: whenever
    [gradient] returns, applying it again returns the same extrapolation;
    for a mixed extrapolation the axes stay as they are. *)
Theorem gradient_fixed (e g : @Extrapolation V) :
  gradient e = Ok g ->
  gradient g = Ok g
  /\ (forall ext, e = MixedExtrapolation ext ->
        exists ext', g = MixedExtrapolation ext' /\ keys ext' = keys ext).
Proof.
  destruct e as [s | ext]; simpl.
  - destruct (simple_gradient s) as [gs |] eqn:Hs; simpl; [| discriminate].
    intros [= <-]. simpl. rewrite (simple_gradient_fixed _ _ Hs).
    split; [reflexivity | discriminate].
  - destruct (traverse _ ext) as [l |] eqn:Hl; simpl; [| discriminate].
    intros [= <-]. destruct (traverse_gradient_fixed ext l Hl) as [H1 H2].
    simpl. rewrite H1. split; [reflexivity |].
    intros ext0 [= <-]. eauto.
Qed.

(** X12. The gradient of a mixed extrapolation raises [TypeError] exactly
    when one of its sides is symmetric or reflect. *)
Theorem mixed_gradient_raises (ext : @ExtDict V) :
  (exists s, In s (members ext)
             /\ (s = SYMMETRIC \/ s = REFLECT))
  <-> gradient (MixedExtrapolation ext) = Err TypeError.
Proof.
  simpl. induction ext as [| [ax [lo up]] ext IH]; simpl.
  - split; [intros (s & [] & _) | discriminate].
  - split.
    + intros (s & [<- | [<- | Hin]] & Hs).
      * destruct Hs as [-> | ->]; reflexivity.
      * destruct lo as [v | []]; simpl; try reflexivity;
          destruct Hs as [-> | ->]; reflexivity.
      * assert (MixedExtrapolation <$>
                  traverse (fun '(ax, (lo, up)) =>
                              glo ← simple_gradient lo;
                              gup ← simple_gradient up;
                              Ok (ax, (glo, gup))) ext
                = @Err (@Extrapolation V) TypeError) as Hrec
          by (apply IH; eauto).
        destruct (traverse _ ext) as [l |]; simpl in Hrec; [discriminate |].
        destruct lo as [v | []]; simpl; try reflexivity;
          destruct up as [w | []]; simpl; try reflexivity; exact Hrec.
    + intros Hg.
      destruct lo as [v | []]; simpl in Hg;
        try (exists SYMMETRIC; split; [now left | now left]);
        try (exists REFLECT; split; [now left | now right]);
        destruct up as [w | []]; simpl in Hg;
        try (exists SYMMETRIC; split; [right; now left | now left]);
        try (exists REFLECT; split; [right; now left | now right]);
        (destruct (traverse _ ext) as [l |] eqn:Hl; simpl in Hg;
         [discriminate |];
         destruct IH as [_ IH]; destruct IH as (s & Hin & Hs);
         [simpl; exact Hg | exists s; split; [right; right; exact Hin | exact Hs]]).
Qed.

End AlgebraFacts.

Section SerialisationFacts.
Context {V : Type} `{TensorValue V}.

Lemma is_type_eq (j : Json V) (name : string) :
  is_type j name = true -> j = JStr name.
Proof.
  destruct j; simpl; try discriminate.
  intros E. apply String.eqb_eq in E. now subst.
Qed.

(** X13. [from_dict] only ever returns a simple extrapolation, and only
    from a record that holds every entry of the record this extrapolation
    serialises to: the type tag, and the value of a constant. *)
Theorem from_dict_sound (j : Json V) (e : Extrapolation) :
  from_dict j = Ok e ->
  exists d s,
    j = JDict d /\ e = Single s
    /\ exists entries,
         to_dict e = JDict entries
         /\ forall k x, In (k, x) entries -> getitem d k = Ok x.
Proof.
  destruct j as [| | | d]; simpl; try discriminate.
  destruct (getitem d "type") as [etype |] eqn:Ht; simpl; [| discriminate].
  destruct (is_type etype "constant") eqn:E1.
  { apply is_type_eq in E1. subst etype.
    destruct (getitem d "value") as [[| v | |] |] eqn:Hv; simpl;
      try discriminate.
    intros [= <-]. exists d, (ConstantExtrapolation v).
    repeat split. eexists. split; [reflexivity |].
    intros k x [[= <- <-] | [[= <- <-] | []]]; assumption. }
  destruct (is_type etype "periodic") eqn:E2;
    [| destruct (is_type etype "boundary") eqn:E3;
       [| destruct (is_type etype "symmetric") eqn:E4;
          [| destruct (is_type etype "reflect") eqn:E5; [| discriminate]]]];
    match goal with
    | E : is_type etype _ = true |- _ => apply is_type_eq in E; subst etype
    end;
    intros [= <-]; exists d; eexists; repeat split;
    (eexists; split; [reflexivity |]);
    intros k x [[= <- <-] | []]; assumption.
Qed.

(** X14. A record without a type entry is rejected with [KeyError], a
    constant record without a value likewise; a type tag other than the
    five that are known is rejected with [ValueError]. *)
Theorem from_dict_rejects (d : list (string * Json V)) :
  (assoc "type" d = None -> from_dict (JDict d) = Err KeyError)
  /\ (assoc "type" d = Some (JStr "constant") -> assoc "value" d = None ->
      from_dict (JDict d) = Err KeyError)
  /\ (forall tag,
        assoc "type" d = Some (JStr tag) ->
        ~ In tag ["constant"; "periodic"; "boundary"; "symmetric"; "reflect"] ->
        from_dict (JDict d) = Err ValueError).
Proof.
  unfold from_dict, getitem. repeat split.
  - now intros ->.
  - now intros -> ->.
  - intros tag -> Htag. simpl in *.
    repeat match goal with
           | |- context [String.eqb tag ?s] =>
               destruct (String.eqb_spec tag s) as [E | _];
               [exfalso; apply Htag; rewrite E; auto 10 |]
           end.
    reflexivity.
Qed.

End SerialisationFacts.

(** ** Padding *)

Section PaddingFacts.
Context {V : Type} `{TensorValue V}.

Section MixedPadEdges.
Variable Tensor : Type.
Variable simple_pad : @Simple V -> Tensor -> Widths -> result Tensor.
Variable set_iter : list (@Simple V) -> list (@Simple V).
Hypothesis set_iter_perm : forall l, Permutation (set_iter l) l.

Lemma fold_pad_step_Err (ext : @ExtDict V) (widths : Widths) schedule e :
  fold_left (pad_step Tensor simple_pad ext widths) schedule (Err e) = Err e.
Proof. induction schedule; simpl; auto. Qed.

Lemma ext_widths_missing (ext : @ExtDict V) (e : Simple) (widths : Widths) ax :
  In ax (keys widths) -> ~ In ax (keys ext) ->
  ext_widths ext e widths = Err KeyError.
Proof.
  unfold ext_widths.
  induction widths as [| [ax' [l u]] widths IH]; simpl; [tauto |].
  intros Hin Hext.
  destruct (assoc ax' ext) as [es |] eqn:Ha.
  - assert (getitem ext ax' = Ok es) as -> by (unfold getitem; now rewrite Ha).
    simpl. destruct Hin as [-> | Hin].
    + elim Hext. clear - Ha.
      induction ext as [| [k a] ext IH]; simpl in *; [discriminate |].
      destruct (String.eqb_spec ax k); [now left | right; auto].
    + now rewrite (IH Hin Hext).
  - assert (getitem ext ax' = Err KeyError) as ->
      by (unfold getitem; now rewrite Ha).
    reflexivity.
Qed.

(** X15. A mixed extrapolation without axes pads nothing: the tensor comes
    back as it is, whatever the widths. One with at least one axis raises
    [KeyError] when the widths name an axis it has no policy for. *)
Theorem mixed_pad_edges (ext : @ExtDict V) (value : Tensor) (widths : Widths) :
  (ext = [] ->
   mixed_pad Tensor simple_pad set_iter ext value widths = Ok value)
  /\ (forall ax,
        ext <> [] -> In ax (keys widths) -> ~ In ax (keys ext) ->
        mixed_pad Tensor simple_pad set_iter ext value widths = Err KeyError).
Proof.
  split.
  - intros ->. unfold mixed_pad, extrapolations.
    change (set_of (members [])) with (@nil (@Simple V)).
    assert (set_iter [] = []) as ->
      by (apply Permutation_nil, Permutation_sym, set_iter_perm).
    reflexivity.
  - intros ax Hext Hin Hmiss. unfold mixed_pad.
    destruct (extrapolations set_iter ext) as [| e schedule] eqn:Hs.
    + exfalso.
      assert (Permutation (extrapolations set_iter ext)
                          (set_of (members ext))) as Hp.
      { unfold extrapolations. rewrite sorted_by_rank_perm.
        apply set_iter_perm. }
      rewrite Hs in Hp. apply Permutation_nil in Hp.
      destruct ext as [| [k [lo up]] ext]; [congruence |].
      destruct (set_fold_complete (members ((k, (lo, up)) :: ext)) [] lo)
        as (e' & He' & _); [now left |].
      unfold set_of in Hp. rewrite Hp in He'. destruct He'.
    + cbn [fold_left].
      assert (pad_step Tensor simple_pad ext widths (Ok value) e
              = Err KeyError) as ->.
      { unfold pad_step. simpl.
        now rewrite (ext_widths_missing ext e widths ax Hin Hmiss). }
      apply fold_pad_step_Err.
Qed.

End MixedPadEdges.

End PaddingFacts.

(** X16. Padding a sparse linear operation with a constant moves the
    entry of row [y * w + x] of the [h] by [w] shape to the row of the same
    cell in the padded shape, [(y + dy0) * (w + dx0 + dx1) + (x + dx0)],
    which lies within the padded shape. *)
Theorem constant_pad_sparse_rows
    (n0 n1 : string) (t0 t1 : DimType) (h w dy0 dy1 dx0 dx1 : Z)
    (widths : Widths) (rows : list Z) :
  assoc n0 widths = Some (dy0, dy1) ->
  assoc n1 widths = Some (dx0, dx1) ->
  0 < w -> 0 <= dy0 -> 0 <= dy1 -> 0 <= dx0 -> 0 <= dx1 ->
  Forall (fun row => 0 <= row < h * w) rows ->
  exists padded shape',
    constant_pad_sparse
      [ {| dim_name := n0; dim_size := h; dim_type := t0 |};
        {| dim_name := n1; dim_size := w; dim_type := t1 |} ] widths rows
    = Ok (padded, shape')
    /\ map dim_size shape' = [h + (dy0 + dy1); w + (dx0 + dx1)]
    /\ length padded = length rows
    /\ forall i row p,
         rows !! i = Some row -> padded !! i = Some p ->
         p = (row / w + dy0) * (w + dx0 + dx1) + (row mod w + dx0)
         /\ 0 <= p < volume_of shape'.
Proof.
  intros Hy Hx Hw Hdy0 Hdy1 Hdx0 Hdx1 Hrows.
  unfold constant_pad_sparse, getitem. simpl. rewrite Hy, Hx. simpl.
  eexists. eexists. split; [reflexivity |].
  split; [reflexivity |]. split; [apply length_map |].
  intros i row p Hrow Hp.
  rewrite lookup_map, Hrow in Hp. simpl in Hp. injection Hp as <-.
  rewrite List.Forall_forall in Hrows.
  assert (0 <= row < h * w) as Hr.
  { apply Hrows. apply list_elem_of_In. eapply list_elem_of_lookup_2; eauto. }
  pose proof (Z.div_mod row w ltac:(lia)) as Hd.
  pose proof (Z.mod_pos_bound row w Hw) as Hm.
  assert (0 <= row / w < h) as Hq.
  { split; [apply Z.div_pos; lia |].
    apply Z.div_lt_upper_bound; [lia |]. lia. }
  split; [nia |].
  unfold volume_of. simpl. nia.
Qed.

(** ** Embedding *)

Lemma fold_prepend (c : string -> bool) (l init : list string) :
  fold_left (fun axes name => if c name then name :: axes else axes) l init
  = (rev (List.filter c l) ++ init)%list.
Proof.
  revert init. induction l as [| x l IH]; intros init; simpl; [reflexivity |].
  rewrite IH. destruct (c x); simpl; [| reflexivity].
  now rewrite <- app_assoc.
Qed.

Lemma filter_rev {A} (f : A -> bool) (l : list A) :
  List.filter f (rev l) = rev (List.filter f l).
Proof.
  induction l as [| x l IH]; simpl; [reflexivity |].
  rewrite List.filter_app, IH. simpl. destruct (f x); simpl;
    [reflexivity | now rewrite app_nil_r].
Qed.

(** The axes that [embed] computes for the wrapper. *)
Lemma embed_axes (names : list string) (p : ProjectedDims) :
  fold_left (fun axes name =>
               if negb (dims_contain p name) then name :: axes else axes)
            (rev names) (parse_dim_order p)
  = (List.filter (fun n => negb (dims_contain p n)) names
     ++ parse_dim_order p)%list.
Proof.
  rewrite (fold_prepend (fun n => negb (dims_contain p n))).
  now rewrite filter_rev, rev_involutive.
Qed.

Lemma filter_none {A} (f : A -> bool) (l : list A) :
  (forall a, In a l -> f a = false) -> List.filter f l = [].
Proof.
  induction l as [| x l IH]; intros Hf; simpl; [reflexivity |].
  rewrite Hf by now left. apply IH. intros a Ha. apply Hf. now right.
Qed.

Lemma embed_unchanged (g : Geometry) (p : ProjectedDims) :
  (forall a, In a (parse_dim_order p) -> In a (item_names g)) ->
  embed g p = g.
Proof.
  intros Hall. unfold embed. destruct p; [reflexivity | |];
    (rewrite filter_none; [reflexivity |]);
    intros a Ha; apply negb_false_iff, mem_In, Hall, Ha.
Qed.

Lemma keys_box_product (box : Bounds) (l : list string) :
  keys (box_product box l) = (keys box ++ l)%list.
Proof.
  unfold box_product, keys. rewrite map_app, map_map. simpl.
  now rewrite map_id.
Qed.

(** What [embed] returns when at least one dimension is new. *)
Lemma embed_new (g : Geometry) (p : ProjectedDims) (n : string)
    (new : list string) :
  new_axes g (parse_dim_order p) = n :: new ->
  embed g p
  = match g with
    | BaseBox box => BaseBox (box_product box (n :: new))
    | _ => EmbeddedGeometry g
             (List.filter (fun x => negb (dims_contain p x)) (item_names g)
              ++ parse_dim_order p)
    end.
Proof.
  intros Hnew. unfold embed. unfold new_axes in Hnew.
  destruct p; [discriminate | |]; rewrite Hnew, embed_axes;
    destruct g; reflexivity.
Qed.

(** X17. Embedding is idempotent: embedding the result again along the same
    dimensions changes nothing, and neither does embedding along
    dimensions the geometry already has. *)
Theorem embed_idempotent (g : Geometry) (p : ProjectedDims) :
  embed (embed g p) p = embed g p
  /\ ((forall a, In a (parse_dim_order p) -> In a (item_names g)) ->
      embed g p = g).
Proof.
  split; [| apply embed_unchanged].
  destruct (new_axes g (parse_dim_order p)) as [| n new] eqn:Hnew.
  - assert (embed g p = g) as E.
    { unfold embed. unfold new_axes in Hnew.
      destruct p; [reflexivity | |]; now rewrite Hnew. }
    now rewrite E, E.
  - apply embed_unchanged. intros a Ha.
    rewrite (embed_new g p n new Hnew).
    destruct g as [box | impl | g' axes']; simpl;
      try (apply in_or_app; now right).
    rewrite keys_box_product. apply in_or_app.
    destruct (mem a (keys box)) eqn:Hmem; [left; now apply mem_In |].
    right. rewrite <- Hnew. apply filter_In.
    split; [exact Ha | simpl; now rewrite Hmem].
Qed.

(** X18. Wrapping a geometry that is not a box along a tuple of dimensions
    of which at least one is new gives the wrapper over the axes of the
    geometry that the tuple does not list, in their order, followed by the
    tuple; so every axis of the geometry is an axis of the wrapper. *)
Theorem embed_tuple_axes (g : Geometry) (l : list string) :
  (forall box, g <> BaseBox box) ->
  new_axes g l <> [] ->
  embed g (DimsTuple l)
  = EmbeddedGeometry g
      (List.filter (fun n => negb (mem n l)) (item_names g) ++ l)
  /\ forall n, In n (item_names g) -> In n (item_names (embed g (DimsTuple l))).
Proof.
  intros Hbox Hnew.
  assert (embed g (DimsTuple l)
          = EmbeddedGeometry g
              (List.filter (fun n => negb (mem n l)) (item_names g) ++ l))
    as Heq.
  { destruct (new_axes g l) as [| a new] eqn:E; [congruence |].
    rewrite (embed_new g (DimsTuple l) a new E).
    destruct g as [box | impl | g' axes']; [now elim (Hbox box) | |];
      reflexivity. }
  split; [exact Heq |].
  intros n Hn. rewrite Heq. simpl. apply in_or_app.
  destruct (mem n l) eqn:E.
  - right. now apply mem_In.
  - left. apply filter_In. split; [exact Hn | now rewrite E].
Qed.

Lemma list_remove_subset (x : string) (l l' : list string) (a : string) :
  list_remove x l = Ok l' -> In a l' -> In a l.
Proof.
  revert l'. induction l as [| y l IH]; intros l'; simpl; [discriminate |].
  destruct (String.eqb y x).
  - intros [= <-]. now right.
  - destruct (list_remove x l) as [l0 |]; simpl; [| discriminate].
    intros [= <-] [-> | Hin]; [now left | right; eauto].
Qed.

Lemma list_remove_error (x : string) (l : list string) e :
  list_remove x l = Err e -> e = ValueError.
Proof.
  induction l as [| y l IH]; simpl; [now intros [= <-] |].
  destruct (String.eqb y x); [discriminate |].
  destruct (list_remove x l); simpl; [discriminate |].
  intros [= <-]. now apply IH.
Qed.

Lemma list_remove_absent (x : string) (l : list string) :
  ~ In x l -> list_remove x l = Err ValueError.
Proof.
  induction l as [| y l IH]; simpl; [reflexivity |].
  intros Hx. destruct (String.eqb_spec y x); [tauto |].
  rewrite IH by tauto. reflexivity.
Qed.

Lemma remove_fold_Err (g : Geometry) (axes : list string) :
  fold_left (fun acc dim =>
               l ← acc;
               if negb (mem dim (item_names g)) then list_remove dim l
               else Ok l) axes (Err ValueError)
  = Err ValueError.
Proof. induction axes; simpl; auto. Qed.

Lemma remove_fold_missing (g : Geometry) (axes l : list string) (a : string) :
  In a (new_axes g axes) -> ~ In a l ->
  fold_left (fun acc dim =>
               l ← acc;
               if negb (mem dim (item_names g)) then list_remove dim l
               else Ok l) axes (Ok l)
  = Err ValueError.
Proof.
  revert l. unfold new_axes.
  induction axes as [| dim axes IH]; intros l Hin Ha; simpl in *; [tauto |].
  destruct (negb (mem dim (item_names g))) eqn:Hnew; simpl in *.
  - destruct (list_remove dim l) as [l' | e] eqn:Hr.
    + destruct Hin as [-> | Hin].
      * rewrite list_remove_absent in Hr by assumption. discriminate.
      * apply IH; [exact Hin |].
        intros Hl'. apply Ha. eapply list_remove_subset; eauto.
    + apply list_remove_error in Hr. subst e. apply remove_fold_Err.
  - now apply IH.
Qed.

(** X19. An embedded geometry cannot answer for a location that lacks the
    component along one of the added axes: [lies_inside] and
    [approximate_signed_distance] raise [ValueError]. *)
Theorem embedded_query_missing_axis
    (box_distance : Bounds -> Location -> result Q)
    (g : Geometry) (axes : list string) (loc : Location) (a : string) :
  In a (new_axes g axes) -> ~ In a (keys loc) ->
  lies_inside (EmbeddedGeometry g axes) loc = Err ValueError
  /\ approximate_signed_distance box_distance (EmbeddedGeometry g axes) loc
     = Err ValueError.
Proof.
  intros Hin Ha. simpl. unfold down_project.
  rewrite (remove_fold_missing g axes (keys loc) a Hin Ha). now split.
Qed.

Lemma new_axes_app (g : Geometry) (l1 l2 : list string) :
  new_axes g (l1 ++ l2) = (new_axes g l1 ++ new_axes g l2)%list.
Proof. apply List.filter_app. Qed.

(** X20. An infinite cylinder ignores the coordinate along its infinite
    dimension: a location is inside exactly when the sphere contains the
    location without that component. *)
Theorem infinite_cylinder_lies_inside
    (sphere : GeometryImpl) (inf_dim : ProjectedDims) (z : string)
    (loc : Location) :
  parse_dim_order inf_dim = [z] ->
  ~ In z (g_item_names sphere) ->
  List.NoDup (keys loc) -> In z (keys loc) ->
  lies_inside (infinite_cylinder sphere inf_dim) loc
  = g_lies_inside sphere (drop_axes [z] loc).
Proof.
  intros Hp Hz Hloc Hin. unfold infinite_cylinder.
  assert (negb (mem z (g_item_names sphere)) = true) as Hnew.
  { apply negb_true_iff. now apply mem_not_In. }
  assert (new_axes (Other sphere) (parse_dim_order inf_dim) = [z]) as Hz'.
  { rewrite Hp. unfold new_axes. simpl. now rewrite Hnew. }
  rewrite (embed_new (Other sphere) inf_dim z [] Hz').
  set (axes := (List.filter _ (item_names (Other sphere))
                ++ parse_dim_order inf_dim)%list).
  assert (new_axes (Other sphere) axes = [z]) as Hax.
  { unfold axes. rewrite new_axes_app, Hz'. unfold new_axes.
    rewrite filter_none; [reflexivity |].
    intros a Ha. apply filter_In in Ha. apply negb_false_iff, mem_In.
    apply Ha. }
  simpl. rewrite (down_project_drop (Other sphere) axes loc); rewrite ?Hax;
    try assumption.
  - reflexivity.
  - repeat constructor. simpl. tauto.
  - intros a [<- | []]. exact Hin.
Qed.

(** ** Building meshes *)

Lemma bind_Ok {A B} (x : result A) (f : A -> result B) (b : B) :
  x ≫= f = Ok b -> exists a, x = Ok a /\ f a = Ok b.
Proof. destruct x as [a | e]; [eauto | discriminate]. Qed.

Lemma assert_Ok (c : bool) (u : unit) : assert c = Ok u -> c = true.
Proof. now destruct c. Qed.

Lemma traverse_Ok_In {A B} (f : A -> result B) (l : list A) (bs : list B) :
  traverse f l = Ok bs -> forall a, In a l -> exists b, f a = Ok b.
Proof.
  revert bs. induction l as [| a' l IH]; simpl; intros bs H a Ha; [tauto |].
  apply bind_Ok in H. destruct H as (b & Hb & H).
  apply bind_Ok in H. destruct H as (bs' & Hbs & _).
  destruct Ha as [-> | Ha]; eauto.
Qed.

(** What the constructor keeps when it accepts seven arguments. *)
Lemma MeshType_call_fields (v : VertexTensor) (el : Elements)
    (rank b p ff w : PyVal) (m : Mesh) :
  p <> PNone ->
  MeshType_call [PGeometry v; PElements el; rank; b; p; ff; w] = Ok m ->
  nonempty (only_type spatial (el_shape el)) = is_index_tensor el
  /\ m = {| vertices := v; elements := el; element_rank := rank;
            boundaries := b; periodic := p; face_format := ff;
            max_cell_walk := w; variable_attrs := ["vertices"];
            value_attrs := [] |}.
Proof.
  intros Hp. cbn.
  destruct (nonempty (only_type spatial (el_shape el))) eqn:Hsp;
    destruct el; cbn; try discriminate;
    destruct p; try (now elim Hp); intros [= <-]; split; reflexivity.
Qed.

(** The mesh that [mesh] returns, field by field. *)
Lemma mesh_inv (v : VertexTensor) (e : Elements) (b : PyVal)
    (r : option Z) (p : option (list string)) (ff : string) (w : PyVal)
    (m : Mesh) :
  mesh v e b r p ff w = Ok m ->
  exists rank el,
    m = {| vertices := v; elements := el; element_rank := PInt rank;
           boundaries := b; periodic := PStrs (periodic_dims p);
           face_format := PStr ff; max_cell_walk := w;
           variable_attrs := ["vertices"]; value_attrs := [] |}
    /\ el_rows el = el_rows e
    /\ only_type spatial (el_shape el) = []
    /\ is_index_tensor el = false
    /\ match r with
       | Some r' => rank = r'
       | None =>
           exists size, get_size (vt_shape v) "vector" = Ok size
             /\ (size = 2 /\ rank = 2
                 \/ size = 3
                    /\ exists n,
                         min_of (map (fun row => Z.of_nat (length row))
                                     (el_rows e)) = Ok n
                         /\ rank = if n <=? 4 then 2 else 3)
       end.
Proof.
  unfold mesh. intros H.
  apply bind_Ok in H. destruct H as (_ & _ & H).
  apply bind_Ok in H. destruct H as (_ & _ & H).
  apply bind_Ok in H. destruct H as (_ & _ & H).
  apply bind_Ok in H. destruct H as (rank & Hrank & H).
  apply bind_Ok in H. destruct H as (dims & Hdims & H).
  apply MeshType_call_fields in H; [| discriminate].
  destruct H as (Hsp & ->).
  assert (dims = periodic_dims p) as ->.
  { destruct p as [dims' |]; cbn in Hdims |- *; [| congruence].
    apply bind_Ok in Hdims. destruct Hdims as (_ & _ & Hdims).
    apply bind_Ok in Hdims. destruct Hdims as (_ & _ & Hdims). congruence. }
  exists rank. eexists. split; [reflexivity |].
  assert (el_rows (if nonempty (only_type spatial (el_shape e))
                   then CompactSparseTensor
                          (compact_shape (el_shape e)
                             (as_dual (only_type instance (vt_shape v))))
                          (el_rows e)
                   else e) = el_rows e) as Hrows
    by now destruct (nonempty _).
  rewrite Hrows in Hrank. split; [exact Hrows |].
  split; [| split].
  - destruct (nonempty (only_type spatial (el_shape e))) eqn:He.
    + cbn in Hsp |- *.
      match type of Hsp with
      | nonempty ?x = _ => now destruct x
      end.
    + rewrite He in Hsp. now destruct (only_type spatial (el_shape e)).
  - destruct (nonempty (only_type spatial (el_shape e))) eqn:He;
      [reflexivity |].
    now rewrite He in Hsp.
  - destruct r as [r' |]; [congruence |].
    apply bind_Ok in Hrank. destruct Hrank as (size & Hsize & Hrank).
    exists size. split; [exact Hsize |].
    destruct (Z.eqb_spec size 2) as [-> | H2]; [left; split; congruence |].
    destruct (Z.eqb_spec size 3) as [-> | H3]; [| discriminate].
    apply bind_Ok in Hrank. destruct Hrank as (mv & Hmv & Hrank).
    right. split; [reflexivity |]. exists mv. split; congruence.
Qed.

(** X21. A mesh that [mesh] returns holds the given vertices and
    boundaries, the vertex indices of the given elements in a
    representation without spatial dimension, the periodic axes, the face
    format and the [max_cell_walk] as given (the default of the
    constructor is not applied to it), and an element rank that is the
    given one or, when inferred, 2 or 3. *)
Theorem mesh_fields (v : VertexTensor) (e : Elements) (b : PyVal)
    (r : option Z) (p : option (list string)) (ff : string) (w : PyVal)
    (m : Mesh) :
  mesh v e b r p ff w = Ok m ->
  vertices m = v /\ boundaries m = b
  /\ el_rows (elements m) = el_rows e
  /\ only_type spatial (el_shape (elements m)) = []
  /\ is_index_tensor (elements m) = false
  /\ periodic m = PStrs (periodic_dims p)
  /\ face_format m = PStr ff
  /\ max_cell_walk m = w
  /\ exists rank, element_rank m = PInt rank
       /\ match r with
          | Some r' => rank = r'
          | None => rank = 2 \/ rank = 3
          end.
Proof.
  intros H. apply mesh_inv in H.
  destruct H as (rank & el & -> & Hrows & Hsp & Hidx & Hrank). cbn.
  repeat (split; [assumption || reflexivity |]).
  exists rank. split; [reflexivity |].
  destruct r as [r' |]; [exact Hrank |].
  destruct Hrank as (size & _ & [[_ ->] | (_ & n & _ & ->)]); [now left |].
  destruct (n <=? 4); [now left | now right].
Qed.

(** X22. A mesh is only built with periodic axes that are components of
    the vertex vectors and whose lower and upper boundaries are both keys
    of the boundaries dictionary. *)
Theorem mesh_periodic_boundaries (v : VertexTensor) (e : Elements)
    (d : list (string * list (list Z))) (r : option Z) (dims : list string)
    (ff : string) (w : PyVal) (m : Mesh) :
  mesh v e (PEdges d) r (Some dims) ff w = Ok m ->
  forall base, In base dims ->
    In base (vt_item_names v)
    /\ In (base ++ "+") (keys d) /\ In (base ++ "-") (keys d).
Proof.
  unfold mesh. intros H base Hbase.
  apply bind_Ok in H. destruct H as (_ & _ & H).
  apply bind_Ok in H. destruct H as (_ & _ & H).
  apply bind_Ok in H. destruct H as (_ & _ & H).
  apply bind_Ok in H. destruct H as (rank & _ & H).
  apply bind_Ok in H. destruct H as (dims' & H & _).
  apply bind_Ok in H. destruct H as (u & Hnames & H).
  apply bind_Ok in H. destruct H as (us & Hkeys & _).
  apply assert_Ok in Hnames. rewrite forallb_forall in Hnames.
  split; [apply mem_In; auto |].
  destruct (traverse_Ok_In _ _ _ Hkeys base Hbase) as (u' & Hu).
  cbn in Hu.
  destruct (mem (base ++ "+") (keys d)) eqn:Hhi; cbn in Hu; [| discriminate].
  destruct (mem (base ++ "-") (keys d)) eqn:Hlo; cbn in Hu; [| discriminate].
  split; now apply mem_In.
Qed.

Lemma fold_min_gt (l : list Z) (x bound : Z) :
  bound < fold_left Z.min l x <-> bound < x /\ Forall (fun y => bound < y) l.
Proof.
  revert x. induction l as [| y l IH]; intros x; cbn.
  - split; [intros H; split; [exact H | constructor] | tauto].
  - rewrite IH, List.Forall_cons_iff.
    split; [intros [Hm Hl] | intros (Hx & Hy & Hl)];
      repeat split; try lia; exact Hl.
Qed.

(** X23. When no element rank is given, [mesh] settles on 3 exactly for
    vertices with three components all of whose elements list more than
    four vertices; elements of at most four vertices, tetrahedra among
    them, are taken for surface elements. *)
Theorem mesh_inferred_rank (v : VertexTensor) (e : Elements) (b : PyVal)
    (p : option (list string)) (ff : string) (w : PyVal) (m : Mesh) :
  mesh v e b None p ff w = Ok m ->
  (element_rank m = PInt 3
   <-> get_size (vt_shape v) "vector" = Ok 3
       /\ Forall (fun row => (4 < length row)%nat) (el_rows e)).
Proof.
  intros H. apply mesh_inv in H.
  destruct H as (rank & el & -> & _ & _ & _ & size & Hsize & Hrank).
  cbn [element_rank]. rewrite Hsize.
  destruct Hrank as [[-> ->] | (-> & n & Hn & ->)].
  { split; [discriminate | intros [[=] _]]. }
  destruct (el_rows e) as [| row rows] eqn:Hel; [discriminate |].
  cbn in Hn. injection Hn as <-.
  pose proof (fold_min_gt (map (fun row => Z.of_nat (length row)) rows)
                (Z.of_nat (length row)) 4) as Hmin.
  rewrite List.Forall_cons_iff.
  rewrite List.Forall_map in Hmin.
  assert (Forall (fun row => (4 < length row)%nat) rows
          <-> Forall (fun row => 4 < Z.of_nat (length row)) rows) as ->.
  { rewrite !List.Forall_forall. split; intros Hall x Hx;
      specialize (Hall x Hx); lia. }
  destruct (Z.leb_spec (fold_left Z.min
                          (map (fun row => Z.of_nat (length row)) rows)
                          (Z.of_nat (length row))) 4) as [Hle | Hgt].
  - split; [discriminate |]. intros (_ & Hrow & Hall).
    exfalso. assert (4 < Z.of_nat (length row)) as Hrow' by lia.
    pose proof (proj2 Hmin (conj Hrow' Hall)). lia.
  - split; [| reflexivity]. intros _. split; [reflexivity |].
    apply Hmin in Hgt. destruct Hgt as [Hrow Hall]. split; [lia | exact Hall].
Qed.

(** X24. [mesh_from_numpy] on points of two or three coordinates: with at
    least one polygon the mesh holds the points under the component names
    [x], [y] (and [z]), and the polygons as compact vertex lists when all
    have the same length, as rows of a sparse matrix otherwise; in both
    cases the elements have the cell dimension, of the size of the list of
    polygons, and the dual of the vertex dimension, of the size of the
    list of points. Without a polygon a [ValueError] is raised. *)
Theorem mesh_from_numpy_elements (points : list (list Q))
    (polys : list (list Z)) (b : PyVal) (r : option Z)
    (cell_dim ff : string) (n : nat) :
  points <> [] -> (n = 2 \/ n = 3)%nat ->
  Forall (fun row => length row = n) points ->
  (polys = [] ->
   mesh_from_numpy points polys b r None cell_dim ff = Err ValueError)
  /\ (polys <> [] ->
      exists m shape,
        mesh_from_numpy points polys b r None cell_dim ff = Ok m
        /\ vt_data (vertices m) = points
        /\ vt_item_names (vertices m) = xyz n
        /\ boundaries m = b
        /\ elements m
           = (if all_same_length polys
              then CompactSparseTensor shape polys
              else SparseMatrix shape polys)
        /\ length shape = 2%nat
        /\ In {| dim_name := cell_dim;
                 dim_size := Z.of_nat (length polys);
                 dim_type := instance |} shape
        /\ In {| dim_name := "~vertices";
                 dim_size := Z.of_nat (length points);
                 dim_type := dual |} shape).
Proof.
  intros Hpoints Hn Hrows.
  assert (row_length points = Z.of_nat n) as Hlen.
  { destruct points as [| row points']; [congruence |].
    apply List.Forall_cons_iff in Hrows. cbn. now rewrite (proj1 Hrows). }
  assert (length (xyz n) = n) as Hxyz by (destruct Hn; now subst n).
  unfold mesh_from_numpy. rewrite Hlen, Nat2Z.id, Hxyz.
  rewrite (forallb_row_length _ _ Hrows).
  cbn [mbind result_bind].
  split; [now intros -> |]. intros Hpolys.
  assert (exists k,
             min_of (map (fun row => Z.of_nat (length row)) polys) = Ok k)
    as (k & Hk).
  { apply min_of_nonempty. destruct polys; [congruence | discriminate]. }
  destruct (all_same_length polys) eqn:Hsame.
  - cbn [mbind result_bind]. unfold mesh.
    cbn -[String.eqb min_of Z.of_nat xyz length].
    rewrite !orb_true_r. cbn -[String.eqb min_of Z.of_nat xyz length].
    assert (exists rank,
               match r with
               | Some r' => Ok r'
               | None =>
                   get_size
                     [ {| dim_name := "vertices";
                          dim_size := Z.of_nat (length points);
                          dim_type := instance |};
                       {| dim_name := "vector"; dim_size := Z.of_nat n;
                          dim_type := channel |} ] "vector"
                   ≫= (fun size : Z =>
                         if size =? 2 then Ok 2
                         else if size =? 3
                              then min_of
                                     (map (fun row => Z.of_nat (length row))
                                          polys)
                                   ≫= (fun min_vertices : Z =>
                                         Ok (if min_vertices <=? 4
                                             then 2 else 3))
                              else Err ValueError)
               end = Ok rank) as (rank & Hrank).
    { destruct r as [r |]; [eauto |].
      destruct Hn; subst n; cbn -[min_of]; [eauto |].
      rewrite Hk. cbn. eauto. }
    rewrite Hrank. cbn -[Z.of_nat length xyz].
    eexists. eexists. split; [reflexivity |].
    cbn -[Z.of_nat length xyz].
    repeat (split; [reflexivity |]).
    split; [now left | right; now left].
  - destruct polys as [| poly polys']; [congruence |].
    cbn [mbind result_bind]. unfold mesh.
    cbn -[String.eqb min_of Z.of_nat xyz length].
    rewrite !orb_true_r. cbn -[String.eqb min_of Z.of_nat xyz length].
    assert (exists rank,
               match r with
               | Some r' => Ok r'
               | None =>
                   get_size
                     [ {| dim_name := "vertices";
                          dim_size := Z.of_nat (length points);
                          dim_type := instance |};
                       {| dim_name := "vector"; dim_size := Z.of_nat n;
                          dim_type := channel |} ] "vector"
                   ≫= (fun size : Z =>
                         if size =? 2 then Ok 2
                         else if size =? 3
                              then min_of
                                     (Z.of_nat (length poly)
                                      :: map (fun row => Z.of_nat (length row))
                                             polys')
                                   ≫= (fun min_vertices : Z =>
                                         Ok (if min_vertices <=? 4
                                             then 2 else 3))
                              else Err ValueError)
               end = Ok rank) as (rank & Hrank).
    { destruct r as [r |]; [eauto |].
      destruct Hn; subst n; cbn -[min_of]; [eauto |].
      cbn [map] in Hk. rewrite Hk. cbn. eauto. }
    rewrite Hrank. cbn -[Z.of_nat length xyz].
    eexists. eexists. split; [reflexivity |].
    cbn -[Z.of_nat length xyz].
    repeat (split; [reflexivity |]).
    split; [now left | right; now left].
Qed.

(** ** Archives of triangle meshes *)

Lemma append_length (s t : string) :
  String.length (s ++ t) = (String.length s + String.length t)%nat.
Proof. induction s as [| a s IH]; simpl; [reflexivity | now f_equal]. Qed.

Lemma npz_path_neq (file : string) :
  ends_with ".npz" file = false -> npz_path file <> file.
Proof.
  unfold npz_path. intros ->. intros E.
  apply (f_equal String.length) in E. rewrite append_length in E.
  cbn in E. lia.
Qed.

(** What a successful [save_tri_mesh] has checked and written. *)
Lemma save_tri_mesh_inv (fs fs' : gmap string Archive) (file : string)
    (m : Mesh) (extra : list (string * PyVal)) :
  save_tri_mesh fs file m extra = Ok fs' ->
  exists shape f f_dim vertex_dim,
    elements m = CompactSparseTensor shape f
    /\ dirname file <> ""
    /\ existsb (fun k => mem k ["vertices"; "faces"; "f_dim"; "vertex_dim";
                                "vector"; "has_extra_data"])
               (keys extra) = false
    /\ fs' = <[npz_path file :=
                {| npz_vertices := vt_data (vertices m); npz_faces := f;
                   npz_f_dim := f_dim; npz_vertex_dim := vertex_dim;
                   npz_vector := vt_item_names (vertices m);
                   npz_has_extra_data := nonempty extra;
                   npz_extra := extra |}]> fs.
Proof.
  unfold save_tri_mesh. intros H.
  apply bind_Ok in H. destruct H as (v & Hv & H).
  apply bind_Ok in H. destruct H as (f & Hf & H).
  apply bind_Ok in H. destruct H as ([] & Hmk & H).
  apply bind_Ok in H. destruct H as (f_dim & _ & H).
  apply bind_Ok in H. destruct H as (vertex_dim & _ & H).
  apply bind_Ok in H. destruct H as ([] & Hres & H).
  unfold reshaped_vertices in Hv.
  apply bind_Ok in Hv. destruct Hv as (_ & _ & [= <-]).
  destruct (elements m) as [| shape idx |] eqn:Hel; try discriminate.
  injection Hf as <-. injection H as <-.
  exists shape, idx, f_dim, vertex_dim. split; [reflexivity |].
  split.
  { unfold makedirs in Hmk. intros E. now rewrite E in Hmk. }
  split; [| reflexivity].
  now destruct (existsb _ (keys extra)).
Qed.

(** X25. A successful [save_tri_mesh] has written one archive, under the
    name with the extension [.npz], holding the vertex coordinates, the
    compact vertex lists of the elements and the extra data; every other
    file is left as it was. It only succeeds for compact elements, a path
    with a directory part and extra data that use none of the reserved
    keys. *)
Theorem save_tri_mesh_writes (fs fs' : gmap string Archive) (file : string)
    (m : Mesh) (extra : list (string * PyVal)) :
  save_tri_mesh fs file m extra = Ok fs' ->
  (exists a shape,
      fs' !! npz_path file = Some a
      /\ elements m = CompactSparseTensor shape (npz_faces a)
      /\ npz_vertices a = vt_data (vertices m)
      /\ npz_vector a = vt_item_names (vertices m)
      /\ npz_extra a = extra
      /\ npz_has_extra_data a = nonempty extra)
  /\ (forall other, other <> npz_path file -> fs' !! other = fs !! other)
  /\ dirname file <> ""
  /\ (forall k, In k (keys extra) ->
        ~ In k ["vertices"; "faces"; "f_dim"; "vertex_dim"; "vector";
                "has_extra_data"]).
Proof.
  intros H. apply save_tri_mesh_inv in H.
  destruct H as (shape & f & f_dim & vertex_dim & Hel & Hdir & Hres & ->).
  split; [| split; [| split]].
  - eexists. exists shape. rewrite lookup_insert_eq.
    split; [reflexivity |]. cbn. now repeat split.
  - intros other Hne. now rewrite lookup_insert_ne.
  - exact Hdir.
  - intros k Hk Hin. apply mem_In in Hin.
    assert (existsb (fun k => mem k ["vertices"; "faces"; "f_dim";
                                     "vertex_dim"; "vector";
                                     "has_extra_data"]) (keys extra) = true)
      as Hex by (apply existsb_exists; eauto).
    congruence.
Qed.

(** X26. A mesh read by [load_tri_mesh] has the coordinates and vertex
    lists of the archive, in compact form, and nothing else of the mesh
    that was saved: no boundaries, no periodic axes, the face format
    [csc], no [max_cell_walk], and an element rank that is inferred
    again. A missing file raises [FileNotFoundError]. *)
Theorem load_tri_mesh_defaults (fs : gmap string Archive) (file : string)
    (ks : list string) :
  (fs !! file = None -> load_tri_mesh fs file ks = Err FileNotFoundError)
  /\ forall m vals,
       load_tri_mesh fs file ks = Ok (m, vals) ->
       exists a, fs !! file = Some a
         /\ vt_data (vertices m) = npz_vertices a
         /\ vt_item_names (vertices m) = npz_vector a
         /\ el_rows (elements m) = npz_faces a
         /\ is_index_tensor (elements m) = false
         /\ boundaries m = PNone
         /\ periodic m = PStrs []
         /\ face_format m = PStr "csc"
         /\ max_cell_walk m = PNone
         /\ (element_rank m = PInt 2 \/ element_rank m = PInt 3).
Proof.
  split.
  { intros Hnone. unfold load_tri_mesh. now rewrite Hnone. }
  intros m vals H. unfold load_tri_mesh in H.
  destruct (fs !! file) as [a |]; [| discriminate].
  exists a. split; [reflexivity |]. cbn [mbind result_bind] in H.
  apply bind_Ok in H. destruct H as ([] & _ & H).
  apply bind_Ok in H. destruct H as (m' & Hmesh & H).
  apply bind_Ok in H. destruct H as (vals' & _ & [= <- <-]).
  apply mesh_inv in Hmesh.
  destruct Hmesh as (rank & el & -> & Hrows & _ & Hidx & size & _ & Hrank).
  cbn. repeat (split; [assumption || reflexivity |]).
  destruct Hrank as [[_ ->] | (_ & n & _ & ->)]; [now left |].
  destruct (n <=? 4); [now left | now right].
Qed.

Lemma assoc_Some_keys {A} (k : string) (d : list (string * A)) (v : A) :
  assoc k d = Some v -> In k (keys d).
Proof.
  induction d as [| [k' a] d IH]; simpl; [discriminate |].
  destruct (String.eqb_spec k k') as [-> | Hne]; [now left |].
  intros H. right. now apply IH.
Qed.

(** The keys under which [save_tri_mesh] writes the mesh itself. *)
Lemma npz_getitem_extra (data : Archive) (k : string) :
  ~ In k ["vertices"; "faces"; "f_dim"; "vertex_dim"; "vector";
          "has_extra_data"] ->
  npz_getitem data k = v ← getitem (npz_extra data) k; Ok (NpzObject v).
Proof.
  intros Hk. unfold npz_getitem.
  repeat match goal with
         | |- context [String.eqb k ?s] =>
             destruct (String.eqb_spec k s) as [E | _];
             [exfalso; apply Hk; rewrite E; simpl; tauto |]
         end.
  reflexivity.
Qed.

Lemma npz_getitem_error (data : Archive) (k : string) (e : PyError) :
  npz_getitem data k = Err e -> e = KeyError.
Proof.
  unfold npz_getitem, getitem.
  repeat match goal with
         | |- context [String.eqb k ?s] => destruct (String.eqb k s)
         end; try discriminate.
  destruct (assoc k (npz_extra data)); [discriminate | now intros [= <-]].
Qed.

Lemma traverse_npz_getitem (data : Archive) (ks : list string) :
  Forall (fun k => In k (keys (npz_extra data))
                   /\ ~ In k ["vertices"; "faces"; "f_dim"; "vertex_dim";
                              "vector"; "has_extra_data"]) ks ->
  exists vals, traverse (npz_getitem data) ks = Ok vals
    /\ Forall2 (fun k v => exists x, assoc k (npz_extra data) = Some x
                                     /\ v = NpzObject x) ks vals.
Proof.
  induction 1 as [| k ks [Hk Hres] _ (vals & Hvals & Hall)];
    cbn [traverse].
  - exists []. split; [reflexivity | constructor].
  - destruct (assoc_In_keys k _ Hk) as (x & Hx).
    rewrite (npz_getitem_extra data k Hres). unfold getitem at 1.
    rewrite Hx. cbn. rewrite Hvals. cbn.
    exists (NpzObject x :: vals). split; [reflexivity |].
    constructor; [eauto | exact Hall].
Qed.

Lemma traverse_npz_getitem_missing (data : Archive) (ks : list string) :
  Exists (fun k => ~ In k (keys (npz_extra data))
                   /\ ~ In k ["vertices"; "faces"; "f_dim"; "vertex_dim";
                              "vector"; "has_extra_data"]) ks ->
  traverse (npz_getitem data) ks = Err KeyError.
Proof.
  induction 1 as [k ks [Hk Hres] | k ks _ IH]; cbn [traverse].
  - rewrite (npz_getitem_extra data k Hres). unfold getitem at 1.
    destruct (assoc k (npz_extra data)) as [x |] eqn:Hx; [| reflexivity].
    elim Hk. now apply assoc_Some_keys with x.
  - rewrite IH. destruct (npz_getitem data k) as [v | e] eqn:E;
      [reflexivity |].
    cbn. now rewrite (npz_getitem_error data k e E).
Qed.

(** X27. Extra data written by [save_tri_mesh] comes back from
    [load_tri_mesh]: where the saved mesh can be loaded on its own,
    loading it with keys that were saved returns the same mesh and the
    value saved under each key, in the order of the keys. A key that is
    neither one that was saved nor one of the archive's own raises
    [KeyError]; one of the archive's own keys returns that entry of the
    archive, the key [vertices] the vertex coordinates. *)
Theorem save_load_extra (fs fs' : gmap string Archive) (file : string)
    (m m' : Mesh) (extra : list (string * PyVal)) (ks : list string) :
  save_tri_mesh fs file m extra = Ok fs' ->
  load_tri_mesh fs' (npz_path file) [] = Ok (m', []) ->
  (Forall (fun k => In k (keys extra)) ks ->
   exists vals,
     load_tri_mesh fs' (npz_path file) ks = Ok (m', vals)
     /\ Forall2 (fun k v => exists x, assoc k extra = Some x
                                      /\ v = NpzObject x) ks vals)
  /\ (Exists (fun k => ~ In k (keys extra)
                       /\ ~ In k ["vertices"; "faces"; "f_dim"; "vertex_dim";
                                  "vector"; "has_extra_data"]) ks ->
      load_tri_mesh fs' (npz_path file) ks = Err KeyError)
  /\ load_tri_mesh fs' (npz_path file) ["vertices"]
     = Ok (m', [NpzFloats (vt_data (vertices m))]).
Proof.
  intros Hsave Hload. apply save_tri_mesh_inv in Hsave.
  destruct Hsave as (shape & f & f_dim & vertex_dim & _ & _ & Hres & ->).
  unfold load_tri_mesh in Hload |- *.
  rewrite lookup_insert_eq in Hload |- *.
  cbn [mbind result_bind npz_extra npz_vertices npz_faces npz_f_dim
       npz_vertex_dim npz_vector] in Hload |- *.
  apply bind_Ok in Hload. destruct Hload as ([] & -> & Hload).
  cbn [mbind result_bind] in Hload |- *.
  apply bind_Ok in Hload. destruct Hload as (m'' & -> & Hload).
  cbn in Hload. injection Hload as ->.
  cbn [mbind result_bind]. split; [| split].
  - intros Hks.
    assert (Forall (fun k => In k (keys extra)
                             /\ ~ In k ["vertices"; "faces"; "f_dim";
                                        "vertex_dim"; "vector";
                                        "has_extra_data"]) ks) as Hpre.
    { eapply List.Forall_impl; [| exact Hks].
      intros k Hk. split; [exact Hk |]. intros Hin. apply mem_In in Hin.
      assert (existsb (fun k => mem k ["vertices"; "faces"; "f_dim";
                                       "vertex_dim"; "vector";
                                       "has_extra_data"]) (keys extra)
              = true) as Hex.
      { apply existsb_exists. exists k. split; assumption. }
      cbn [npz_extra] in Hres. congruence. }
    match goal with
    | |- context [traverse (npz_getitem ?a) ks] =>
        destruct (traverse_npz_getitem a ks Hpre) as (vals & -> & Hall)
    end.
    exists vals. split; [reflexivity | exact Hall].
  - intros Hks.
    match goal with
    | |- context [traverse (npz_getitem ?a) ks] =>
        now rewrite (traverse_npz_getitem_missing a ks Hks)
    end.
  - reflexivity.
Qed.

(** X28. [save_tri_mesh] appends [.npz] to a name without it, and
    [load_tri_mesh] opens the name as given: loading under the very name
    that was passed to a successful save fails unless the name ends in
    [.npz] or such a file was there before. *)
Theorem save_load_extension (fs fs' : gmap string Archive) (file : string)
    (m : Mesh) (extra : list (string * PyVal)) (ks : list string) :
  ends_with ".npz" file = false ->
  fs !! file = None ->
  save_tri_mesh fs file m extra = Ok fs' ->
  load_tri_mesh fs' file ks = Err FileNotFoundError.
Proof.
  intros Hext Hnone Hsave. apply save_tri_mesh_inv in Hsave.
  destruct Hsave as (shape & f & f_dim & vertex_dim & _ & _ & _ & ->).
  unfold load_tri_mesh.
  rewrite lookup_insert_ne by (apply npz_path_neq, Hext).
  now rewrite Hnone.
Qed.

(** ** Cells and outer boundaries of the quadrilateral mesh *)

Lemma NoDup_list_prod {A B} (l1 : list A) (l2 : list B) :
  List.NoDup l1 -> List.NoDup l2 -> List.NoDup (list_prod l1 l2).
Proof.
  intros H1 H2. induction H1 as [| a l1 Ha _ IH]; simpl; [constructor |].
  apply List.NoDup_app.
  - apply Finite.Injective_map_NoDup; [| exact H2]. intros x y. congruence.
  - exact IH.
  - intros [a' b] Hin Hin'. apply in_map_iff in Hin.
    destruct Hin as (b' & [= <- <-] & _).
    apply in_prod_iff in Hin'. tauto.
Qed.

Lemma In_cell_indices (rx ry : nat) (full_mask : Grid bool) (i j : nat) :
  In (i, j) (cell_indices rx ry full_mask)
  <-> (i < rx)%nat /\ (j < ry)%nat /\ masked full_mask i j = false.
Proof.
  unfold cell_indices. rewrite filter_In, in_prod_iff, !in_seq.
  rewrite negb_true_iff. split.
  - intros [[Hi Hj] Hm]. split; [lia | split; [lia | exact Hm]].
  - intros (Hi & Hj & Hm). split; [split; lia | exact Hm].
Qed.

Lemma vert_id_inj (ry i j i' j' : nat) :
  (j <= ry)%nat -> (j' <= ry)%nat ->
  vert_id ry i j = vert_id ry i' j' -> i = i' /\ j = j'.
Proof.
  unfold vert_id. intros Hj Hj' E. apply Nat2Z.inj in E.
  assert (i = i') as -> by nia. split; [reflexivity | lia].
Qed.

(** X29. The cells of the quadrilateral mesh are the free cells of the
    grid, each once: the polygon of cell (i, j) lists the vertices (i, j),
    (i, j+1), (i+1, j+1), (i+1, j) of the row-by-row numbering, which are
    four different vertices of the grid. *)
Theorem quadrilateral_polygons (rx ry : nat) (full_mask : Grid bool) :
  (forall poly, In poly (polygons rx ry full_mask) <->
     exists i j, (i < rx)%nat /\ (j < ry)%nat
       /\ masked full_mask i j = false
       /\ poly = [vert_id ry i j; vert_id ry i j + 1;
                  vert_id ry i j + Z.of_nat ry + 2;
                  vert_id ry i j + Z.of_nat ry + 1])
  /\ (forall poly, In poly (polygons rx ry full_mask) ->
        List.NoDup poly
        /\ Forall (fun v => 0 <= v < Z.of_nat ((rx + 1) * (ry + 1))) poly)
  /\ List.NoDup (polygons rx ry full_mask)
  /\ (length (polygons rx ry full_mask) <= rx * ry)%nat.
Proof.
  assert (forall i j,
             [vert_id ry i j; vert_id ry i (j + 1);
              vert_id ry (i + 1) (j + 1); vert_id ry (i + 1) j]
             = [vert_id ry i j; vert_id ry i j + 1;
                vert_id ry i j + Z.of_nat ry + 2;
                vert_id ry i j + Z.of_nat ry + 1]) as Hpoly.
  { intros i j. unfold vert_id. repeat f_equal; lia. }
  assert (forall poly, In poly (polygons rx ry full_mask) <->
     exists i j, (i < rx)%nat /\ (j < ry)%nat
       /\ masked full_mask i j = false
       /\ poly = [vert_id ry i j; vert_id ry i j + 1;
                  vert_id ry i j + Z.of_nat ry + 2;
                  vert_id ry i j + Z.of_nat ry + 1]) as Hin.
  { intros poly. unfold polygons. rewrite in_map_iff. split.
    - intros ([i j] & <- & Hc). apply In_cell_indices in Hc.
      exists i, j. rewrite Hpoly. tauto.
    - intros (i & j & Hi & Hj & Hm & ->). exists (i, j).
      rewrite Hpoly. split; [reflexivity |]. now apply In_cell_indices. }
  split; [exact Hin |]. split; [| split].
  - intros poly Hp. apply Hin in Hp.
    destruct Hp as (i & j & Hi & Hj & _ & ->). split.
    + repeat constructor; simpl; lia.
    + unfold vert_id. repeat constructor; nia.
  - unfold polygons. apply Finite.Injective_map_NoDup_in.
    + intros [i j] [i' j'] Hc Hc' E.
      apply In_cell_indices in Hc, Hc'. injection E as E _ _ _.
      apply vert_id_inj in E; [| lia | lia]. now destruct E as [-> ->].
    + apply List.NoDup_filter, NoDup_list_prod; apply seq_NoDup.
  - unfold polygons, cell_indices. rewrite length_map.
    etransitivity; [apply List.filter_length_le |].
    rewrite length_prod, !length_seq. lia.
Qed.

Lemma removelast_map_seq {A} (g : nat -> A) (a n : nat) :
  removelast (map g (seq a (S n))) = map g (seq a n).
Proof.
  rewrite seq_S, map_app. apply removelast_last.
Qed.

Lemma zip_edges {A} (g : nat -> A) (mk : nat -> bool) (a n : nat) :
  zip (zip (map g (seq a n)) (map g (seq (S a) n))) (map mk (seq a n))
  = map (fun k => ((g k, g (S k)), mk k)) (seq a n).
Proof.
  revert a. induction n as [| n IH]; intros a; simpl; [reflexivity |].
  now rewrite IH.
Qed.

(** The edges of one side of the domain. *)
Lemma In_all_faces (g : nat -> Z) (mk : nat -> bool) (n : nat) (s e : Z) :
  In (s, e) (all_faces (map g (seq 0 (n + 1))) (map mk (seq 0 n)))
  <-> exists k, (k < n)%nat /\ mk k = false /\ s = g k /\ e = g (S k).
Proof.
  unfold all_faces. rewrite Nat.add_1_r, removelast_map_seq.
  change (tail (map g (seq 0 (S n)))) with (map g (seq 1 n)).
  rewrite zip_edges, in_map_iff. split.
  - intros ([[s' e'] m] & [= -> ->] & Hin). apply filter_In in Hin.
    destruct Hin as [Hin Hm]. apply in_map_iff in Hin.
    destruct Hin as (k & [= <- <- <-] & Hk). apply in_seq in Hk.
    exists k. apply negb_true_iff in Hm. repeat split; [lia | exact Hm].
  - intros (k & Hk & Hm & -> & ->). exists ((g k, g (S k)), mk k).
    split; [reflexivity |]. apply filter_In. split.
    + apply in_map_iff. exists k. split; [reflexivity |].
      apply in_seq. lia.
    + now rewrite Hm.
Qed.

(** X30. Every edge of the four outer boundaries joins two different
    vertices of the polygon of a free cell, so that an outer boundary
    never runs along a cell that an obstacle occupies. *)
Theorem outer_boundary_edges (d1 d2 : string) (rx ry : nat)
    (full_mask : Grid bool) (name : string) (edges : list (Z * Z))
    (s e : Z) :
  (0 < rx)%nat -> (0 < ry)%nat ->
  In (name, edges) (outer_boundaries d1 d2 rx ry full_mask) ->
  In (s, e) edges ->
  s <> e
  /\ exists poly, In poly (polygons rx ry full_mask)
                  /\ In s poly /\ In e poly.
Proof.
  intros Hrx Hry Hname Hedge.
  assert (forall i j, (i < rx)%nat -> (j < ry)%nat ->
            masked full_mask i j = false ->
            In [vert_id ry i j; vert_id ry i (j + 1);
                vert_id ry (i + 1) (j + 1); vert_id ry (i + 1) j]
               (polygons rx ry full_mask)) as Hcell.
  { intros i j Hi Hj Hm. unfold polygons. apply in_map_iff.
    exists (i, j). split; [reflexivity |]. now apply In_cell_indices. }
  unfold outer_boundaries in Hname. simpl in Hname.
  destruct Hname as [E | [E | [E | [E | []]]]];
    injection E as _ <-; apply In_all_faces in Hedge;
    destruct Hedge as (k & Hk & Hm & -> & ->).
  - split; [unfold vert_id; lia |].
    eexists. split; [apply (Hcell 0%nat k); [lia | lia | exact Hm] |].
    rewrite ?Nat.add_1_r. simpl. tauto.
  - split; [unfold vert_id; lia |].
    eexists. split; [apply (Hcell (rx - 1)%nat k); [lia | lia | exact Hm] |].
    replace (rx - 1 + 1)%nat with rx by lia. rewrite ?Nat.add_1_r.
    simpl. tauto.
  - split; [unfold vert_id; lia |].
    eexists. split; [apply (Hcell k 0%nat); [lia | lia | exact Hm] |].
    rewrite ?Nat.add_1_r. simpl. tauto.
  - split; [unfold vert_id; lia |].
    eexists. split; [apply (Hcell k (ry - 1)%nat); [lia | lia | exact Hm] |].
    replace (ry - 1 + 1)%nat with ry by lia. rewrite ?Nat.add_1_r.
    simpl. tauto.
Qed.

(** * Further examples *)

Lemma transform_coordinates_in_range_witness :
  0 <= simple_transform_coordinates (@REFLECT Q) 7 4 < 4.
Proof. apply (transform_coordinates_in_range (V := Q)). lia. Defined.

Lemma transform_coordinates_fixes_indices_witness :
  simple_transform_coordinates (@SYMMETRIC Q) 2 4 = 2
  /\ simple_transform_coordinates (@SYMMETRIC Q)
       (simple_transform_coordinates (@SYMMETRIC Q) (-3) 4) 4
     = simple_transform_coordinates (@SYMMETRIC Q) (-3) 4.
Proof.
  split.
  - apply (proj1 (transform_coordinates_fixes_indices (@SYMMETRIC Q) 2 4)).
    lia.
  - apply (proj2 (transform_coordinates_fixes_indices (@SYMMETRIC Q) (-3) 4)).
    lia.
Defined.

Lemma transform_coordinates_mirror_witness :
  simple_transform_coordinates (@SYMMETRIC Q) (- 1 - 2) 4
  = simple_transform_coordinates (@SYMMETRIC Q) 2 4
  /\ simple_transform_coordinates (@REFLECT Q) (- 2) 4
     = simple_transform_coordinates (@REFLECT Q) 2 4.
Proof. apply (transform_coordinates_mirror (V := Q) 2 4). lia. Defined.

Lemma mixed_transform_coordinates_in_range_witness :
  let ext : @ExtDict Q := [("x", (SYMMETRIC, REFLECT))] in
  let shape := [dim "x" 4 spatial] in
  exists r,
    transform_coordinates ext [-1] shape = Ok r
    /\ length r = length shape
    /\ forall i d x,
         shape !! i = Some d -> r !! i = Some x -> 0 <= x < dim_size d.
Proof.
  intros ext shape.
  apply (mixed_transform_coordinates_in_range ext [-1] shape);
    try reflexivity.
  - repeat constructor.
  - repeat constructor.
Defined.

Lemma copy_mismatch_incompatible_witness :
  binop Add (Single (@CopyExtrapolation Q Periodic))
            (Single (CopyExtrapolation Boundary))
  = Err IncompatibleExtrapolations.
Proof. apply copy_mismatch_incompatible. discriminate. Defined.

Lemma mixed_binop_keeps_axes_witness :
  exists r,
    binop Add (MixedExtrapolation example_mixed) (Single ZERO) = Ok r
    /\ exists ext', r = MixedExtrapolation ext'
                    /\ keys ext' = keys example_mixed.
Proof.
  eexists. split; [reflexivity |].
  eapply (mixed_binop_keeps_axes example_mixed (Single ZERO) Add).
  reflexivity.
Defined.

Lemma mixed_binop_guards_witness :
  binop Add (MixedExtrapolation example_mixed)
            (MixedExtrapolation [("x", (@PERIODIC Q, @PERIODIC Q))])
  = Err AssertionError.
Proof.
  apply (proj1 (mixed_binop_guards example_mixed
                  [("x", (@PERIODIC Q, @PERIODIC Q))] Add)).
  - discriminate.
  - exists "y". simpl. intros [Hy _].
    destruct Hy as [E | []]; [now right; left | discriminate].
Defined.

Lemma copy_neutral_constants_witness :
  let e := Single (@CopyExtrapolation Q Symmetric) in
  binop Add (Single ZERO) e = Ok e
  /\ binop Add e (Single ZERO) = Ok e
  /\ binop Sub e (Single ZERO) = Ok e
  /\ binop Mul (Single ONE) e = Ok e
  /\ binop Mul e (Single ONE) = Ok e
  /\ binop Div e (Single ONE) = Ok e.
Proof.
  apply (copy_neutral_constants (V := Q) Symmetric); reflexivity.
Defined.

Lemma constant_copy_incompatible_witness :
  binop Mul (Single (ConstantExtrapolation 5%Q))
            (Single (CopyExtrapolation Periodic))
  = Err IncompatibleExtrapolations
  /\ binop Mul (Single (CopyExtrapolation Periodic))
               (Single (ConstantExtrapolation 5%Q))
     = Err IncompatibleExtrapolations.
Proof.
  apply (constant_copy_incompatible 5%Q Periodic Mul); reflexivity.
Defined.

Lemma gradient_fixed_witness :
  exists g,
    gradient (MixedExtrapolation example_mixed) = Ok g
    /\ gradient g = Ok g
    /\ (forall ext, MixedExtrapolation example_mixed = MixedExtrapolation ext ->
          exists ext', g = MixedExtrapolation ext' /\ keys ext' = keys ext).
Proof.
  eexists. split; [reflexivity |].
  apply (gradient_fixed (MixedExtrapolation example_mixed)). reflexivity.
Defined.

Lemma mixed_gradient_raises_witness :
  gradient (MixedExtrapolation [("x", (@SYMMETRIC Q, @PERIODIC Q))])
  = Err TypeError.
Proof.
  apply (proj1 (mixed_gradient_raises [("x", (@SYMMETRIC Q, @PERIODIC Q))])).
  exists SYMMETRIC. split; [now left | now left].
Defined.

Lemma from_dict_sound_witness :
  let j : Json Q := JDict [("type", JStr "constant"); ("value", JVal 5%Q)] in
  let e := Single (ConstantExtrapolation 5%Q) in
  exists d s,
    j = JDict d /\ e = Single s
    /\ exists entries,
         to_dict e = JDict entries
         /\ forall k x, In (k, x) entries -> getitem d k = Ok x.
Proof.
  intros j e. apply (from_dict_sound j e). reflexivity.
Defined.

Lemma from_dict_rejects_witness :
  from_dict (@JDict Q [("value", JVal 5%Q)]) = Err KeyError
  /\ from_dict (@JDict Q [("type", JStr "constant")]) = Err KeyError
  /\ from_dict (@JDict Q [("type", JStr "mixed")]) = Err ValueError.
Proof.
  split; [| split].
  - apply (proj1 (from_dict_rejects [("value", JVal 5%Q)])). reflexivity.
  - apply (proj1 (proj2 (from_dict_rejects [("type", JStr "constant")])));
      reflexivity.
  - apply (proj2 (proj2 (from_dict_rejects [("type", JStr "mixed")]))
             "mixed"); [reflexivity |].
    simpl. intuition discriminate.
Defined.

Lemma mixed_pad_edges_witness :
  mixed_pad NativeTensor native_pad (fun l => l) [] example_tensor
            example_widths = Ok example_tensor
  /\ mixed_pad NativeTensor native_pad (fun l => l) example_mixed
               example_tensor [("z", (1, 1))] = Err KeyError.
Proof.
  split.
  - apply (proj1 (mixed_pad_edges NativeTensor native_pad (fun l => l)
                    (fun l => Permutation_refl l)
                    [] example_tensor example_widths)).
    reflexivity.
  - apply (proj2 (mixed_pad_edges NativeTensor native_pad (fun l => l)
                    (fun l => Permutation_refl l)
                    example_mixed example_tensor [("z", (1, 1))]) "z").
    + discriminate.
    + simpl. tauto.
    + simpl. intuition discriminate.
Defined.

Lemma constant_pad_sparse_rows_witness :
  exists padded shape',
    constant_pad_sparse [dim "y" 2 spatial; dim "x" 3 spatial]
                        [("y", (1, 1)); ("x", (1, 2))] [0; 4; 5]
    = Ok (padded, shape')
    /\ map dim_size shape' = [2 + (1 + 1); 3 + (1 + 2)]
    /\ length padded = length [0; 4; 5]
    /\ forall i row p,
         [0; 4; 5] !! i = Some row -> padded !! i = Some p ->
         p = (row / 3 + 1) * (3 + 1 + 2) + (row mod 3 + 1)
         /\ 0 <= p < volume_of shape'.
Proof.
  apply (constant_pad_sparse_rows "y" "x" spatial spatial 2 3 1 1 1 2
           [("y", (1, 1)); ("x", (1, 2))] [0; 4; 5]);
    try reflexivity; try lia.
  repeat constructor; lia.
Defined.

Lemma embed_idempotent_witness :
  embed (embed (Other unit_disc) (DimsStr "z")) (DimsStr "z")
  = embed (Other unit_disc) (DimsStr "z")
  /\ embed (Other unit_disc) (DimsStr "x") = Other unit_disc.
Proof.
  split.
  - apply (proj1 (embed_idempotent (Other unit_disc) (DimsStr "z"))).
  - apply (proj2 (embed_idempotent (Other unit_disc) (DimsStr "x"))).
    simpl. intros a [<- | []]. now left.
Defined.

Lemma embed_tuple_axes_witness :
  embed (Other unit_disc) (DimsTuple ["z"])
  = EmbeddedGeometry (Other unit_disc)
      (List.filter (fun n => negb (mem n ["z"])) (item_names (Other unit_disc))
       ++ ["z"])
  /\ forall n, In n (item_names (Other unit_disc)) ->
               In n (item_names (embed (Other unit_disc) (DimsTuple ["z"]))).
Proof.
  apply (embed_tuple_axes (Other unit_disc) ["z"]).
  - discriminate.
  - discriminate.
Defined.

Lemma embedded_query_missing_axis_witness :
  let no_box_distance :=
    fun (_ : Bounds) (_ : Location) => @Err Q NotImplementedError in
  let loc : Location := [("x", 1 # 2); ("y", 1 # 2)]%Q in
  let cylinder := EmbeddedGeometry (Other unit_disc) ["x"; "y"; "z"] in
  lies_inside cylinder loc = Err ValueError
  /\ approximate_signed_distance no_box_distance cylinder loc
     = Err ValueError.
Proof.
  intros no_box_distance loc cylinder.
  apply (embedded_query_missing_axis no_box_distance (Other unit_disc)
           ["x"; "y"; "z"] loc "z").
  - simpl. tauto.
  - simpl. intuition discriminate.
Defined.

Lemma infinite_cylinder_lies_inside_witness :
  let loc : Location := [("x", 1 # 2); ("y", 1 # 2); ("z", 7)]%Q in
  lies_inside (infinite_cylinder unit_disc (DimsStr "z")) loc
  = g_lies_inside unit_disc (drop_axes ["z"] loc).
Proof.
  intros loc.
  apply (infinite_cylinder_lies_inside unit_disc (DimsStr "z") "z" loc).
  - reflexivity.
  - simpl. intuition discriminate.
  - repeat constructor; simpl; intuition discriminate.
  - simpl. tauto.
Defined.

Lemma mesh_fields_witness :
  exists m,
    mesh example_vertices example_triangle PNone None None "csc" PNone = Ok m
    /\ vertices m = example_vertices /\ boundaries m = PNone
    /\ el_rows (elements m) = el_rows example_triangle
    /\ only_type spatial (el_shape (elements m)) = []
    /\ is_index_tensor (elements m) = false
    /\ periodic m = PStrs (periodic_dims None)
    /\ face_format m = PStr "csc"
    /\ max_cell_walk m = PNone
    /\ exists rank, element_rank m = PInt rank /\ (rank = 2 \/ rank = 3).
Proof.
  eexists. split; [reflexivity |].
  apply (mesh_fields example_vertices example_triangle PNone None None
           "csc" PNone).
  reflexivity.
Defined.

Lemma mesh_periodic_boundaries_witness :
  let edges := [("x-", [[0; 2]]); ("x+", [[0; 1]])] in
  exists m,
    mesh example_vertices example_triangle (PEdges edges) None (Some ["x"])
         "csc" PNone = Ok m
    /\ forall base, In base ["x"] ->
         In base (vt_item_names example_vertices)
         /\ In (base ++ "+") (keys edges) /\ In (base ++ "-") (keys edges).
Proof.
  intros edges. eexists. split; [reflexivity |].
  eapply (mesh_periodic_boundaries example_vertices example_triangle edges
            None ["x"] "csc" PNone).
  reflexivity.
Defined.

Lemma mesh_inferred_rank_witness :
  exists m,
    mesh example_tetra_vertices example_tetra PNone None None "csc" PNone
    = Ok m
    /\ (element_rank m = PInt 3
        <-> get_size (vt_shape example_tetra_vertices) "vector" = Ok 3
            /\ Forall (fun row => (4 < length row)%nat)
                      (el_rows example_tetra)).
Proof.
  eexists. split; [reflexivity |].
  apply (mesh_inferred_rank example_tetra_vertices example_tetra PNone None
           "csc" PNone).
  reflexivity.
Defined.

Lemma mesh_from_numpy_elements_witness :
  let points := [[0; 0]; [1; 0]; [0; 1]; [1; 1]]%Q in
  mesh_from_numpy points [] PNone None None "cells" "csc" = Err ValueError
  /\ exists m shape,
       mesh_from_numpy points [[0; 1; 2]] PNone None None "cells" "csc" = Ok m
       /\ vt_data (vertices m) = points
       /\ vt_item_names (vertices m) = xyz 2
       /\ boundaries m = PNone
       /\ elements m
          = (if all_same_length [[0; 1; 2]]
             then CompactSparseTensor shape [[0; 1; 2]]
             else SparseMatrix shape [[0; 1; 2]])
       /\ length shape = 2%nat
       /\ In {| dim_name := "cells";
                dim_size := Z.of_nat (length [[0; 1; 2]]);
                dim_type := instance |} shape
       /\ In {| dim_name := "~vertices";
                dim_size := Z.of_nat (length points);
                dim_type := dual |} shape.
Proof.
  intros points. split.
  - apply (proj1 (mesh_from_numpy_elements points [] PNone None "cells" "csc"
                    2%nat ltac:(discriminate) ltac:(now left)
                    ltac:(repeat constructor))).
    reflexivity.
  - apply (proj2 (mesh_from_numpy_elements points [[0; 1; 2]] PNone None
                    "cells" "csc" 2%nat ltac:(discriminate) ltac:(now left)
                    ltac:(repeat constructor))).
    discriminate.
Defined.

Lemma save_tri_mesh_writes_witness :
  let fs' : gmap string Archive := <[npz_path "out/mesh" := example_archive]> ∅ in
  save_tri_mesh ∅ "out/mesh" example_mesh example_extra = Ok fs'
  /\ (exists a shape,
         fs' !! npz_path "out/mesh" = Some a
         /\ elements example_mesh = CompactSparseTensor shape (npz_faces a)
         /\ npz_vertices a = vt_data (vertices example_mesh)
         /\ npz_vector a = vt_item_names (vertices example_mesh)
         /\ npz_extra a = example_extra
         /\ npz_has_extra_data a = nonempty example_extra)
  /\ (forall other, other <> npz_path "out/mesh" ->
        fs' !! other = (∅ : gmap string Archive) !! other)
  /\ dirname "out/mesh" <> ""
  /\ (forall k, In k (keys example_extra) ->
        ~ In k ["vertices"; "faces"; "f_dim"; "vertex_dim"; "vector";
                "has_extra_data"]).
Proof.
  intros fs'.
  assert (save_tri_mesh ∅ "out/mesh" example_mesh example_extra = Ok fs')
    as Hsave by reflexivity.
  split; [exact Hsave |].
  apply (save_tri_mesh_writes ∅ fs' "out/mesh" example_mesh example_extra
           Hsave).
Defined.

Lemma load_tri_mesh_defaults_witness :
  let fs : gmap string Archive := <[npz_path "out/mesh" := example_archive]> ∅ in
  load_tri_mesh fs "out/mesh" ["step"] = Err FileNotFoundError
  /\ exists m vals a,
       load_tri_mesh fs "out/mesh.npz" ["step"] = Ok (m, vals)
       /\ fs !! "out/mesh.npz" = Some a
       /\ vt_data (vertices m) = npz_vertices a
       /\ vt_item_names (vertices m) = npz_vector a
       /\ el_rows (elements m) = npz_faces a
       /\ is_index_tensor (elements m) = false
       /\ boundaries m = PNone
       /\ periodic m = PStrs []
       /\ face_format m = PStr "csc"
       /\ max_cell_walk m = PNone
       /\ (element_rank m = PInt 2 \/ element_rank m = PInt 3).
Proof.
  intros fs. split.
  - apply (proj1 (load_tri_mesh_defaults fs "out/mesh" ["step"])).
    reflexivity.
  - assert (exists m vals,
               load_tri_mesh fs "out/mesh.npz" ["step"] = Ok (m, vals))
      as (m & vals & Hload) by (eexists; eexists; reflexivity).
    exists m, vals.
    destruct (proj2 (load_tri_mesh_defaults fs "out/mesh.npz" ["step"])
                m vals Hload) as (a & Ha).
    exists a. split; [exact Hload | exact Ha].
Defined.

Lemma save_load_extra_witness :
  let fs' : gmap string Archive := <[npz_path "out/mesh" := example_archive]> ∅ in
  exists m',
    (exists vals,
        load_tri_mesh fs' (npz_path "out/mesh") ["tag"; "step"] = Ok (m', vals)
        /\ Forall2 (fun k v => exists x, assoc k example_extra = Some x
                                         /\ v = NpzObject x)
                   ["tag"; "step"] vals)
    /\ load_tri_mesh fs' (npz_path "out/mesh") ["step"; "time"] = Err KeyError
    /\ load_tri_mesh fs' (npz_path "out/mesh") ["vertices"]
       = Ok (m', [NpzFloats (vt_data (vertices example_mesh))]).
Proof.
  intros fs'.
  assert (save_tri_mesh ∅ "out/mesh" example_mesh example_extra = Ok fs')
    as Hsave by reflexivity.
  assert (exists m', load_tri_mesh fs' (npz_path "out/mesh") [] = Ok (m', []))
    as (m' & Hload) by (eexists; reflexivity).
  exists m'. split; [| split].
  - apply (proj1 (save_load_extra ∅ fs' "out/mesh" example_mesh m'
                    example_extra ["tag"; "step"] Hsave Hload)).
    repeat constructor; simpl; tauto.
  - apply (proj1 (proj2 (save_load_extra ∅ fs' "out/mesh" example_mesh m'
                           example_extra ["step"; "time"] Hsave Hload))).
    apply Exists_cons_tl, Exists_cons_hd. simpl. intuition discriminate.
  - apply (proj2 (proj2 (save_load_extra ∅ fs' "out/mesh" example_mesh m'
                           example_extra [] Hsave Hload))).
Defined.

Lemma save_load_extension_witness :
  let fs' : gmap string Archive := <[npz_path "out/mesh" := example_archive]> ∅ in
  load_tri_mesh fs' "out/mesh" [] = Err FileNotFoundError.
Proof.
  intros fs'.
  apply (save_load_extension ∅ fs' "out/mesh" example_mesh example_extra []).
  - reflexivity.
  - reflexivity.
  - reflexivity.
Defined.

Lemma quadrilateral_polygons_witness :
  In [0; 1; 3; 2] (polygons 2 1 example_mask)
  /\ ~ In [2; 3; 5; 4] (polygons 2 1 example_mask).
Proof.
  split.
  - apply (proj1 (quadrilateral_polygons 2 1 example_mask)).
    exists 0%nat, 0%nat. repeat split; lia.
  - intros Hin.
    apply (proj1 (quadrilateral_polygons 2 1 example_mask)) in Hin.
    destruct Hin as (i & j & Hi & Hj & Hm & E).
    unfold vert_id in E. injection E as E _.
    assert (i = 1%nat /\ j = 0%nat) as [-> ->] by lia. discriminate.
Defined.

Lemma outer_boundary_edges_witness :
  0 <> 1
  /\ exists poly, In poly (polygons 2 1 example_mask)
                  /\ In 0 poly /\ In 1 poly.
Proof.
  apply (outer_boundary_edges "x" "y" 2 1 example_mask "x-" [(0, 1)] 0 1).
  - lia.
  - lia.
  - left. reflexivity.
  - left. reflexivity.
Defined.
